(** * AutoScan IA: damage interpretation and vehicle aggregation

    Shallow embedding of [backend/damage_analyzer.py] (class
    [DamageAnalyzer]) and of the [/api/analyze], [/api/health] and
    [/api/stats] endpoints of [app.py], together with the properties of
    the decision policy.

    Conventions of the embedding.
    - A floating-point number is the rational number it denotes.  Every
      arithmetic operation of the program rounds the exact result to
      the nearest number of its format, ties to even, as IEEE 754
      prescribes for binary32 (NumPy's [float32]) and binary64 (Python's
      [float]); subnormal numbers are included.  Infinities and NaN are
      not: the probabilities lie between 0 and 1 and the confidences
      between 0 and 100, far from the overflow threshold.
    - The format in which NumPy computes [prediction_array[i] * 100] is
      a parameter [fmt]: binary32 for a [float32] array under the
      promotion rules of NumPy 2, binary64 for a [float64] array and
      for the scalar promotion of older NumPy versions.
    - Python dictionaries that act as lookup tables ([CLASS_NAMES],
      [CLASS_LABELS], [damage_counts], [all_predictions], ...) are
      [gmap]s; dictionaries that are iterated over ([image_paths],
      [results]) are insertion-ordered association lists; the JSON
      object of an answer is a [gmap].
    - Exceptions are values of type [exn]; calls into the image
      library, the neural network and the file system are recorded in
      a trace.
    - Calls to [logger] have no effect on results and are left out. *)

From Stdlib Require Import QArith Qround Qabs Qpower Lqa.
From stdpp Require Import base option list gmap strings.

Local Open Scope string_scope.

(** ** Exceptions and fallible computations *)

Inductive exn : Type :=
| RuntimeError (msg : string)
| KeyError (key : string)
| IndexKeyError (key : nat)
| ValueError (msg : string)
| AttributeError (msg : string)
| NameError (name : string)
| ExternalError (msg : string).

Inductive result (A : Type) : Type :=
| Ok (a : A)
| Raise (e : exn).
Arguments Ok {A} a.
Arguments Raise {A} e.

#[global] Instance result_ret : MRet result := fun A a => Ok a.
#[global] Instance result_bind : MBind result := fun A B f m =>
  match m with
  | Ok a => f a
  | Raise e => Raise e
  end.
#[global] Instance result_fmap : FMap result := fun A B f m =>
  match m with
  | Ok a => Ok (f a)
  | Raise e => Raise e
  end.

(** [d[k]] on a lookup table: [KeyError] when the key is absent. *)
Definition getitem {V} (d : gmap string V) (k : string) : result V :=
  match d !! k with
  | Some v => Ok v
  | None => Raise (KeyError k)
  end.

Definition getitem_idx {V} (d : gmap nat V) (i : nat) : result V :=
  match d !! i with
  | Some v => Ok v
  | None => Raise (IndexKeyError i)
  end.

(** ** Numbers *)

Definition Qltb (a b : Q) : bool :=
  match (a ?= b)%Q with
  | Lt => true
  | _ => false
  end.

Definition Qgtb (a b : Q) : bool := Qltb b a.

(** Rounding of a real number to the nearest integer, ties to even. *)
Definition round_half_even (x : Q) : Z :=
  let f := Qfloor x in
  match (x - inject_Z f ?= 1 # 2)%Q with
  | Lt => f
  | Gt => (f + 1)%Z
  | Eq => if Z.even f then f else (f + 1)%Z
  end.

(** *** Floating-point formats

    A format has [prec] bits of precision and represents the multiples
    of [2 ^ emin] up to precision. *)
Inductive format : Type := binary32 | binary64.

Definition prec (fmt : format) : Z :=
  match fmt with binary32 => 24 | binary64 => 53 end.

Definition emin (fmt : format) : Z :=
  match fmt with binary32 => -149 | binary64 => -1074 end.

(** The binary exponent of a positive rational: the [k] with
    [2 ^ k <= x < 2 ^ (k + 1)]. *)
Definition Qfloor_log2 (x : Q) : Z :=
  let k := (Z.log2 (Qnum x) - Z.log2 (Zpos (Qden x)))%Z in
  if Qle_bool (2 ^ k) x then k else (k - 1)%Z.

(** The exponent of the last place of the numbers of the format that
    are next to [x]. *)
Definition exponent (fmt : format) (x : Q) : Z :=
  Z.max (Qfloor_log2 (Qabs x) - (prec fmt - 1)) (emin fmt).

(** The number of the format nearest to [x], ties to even. *)
Definition round_binary (fmt : format) (x : Q) : Q :=
  let e := exponent fmt x in
  Qred (inject_Z (round_half_even (x / 2 ^ e)) * 2 ^ e)%Q.

(** [prob * 100] on an entry of the array, computed by NumPy in the
    format [fmt]; [float(...)] of the product is exact. *)
Definition np_times100 (fmt : format) (prob : Q) : Q :=
  round_binary fmt (prob * 100).

(** [a + b] and [a / n] on Python floats ([n] an [int], converted to
    [float] first), and [round(x, 2)]: the decimal with two places
    nearest to [x], ties to even, then the float nearest to it. *)
Definition py_add (a b : Q) : Q := round_binary binary64 (a + b).

Definition py_truediv (a : Q) (n : nat) : Q :=
  round_binary binary64 (a / round_binary binary64 (inject_Z (Z.of_nat n))).

Definition py_round2 (x : Q) : Q :=
  round_binary binary64 (round_half_even (x * 100) # 100).

(** ** Class tables of [DamageAnalyzer.__init__] *)

Definition CLASS_NAMES : gmap nat string :=
  {[ 0%nat := "01-minor";
     1%nat := "02-moderate";
     2%nat := "03-severe";
     3%nat := "04-no-damage" ]}.

Definition CLASS_LABELS : gmap string string :=
  {[ "01-minor" := "Daño Leve";
     "02-moderate" := "Daño Moderado";
     "03-severe" := "Daño Severo";
     "04-no-damage" := "Sin Daño" ]}.

Definition CLASS_DESCRIPTIONS : gmap string string :=
  {[ "01-minor" := "Rayones pequeños, abolladuras leves";
     "02-moderate" := "Abolladuras medias, roturas parciales";
     "03-severe" := "Estructura comprometida, grandes abolladuras";
     "04-no-damage" := "Vehículo en buen estado sin daños visibles" ]}.

(** ** Strings *)

Fixpoint starts_with (p s : string) : bool :=
  match p, s with
  | EmptyString, _ => true
  | String a p', String b s' => if Ascii.eqb a b then starts_with p' s' else false
  | String _ _, EmptyString => false
  end.

(** [s.replace(old, new)] for a non-empty [old]: every occurrence of
    [old], found left to right without overlap, becomes [new].  [skip]
    counts the characters of a matched occurrence still to be dropped. *)
Fixpoint replace_from (old new : string) (skip : nat) (s : string) : string :=
  match s with
  | EmptyString => EmptyString
  | String c s' =>
      match skip with
      | S k => replace_from old new k s'
      | O =>
          if starts_with old s
          then new +:+ replace_from old new (String.length old - 1) s'
          else String c (replace_from old new 0 s')
      end
  end.

Definition replace (old new s : string) : string := replace_from old new 0 s.

(** ** [DamageAnalyzer._generate_details] *)

Definition details_map : gmap string string :=
  {[ "01-minor" := "Rayones superficiales o abolladuras menores";
     "02-moderate" := "Abolladuras medias que podrían requerir reparación";
     "03-severe" := "Daños estructurales que afectan integridad";
     "04-no-damage" := "Vehículo en excelente estado sin daños visibles" ]}.

Definition low_qualifier : string :=
  " (Baja confianza - verificación manual recomendada)".
Definition medium_qualifier : string := " (Confianza media)".
Definition high_qualifier : string := " (Alta confianza)".

Definition _generate_details (class_name : string) (confidence : Q) : string :=
  let detail := default "Daño no especificado" (details_map !! class_name) in
  if Qltb confidence 60 then detail +:+ low_qualifier
  else if Qltb confidence 80 then detail +:+ medium_qualifier
  else detail +:+ high_qualifier.


(** ** Interpretation of a probability vector

    The part of [analyze_single_image] that follows the call to the
    network (from [np.argmax] to the construction of [result]). *)

Record single_result : Type := mk_single_result {
  damage : string;
  damage_label : string;
  confidence : Q;
  confidence_level : string;
  description : string;
  all_predictions : gmap string Q;
  details : string
}.

(** [np.argmax]: index of the first occurrence of the maximum. *)
Fixpoint argmax_from (best_i : nat) (best : Q) (i : nat) (l : list Q) : nat :=
  match l with
  | [] => best_i
  | x :: l' =>
      if Qgtb x best then argmax_from i x (S i) l'
      else argmax_from best_i best (S i) l'
  end.

Definition argmax (l : list Q) : result nat :=
  match l with
  | [] => Raise (ValueError "attempt to get argmax of an empty sequence")
  | x :: l' => Ok (argmax_from 0 x 1 l')
  end.

(** The loop [for i, prob in enumerate(prediction_array)]. *)
Fixpoint fill_predictions (fmt : format) (i : nat) (l : list Q)
    (acc : gmap string Q) : result (gmap string Q) :=
  match l with
  | [] => Ok acc
  | prob :: l' =>
      class_name ← getitem_idx CLASS_NAMES i;
      fill_predictions fmt (S i) l' (<[class_name := np_times100 fmt prob]> acc)
  end.

Definition confidence_level_of (confidence : Q) : string :=
  if Qgtb confidence 80 then "alta"
  else if Qgtb confidence 60 then "media"
  else "baja".

Definition interpret (fmt : format) (prediction_array : list Q)
  : result single_result :=
  main_class_idx ← argmax prediction_array;
  main_class ← getitem_idx CLASS_NAMES main_class_idx;
  let confidence := np_times100 fmt (nth main_class_idx prediction_array 0%Q) in
  all_predictions ← fill_predictions fmt 0 prediction_array ∅;
  let confidence_level := confidence_level_of confidence in
  damage_label ← getitem CLASS_LABELS main_class;
  description ← getitem CLASS_DESCRIPTIONS main_class;
  mret {| damage := replace "04-" "" (replace "03-" "" (replace "02-" ""
                      (replace "01-" "" main_class)));
          damage_label := damage_label;
          confidence := py_round2 confidence;
          confidence_level := confidence_level;
          description := description;
          all_predictions := all_predictions;
          details := _generate_details main_class confidence |}.

(** ** [DamageAnalyzer._generate_general_conclusion] *)

Record Conclusion : Type := mk_conclusion {
  overall : string;
  conclusion : string;
  recommendation : string;
  damage_breakdown : gmap string nat;
  average_confidence : Q
}.

(** A value stored in the [results] dictionary: the result of one
    angle or, under the key ['conclusion'], the general conclusion. *)
Inductive entry : Type :=
| AngleResult (r : single_result)
| ConclusionEntry (c : Conclusion).

(** An insertion-ordered Python dictionary with string keys. *)
Definition pydict (V : Type) : Type := list (string * V).

Definition keys {V} (d : pydict V) : list string := d.*1.

(** [d[k] = v]: the value of an existing key is replaced in place, a
    new key goes to the end. *)
Fixpoint dict_set {V} (k : string) (v : V) (d : pydict V) : pydict V :=
  match d with
  | [] => [(k, v)]
  | (k', v') :: d' =>
      if String.eqb k k' then (k', v) :: d' else (k', v') :: dict_set k v d'
  end.

(** The three accumulators of the loop over [results.items()]. *)
Record tally : Type := mk_tally {
  damage_counts : gmap string nat;
  total_confidence : Q;
  angle_count : nat
}.

Definition initial_tally : tally :=
  {| damage_counts := {[ "Sin Daño" := 0%nat; "Daño Leve" := 0%nat;
                         "Daño Moderado" := 0%nat; "Daño Severo" := 0%nat ]};
     total_confidence := 0;
     angle_count := 0 |}.

Fixpoint tally_results (items : pydict entry) (t : tally) : result tally :=
  match items with
  | [] => Ok t
  | (angle, res) :: rest =>
      if negb (String.eqb angle "conclusion") then
        match res with
        | AngleResult r =>
            n ← getitem (damage_counts t) (damage_label r);
            tally_results rest
              {| damage_counts := <[damage_label r := S n]> (damage_counts t);
                 total_confidence := py_add (total_confidence t) (confidence r);
                 angle_count := S (angle_count t) |}
        | ConclusionEntry _ => Raise (KeyError "damage_label")
        end
      else tally_results rest t
  end.

Definition low_confidence_note : string :=
  " Nota: La confianza del análisis es baja, se recomienda verificación manual.".

Definition _generate_general_conclusion (results : pydict entry)
  : result Conclusion :=
  t ← tally_results results initial_tally;
  let avg_confidence :=
    if (0 <? angle_count t)%nat
    then py_truediv (total_confidence t) (angle_count t)
    else 0%Q in
  severe ← getitem (damage_counts t) "Daño Severo";
  '(overall, conclusion_text, recommendation) ←
    (if (0 <? severe)%nat then
       mret ("poor",
             "El vehículo presenta daños severos que requieren atención inmediata.",
             "No recomendado para compra sin evaluación profesional exhaustiva.")
     else
       moderate ← getitem (damage_counts t) "Daño Moderado";
       if (1 <? moderate)%nat then
         mret ("acceptable",
               "El vehículo tiene múltiples daños moderados que necesitan reparación.",
               "Evaluar costos de reparación antes de proceder.")
       else
         minor ← getitem (damage_counts t) "Daño Leve";
         if (0 <? minor)%nat then
           mret ("good",
                 "El vehículo se encuentra en buen estado con daños menores cosméticos.",
                 "Adecuado para compra, considerar reparaciones estéticas.")
         else
           mret ("excellent",
                 "El vehículo está en excelente estado sin daños detectados.",
                 "Recomendado para compra, verificar mantenimiento interno."));
  let conclusion_text :=
    if Qltb avg_confidence 70 then conclusion_text +:+ low_confidence_note
    else conclusion_text in
  mret {| overall := overall;
          conclusion := conclusion_text;
          recommendation := recommendation;
          damage_breakdown := damage_counts t;
          average_confidence := py_round2 avg_confidence |}.

(** ** Effects: a trace of the calls that leave the program

    [SaveCall] is a call of [file.save], [RemoveCall] the removal of a
    temporary file by one of the two clean-up loops of the endpoint. *)

Inductive event : Type :=
| PreprocessCall (image_path : string)
| PredictCall
| SaveCall (filepath : string)
| RemoveCall (filepath : string).

(** A computation that may raise and that appends to the trace. *)
Definition M (A : Type) : Type := list event → result A * list event.

#[global] Instance M_ret : MRet M := fun A a s => (Ok a, s).
#[global] Instance M_bind : MBind M := fun A B f m s =>
  match m s with
  | (Ok a, s') => f a s'
  | (Raise e, s') => (Raise e, s')
  end.

Definition raise {A} (e : exn) : M A := fun s => (Raise e, s).
Definition lift {A} (r : result A) : M A := fun s => (r, s).
Definition tell (ev : event) : M unit := fun s => (Ok tt, (s ++ [ev])%list).

(** ** The analyzer *)

Section Analyzer.

(** The image tensor type, the format of the products
    [prediction_array[i] * 100], and the Keras pipeline [load_img],
    [img_to_array], [expand_dims], [preprocess_input] as one fallible
    function of the path. *)
Variable tensor : Type.
Variable fmt : format.
Variable load_image_array : string → result tensor.

(** [self.model] is [None] until a model is loaded; a loaded model
    maps a tensor to [predict(...)[0]]. *)
Record DamageAnalyzer : Type := mk_analyzer {
  model : option (tensor → result (list Q));
  model_loaded : bool
}.

Definition preprocess_image (image_path : string) : M tensor :=
  _ ← tell (PreprocessCall image_path);
  lift (load_image_array image_path).

(** [self.model.predict(processed_img, verbose=0)[0]]: on [None] the
    attribute lookup raises before anything is called. *)
Definition predict (self : DamageAnalyzer) (processed_img : tensor)
  : M (list Q) :=
  match model self with
  | Some net => _ ← tell PredictCall; lift (net processed_img)
  | None => raise (AttributeError "'NoneType' object has no attribute 'predict'")
  end.

Definition analyze_single_image (self : DamageAnalyzer) (image_path : string)
  : M single_result :=
  if negb (model_loaded self) then raise (RuntimeError "Modelo no cargado")
  else
    processed_img ← preprocess_image image_path;
    prediction_array ← predict self processed_img;
    lift (interpret fmt prediction_array).

Definition angle_names : gmap string string :=
  {[ "frontal" := "Vista Frontal";
     "lateral-derecho" := "Lateral Derecho";
     "lateral-izquierdo" := "Lateral Izquierdo";
     "trasero" := "Vista Trasera" ]}.

(** The loop [for angle, image_path in image_paths.items()]. *)
Fixpoint analyze_angles (self : DamageAnalyzer) (items : pydict string)
    (results : pydict entry) : M (pydict entry) :=
  match items with
  | [] => mret results
  | (angle, image_path) :: rest =>
      _ ← lift (getitem angle_names angle);
      r ← analyze_single_image self image_path;
      analyze_angles self rest (dict_set angle (AngleResult r) results)
  end.

Definition analyze_vehicle (self : DamageAnalyzer) (image_paths : pydict string)
  : M (pydict entry) :=
  if negb (model_loaded self) then raise (RuntimeError "Modelo no cargado")
  else
    results ← analyze_angles self image_paths [];
    c ← lift (_generate_general_conclusion results);
    mret (dict_set "conclusion" (ConclusionEntry c) results).

(** ** The endpoint [/api/analyze] of [app.py]

    The view function is called [analyze_vehicle] in [app.py]; it is
    [api_analyze] here, the method of the analyzer having that name.
    Of the JSON answers the status code and the payload are kept; the
    [timestamp] field is the clock reading and is left out. *)

(** An uploaded file: [content_type] is [None] when the part was sent
    without a [Content-Type] header. *)
Record upload : Type := mk_upload {
  filename : string;
  content_type : option string
}.

Inductive response : Type :=
| ServiceUnavailable                      (* 503 *)
| BadRequest (error : string)             (* 400 *)
| ServerError (e : exn)                   (* 500, with [str(e)] in the message *)
| Success (results : gmap string entry).  (* 200 *)

(** [jsonify] writes the dictionary as a JSON object, its keys sorted;
    the object is the finite map from the keys to the values. *)
Definition jsonify (results : pydict entry) : gmap string entry :=
  list_to_map results.

Definition required_angles : list string :=
  ["frontal"; "lateral-derecho"; "lateral-izquierdo"; "trasero"].

(** The validation loop [for angle in required_angles]: [inl] is an
    early [return] with its answer, and [file.content_type.startswith]
    raises when the content type is [None]. *)
Fixpoint collect_images (angles : list string) (files : gmap string upload)
    (image_files : pydict upload) : result (response + pydict upload) :=
  match angles with
  | [] => Ok (inr image_files)
  | angle :: rest =>
      match files !! angle with
      | None => Ok (inl (BadRequest ("Falta imagen: " +:+ angle)))
      | Some file =>
          if String.eqb (filename file) "" then
            Ok (inl (BadRequest ("Archivo vacío: " +:+ angle)))
          else
            match content_type file with
            | None =>
                Raise (AttributeError
                         "'NoneType' object has no attribute 'startswith'")
            | Some mime =>
                if negb (starts_with "image/" mime) then
                  Ok (inl (BadRequest ("Archivo no es imagen: " +:+ angle)))
                else collect_images rest files (dict_set angle file image_files)
            end
      end
  end.

(** The body of the view runs inside [try]; its [except] clause reads
    the local variable [saved_paths] if it is bound.  A computation of
    the view threads that variable ([None]: not bound yet) along with
    the trace, and keeps it when an exception is raised. *)
Definition locals : Type := option (pydict string).

Definition View (A : Type) : Type :=
  locals → list event → result A * locals * list event.

#[global] Instance View_ret : MRet View := fun A a l s => (Ok a, l, s).
#[global] Instance View_bind : MBind View := fun A B f m l s =>
  match m l s with
  | (Ok a, l', s') => f a l' s'
  | (Raise e, l', s') => (Raise e, l', s')
  end.

Definition view_lift {A} (m : M A) : View A := fun l s =>
  let '(r, s') := m s in (r, l, s').

Definition view_raise {A} (e : exn) : View A := fun l s => (Raise e, l, s).

(** [saved_paths = d] and the value of [saved_paths]. *)
Definition bind_saved_paths (d : pydict string) : View unit :=
  fun _ s => (Ok tt, Some d, s).

Definition read_saved_paths : View (pydict string) := fun l s =>
  match l with
  | Some d => (Ok d, l, s)
  | None => (Raise (NameError "saved_paths"), l, s)
  end.

(** [try: body except Exception as e: handler] *)
Definition try_except {A} (body : View A) (handler : exn → View A) : View A :=
  fun l s =>
    match body l s with
    | (Ok a, l', s') => (Ok a, l', s')
    | (Raise e, l', s') => handler e l' s'
    end.

(** [timestamp angle] is the clock reading, formatted by [strftime],
    at the moment the upload of [angle] is saved; [save_error filepath]
    is the exception with which [file.save(filepath)] fails, if it
    fails. *)
Variable timestamp : string → string.
Variable save_error : string → option exn.

Definition UPLOAD_FOLDER : string := "backend/temp_uploads".

(** The loop [for angle, file in image_files.items()]. *)
Fixpoint save_uploads (items : pydict upload) : View unit :=
  match items with
  | [] => mret tt
  | (angle, file) :: rest =>
      let filename := angle +:+ "_" +:+ timestamp angle +:+ ".jpg" in
      let filepath := UPLOAD_FOLDER +:+ "/" +:+ filename in
      _ ← view_lift (tell (SaveCall filepath));
      _ ← match save_error filepath with
          | Some e => view_raise e
          | None => mret tt
          end;
      saved_paths ← read_saved_paths;
      _ ← bind_saved_paths (dict_set angle filepath saved_paths);
      save_uploads rest
  end.

(** Both clean-up loops: a failure to remove a file is swallowed. *)
Fixpoint remove_files (paths : list string) : M unit :=
  match paths with
  | [] => mret tt
  | filepath :: rest => _ ← tell (RemoveCall filepath); remove_files rest
  end.

(** The body of [try] and the [except] clause. *)
Definition view_body (self : DamageAnalyzer) (files : gmap string upload)
  : View response :=
  checked ← view_lift (lift (collect_images required_angles files []));
  match checked with
  | inl resp => mret resp
  | inr image_files =>
      _ ← bind_saved_paths [];
      _ ← save_uploads image_files;
      saved_paths ← read_saved_paths;
      results ← view_lift (analyze_vehicle self saved_paths);
      _ ← view_lift (remove_files saved_paths.*2);
      mret (Success (jsonify results))
  end.

Definition view_except (e : exn) : View response := fun l s =>
  match l with
  | Some saved_paths =>
      let '(_, s') := remove_files saved_paths.*2 s in (Ok (ServerError e), l, s')
  | None => (Ok (ServerError e), l, s)
  end.

Definition api_analyze (analyzer : option DamageAnalyzer)
    (files : gmap string upload) : M response :=
  match analyzer with
  | None => mret ServiceUnavailable
  | Some self => fun s =>
      let '(r, _, s') := try_except (view_body self files) view_except None s in
      (r, s')
  end.

End Analyzer.

Arguments model {tensor} _.
Arguments model_loaded {tensor} _.
Arguments mk_analyzer {tensor} _ _.
Arguments predict {tensor} _ _ _.
Arguments analyze_single_image {tensor} _ _ _ _ _.
Arguments analyze_angles {tensor} _ _ _ _ _ _.
Arguments analyze_vehicle {tensor} _ _ _ _ _.
Arguments view_body {tensor} _ _ _ _ _ _ _ _.
Arguments api_analyze {tensor} _ _ _ _ _ _ _.


(** ** Loading the model: [DamageAnalyzer._load_model] and [__init__] *)

(** What [_load_model] can raise: its own [FileNotFoundError] or
    whatever Keras' [load_model] raises. *)
Inductive load_exn : Type :=
| FileNotFoundError (msg : string)
| LoadFailure (e : exn).

Definition DEFAULT_MODEL_PATH : string :=
  "backend/models/best_mobilenet_4classes_improved.keras".

Section Loading.

Context {tensor : Type}.

(** [os.path.exists] and Keras' [load_model]. *)
Variable path_exists : string → bool.
Variable load_model : string → result (tensor → result (list Q)).

(** The analyzer after the call, and the exception that leaves the
    call if there is one. *)
Definition _load_model (self : DamageAnalyzer tensor) (model_path : option string)
  : DamageAnalyzer tensor * option load_exn :=
  let model_path := default DEFAULT_MODEL_PATH model_path in
  let chosen : load_exn + string :=
    if negb (path_exists model_path) then
      let h5_path := replace ".keras" ".h5" model_path in
      if path_exists h5_path then inr h5_path
      else inl (FileNotFoundError ("Modelo no encontrado: " +:+ model_path))
    else inr model_path in
  match chosen with
  | inr model_path =>
      match load_model model_path with
      | Ok net => (mk_analyzer (Some net) true, None)
      | Raise e => (mk_analyzer (model self) false, Some (LoadFailure e))
      end
  | inl e => (mk_analyzer (model self) false, Some e)
  end.

(** [DamageAnalyzer(model_path)]: the object, or the exception that
    leaves the constructor. *)
Definition __init__ (model_path : option string)
  : load_exn + DamageAnalyzer tensor :=
  let self := mk_analyzer None false in
  match _load_model self model_path with
  | (self, None) => inr self
  | (_, Some e) => inl e
  end.

(** The module-level [try: analyzer = DamageAnalyzer() except: analyzer
    = None] of [app.py]. *)
Definition startup_analyzer : option (DamageAnalyzer tensor) :=
  match __init__ None with
  | inr analyzer => Some analyzer
  | inl _ => None
  end.

End Loading.

(** ** The endpoints [/api/health] and [/api/stats] of [app.py]

    The [timestamp] field of both answers is the clock reading and is
    left out. *)

Record health_report : Type := mk_health_report {
  status : string;
  ia_status : string
}.

Definition health_check {tensor} (analyzer : option (DamageAnalyzer tensor))
  : health_report :=
  let ia_status :=
    match analyzer with
    | Some a => if model_loaded a then "healthy" else "unavailable"
    | None => "unavailable"
    end in
  {| status := "healthy"; ia_status := ia_status |}.

Record stats_report : Type := mk_stats_report {
  stats_status : string;
  service : string;
  version : string;
  stats_model_loaded : bool
}.

Definition get_stats {tensor} (analyzer : option (DamageAnalyzer tensor))
  : stats_report :=
  {| stats_status := "online";
     service := "AutoScan IA";
     version := "1.0.0";
     stats_model_loaded :=
       match analyzer with
       | Some a => model_loaded a
       | None => false
       end |}.


(** * The vocabulary of the statements *)

(** ** Numbers of a format *)

(** The [float32] and the [float] nearest to a decimal, to write the
    arrays and the confidences of the worked examples. *)
Definition float32 (x : Q) : Q := round_binary binary32 x.
Definition float64 (x : Q) : Q := round_binary binary64 x.

(** ** Interpretation *)

(** The record that [interpret] builds, given the index and the tables. *)
Definition built_result (fmt : format) (v : list Q) (i : nat)
    (name lbl desc : string) (preds : gmap string Q) : single_result :=
  let confidence := np_times100 fmt (nth i v 0%Q) in
  {| damage := replace "04-" "" (replace "03-" "" (replace "02-" ""
                 (replace "01-" "" name)));
     damage_label := lbl;
     confidence := py_round2 confidence;
     confidence_level := confidence_level_of confidence;
     description := desc;
     all_predictions := preds;
     details := _generate_details name confidence |}.

(** ** Aggregation *)

(** The description of the loop that the statements below use: the
    entries other than ['conclusion'], how many of them carry a given
    label, and the sum of their confidences. *)
Definition is_angle (kv : string * entry) : bool :=
  negb (String.eqb kv.1 "conclusion").

Definition angle_entries (results : pydict entry) : pydict entry :=
  List.filter is_angle results.

Definition has_label (lbl : string) (kv : string * entry) : bool :=
  match kv.2 with
  | AngleResult r => String.eqb (damage_label r) lbl
  | ConclusionEntry _ => false
  end.

Definition label_count (lbl : string) (results : pydict entry) : nat :=
  length (List.filter (has_label lbl) (angle_entries results)).

Definition damage_labels : list string :=
  ["Sin Daño"; "Daño Leve"; "Daño Moderado"; "Daño Severo"].

Definition is_damage_label (lbl : string) : bool :=
  existsb (String.eqb lbl) damage_labels.

Definition valid_entry (kv : string * entry) : bool :=
  match kv.2 with
  | AngleResult r => is_damage_label (damage_label r)
  | ConclusionEntry _ => false
  end.

(** Every angle entry is a single-image result with one of the four
    labels of [CLASS_LABELS]. *)
Definition per_angle_results (results : pydict entry) : bool :=
  forallb valid_entry (angle_entries results).

Definition entry_confidence (kv : string * entry) : Q :=
  match kv.2 with
  | AngleResult r => confidence r
  | ConclusionEntry _ => 0
  end.

(** The confidences of the angle entries added up as Python adds
    floats: one after the other, each sum rounded. *)
Definition confidence_sum (acc : Q) (results : pydict entry) : Q :=
  fold_left (λ a kv, py_add a (entry_confidence kv)) (angle_entries results) acc.

(** The average confidence as Python computes it: the sum of the
    confidences divided by their number, 0 when there are none. *)
Definition mean_confidence (results : pydict entry) : Q :=
  match length (angle_entries results) with
  | O => 0
  | S n => py_truediv (confidence_sum 0 results) (S n)
  end.

Definition is_angle_result (kv : string * entry) : Prop :=
  ∃ r, kv.2 = AngleResult r.

(** The decision policy in the words of the specification: the tag
    chosen from the three counts, and the fixed texts of each tag. *)
Definition verdict_policy (severe moderate minor : nat) : string :=
  if (0 <? severe)%nat then "poor"
  else if (1 <? moderate)%nat then "acceptable"
  else if (0 <? minor)%nat then "good"
  else "excellent".

Definition verdict_text (tag : string) : string :=
  if String.eqb tag "poor" then
    "El vehículo presenta daños severos que requieren atención inmediata."
  else if String.eqb tag "acceptable" then
    "El vehículo tiene múltiples daños moderados que necesitan reparación."
  else if String.eqb tag "good" then
    "El vehículo se encuentra en buen estado con daños menores cosméticos."
  else "El vehículo está en excelente estado sin daños detectados.".

Definition verdict_recommendation (tag : string) : string :=
  if String.eqb tag "poor" then
    "No recomendado para compra sin evaluación profesional exhaustiva."
  else if String.eqb tag "acceptable" then
    "Evaluar costos de reparación antes de proceder."
  else if String.eqb tag "good" then
    "Adecuado para compra, considerar reparaciones estéticas."
  else "Recomendado para compra, verificar mantenimiento interno.".

(** ** Worked examples *)

(** A per-angle result with a given label and confidence, for the
    worked examples. *)
Definition sample_result (lbl : string) (c : Q) : entry :=
  AngleResult {| damage := ""; damage_label := lbl; confidence := c;
                 confidence_level := confidence_level_of c; description := "";
                 all_predictions := ∅; details := "" |}.

(** Four per-angle results without damage that carry the given
    confidences, in the order of the angles. *)
Definition four_results (c1 c2 c3 c4 : Q) : pydict entry :=
  [("frontal", sample_result "Sin Daño" c1);
   ("lateral-derecho", sample_result "Sin Daño" c2);
   ("lateral-izquierdo", sample_result "Sin Daño" c3);
   ("trasero", sample_result "Sin Daño" c4)].

(** A [float32] array, a loaded analyzer whose network always answers
    it, and an upload that passes validation, for the worked examples. *)
Definition sample_vector : list Q := map float32 [0.7; 0.1; 0.1; 0.1]%Q.

Definition constant_analyzer : DamageAnalyzer string :=
  mk_analyzer (Some (λ _, Ok sample_vector)) true.

Definition jpeg_upload : upload :=
  {| filename := "foto.jpg"; content_type := Some "image/jpeg" |}.

Definition four_uploads : gmap string upload :=
  {[ "frontal" := jpeg_upload; "lateral-derecho" := jpeg_upload;
     "lateral-izquierdo" := jpeg_upload; "trasero" := jpeg_upload ]}.

(** A file system on which every [file.save] succeeds. *)
Definition saves_succeed : string → option exn := λ _, None.

(** ** Vocabulary of the further properties *)

(** What a loaded analyzer with network [net] makes of one image: the
    value of [analyze_single_image] without its trace. *)
Definition classify {tensor} (fmt : format)
    (load_image_array : string → result tensor)
    (net : tensor → result (list Q)) (image_path : string)
  : result single_result :=
  t ← load_image_array image_path;
  v ← net t;
  interpret fmt v.

(** The calls of a complete analysis of the images at [paths]. *)
Fixpoint analysis_calls (paths : list string) : list event :=
  match paths with
  | [] => []
  | image_path :: rest =>
      PreprocessCall image_path :: PredictCall :: analysis_calls rest
  end.


(** What is wrong with the upload of one angle, if anything is: the
    answer that the endpoint gives for it.  An upload without content
    type makes the validation itself fail. *)
Definition upload_defect (files : gmap string upload) (angle : string)
  : option response :=
  match files !! angle with
  | None => Some (BadRequest ("Falta imagen: " +:+ angle))
  | Some file =>
      if String.eqb (filename file) "" then
        Some (BadRequest ("Archivo vacío: " +:+ angle))
      else
        match content_type file with
        | None =>
            Some (ServerError
                    (AttributeError
                       "'NoneType' object has no attribute 'startswith'"))
        | Some mime =>
            if starts_with "image/" mime then None
            else Some (BadRequest ("Archivo no es imagen: " +:+ angle))
        end
  end.

(** The path under which the endpoint saves the upload of [angle]. *)
Definition saved_path (timestamp : string → string) (angle : string) : string :=
  UPLOAD_FOLDER +:+ "/" +:+ (angle +:+ "_" +:+ timestamp angle +:+ ".jpg").

(** Whether [file.save] writes the file at a path. *)
Definition save_succeeds (save_error : string → option exn) (filepath : string)
  : bool :=
  match save_error filepath with
  | None => true
  | Some _ => false
  end.

(** The paths at which the saving loop calls [file.save], given the
    paths of the uploads in order: all of them up to the first one
    that fails, that one included. *)
Fixpoint attempted_saves (save_error : string → option exn) (paths : list string)
  : list string :=
  match paths with
  | [] => []
  | filepath :: rest =>
      filepath ::
      (if save_succeeds save_error filepath then attempted_saves save_error rest
       else [])
  end.

(** The dictionary [saved_paths] when the saving loop over the uploads
    of [angles] ends or is left by an exception: the angles before the
    first failure, with their paths. *)
Fixpoint saved_so_far (timestamp : string → string)
    (save_error : string → option exn) (angles : list string) : pydict string :=
  match angles with
  | [] => []
  | angle :: rest =>
      if save_succeeds save_error (saved_path timestamp angle)
      then (angle, saved_path timestamp angle)
             :: saved_so_far timestamp save_error rest
      else []
  end.

(** The exception of the first [file.save] that fails, if one does. *)
Fixpoint first_save_error (save_error : string → option exn) (paths : list string)
  : option exn :=
  match paths with
  | [] => None
  | filepath :: rest =>
      match save_error filepath with
      | Some e => Some e
      | None => first_save_error save_error rest
      end
  end.

(** The entry of one angle in a successful assessment: stored under
    the key of the image, it is what the analyzer makes of that image. *)
Definition angle_of {tensor} (fmt : format)
    (load_image_array : string → result tensor)
    (net : tensor → result (list Q))
    (kp : string * string) (ke : string * entry) : Prop :=
  ke.1 = kp.1 ∧
  ∃ r, classify fmt load_image_array net kp.2 = Ok r ∧ ke.2 = AngleResult r.

(** The calls that the analysis of one image makes: the network is
    called only when the image could be loaded. *)
Definition image_calls {tensor} (load_image_array : string → result tensor)
    (image_path : string) : list event :=
  match load_image_array image_path with
  | Ok _ => [PreprocessCall image_path; PredictCall]
  | Raise _ => [PreprocessCall image_path]
  end.

(** The model file that start-up settles on: the [.keras] file if it
    exists, otherwise the [.h5] file of the same name, if that exists. *)
Definition found_model_file (path_exists : string → bool) : option string :=
  if path_exists "backend/models/best_mobilenet_4classes_improved.keras"
  then Some "backend/models/best_mobilenet_4classes_improved.keras"
  else if path_exists "backend/models/best_mobilenet_4classes_improved.h5"
  then Some "backend/models/best_mobilenet_4classes_improved.h5"
  else None.

(** [NoDup] of a list of distinct string literals. *)
Ltac distinct_strings :=
  repeat (apply NoDup_cons; split;
          [let H := fresh in
           intros H;
           repeat (apply elem_of_cons in H as [H|H]; [discriminate H|]);
           apply elem_of_nil in H; exact H|]);
  apply NoDup_nil; exact I.

(** Closed facts about numbers, by computation. *)
Ltac by_computation :=
  vm_compute; first [reflexivity | discriminate | intros; discriminate].

(** Membership of a string literal in a list of string literals. *)
Ltac string_in_list :=
  unfold required_angles;
  repeat first [apply list_elem_of_here | apply list_elem_of_further].

(** * Properties *)

(** ** Comparisons *)

(** ** Comparisons *)

Lemma Qltb_lt (a b : Q) : Qltb a b = true ↔ (a < b)%Q.
Proof.
  unfold Qltb. rewrite Qlt_alt.
  destruct (a ?= b)%Q; split; intros H; try reflexivity; discriminate H.
Qed.

Lemma Qltb_ge (a b : Q) : Qltb a b = false ↔ (b <= a)%Q.
Proof.
  rewrite <- not_true_iff_false, Qltb_lt. split.
  - apply Qnot_lt_le.
  - apply Qle_not_lt.
Qed.

Lemma Qgtb_gt (a b : Q) : Qgtb a b = true ↔ (b < a)%Q.
Proof. apply Qltb_lt. Qed.

Lemma Qgtb_le (a b : Q) : Qgtb a b = false ↔ (a <= b)%Q.
Proof. apply Qltb_ge. Qed.

(** ** Rounding to the nearest integer *)

Lemma round_half_even_close (x : Q) :
  (Qabs (inject_Z (round_half_even x) - x) <= 1 # 2)%Q.
Proof.
  unfold round_half_even.
  pose proof (Qfloor_le x) as Hlo.
  pose proof (Qlt_floor x) as Hhi.
  rewrite inject_Z_plus in Hhi. change (inject_Z 1) with 1%Q in Hhi.
  apply Qabs_Qle_condition.
  destruct (x - inject_Z (Qfloor x) ?= 1 # 2)%Q eqn:Hcmp.
  - apply Qeq_alt in Hcmp.
    destruct (Z.even (Qfloor x));
      [|rewrite inject_Z_plus; change (inject_Z 1) with 1%Q]; split; lra.
  - apply Qlt_alt in Hcmp. split; lra.
  - apply Qgt_alt in Hcmp. rewrite inject_Z_plus.
    change (inject_Z 1) with 1%Q. split; lra.
Qed.

(** ** Rounding to a floating-point format *)

Section Rounding.

Local Open Scope Q_scope.

Lemma round_half_even_bounds (x : Q) :
  (Qfloor x <= round_half_even x <= Qfloor x + 1)%Z.
Proof.
  unfold round_half_even. cbv zeta.
  destruct (x - inject_Z (Qfloor x) ?= 1 # 2); [destruct (Z.even _)| |]; lia.
Qed.

Lemma round_half_even_Z (z : Z) : round_half_even (inject_Z z) = z.
Proof.
  unfold round_half_even. cbv zeta. rewrite Qfloor_Z.
  assert (H : (inject_Z z - inject_Z z ?= 1 # 2) = Lt).
  { change (inject_Z z - inject_Z z < 1 # 2). lra. }
  rewrite H. reflexivity.
Qed.

Lemma round_half_even_mono (x y : Q) :
  x <= y -> (round_half_even x <= round_half_even y)%Z.
Proof.
  intros Hxy. pose proof (Qfloor_resp_le x y Hxy) as Hf.
  pose proof (round_half_even_bounds x) as Bx.
  pose proof (round_half_even_bounds y) as By.
  destruct (Z.eq_dec (Qfloor x) (Qfloor y)) as [E|Hne]; [|lia].
  unfold round_half_even. cbv zeta. rewrite <- E.
  destruct (Qcompare_spec (x - inject_Z (Qfloor x)) (1 # 2)) as [Cx|Cx|Cx];
    destruct (Qcompare_spec (y - inject_Z (Qfloor x)) (1 # 2)) as [Cy|Cy|Cy];
    try (destruct (Z.even (Qfloor x))); try lia; exfalso; lra.
Qed.

Lemma round_half_even_comp (x y : Q) :
  x == y -> round_half_even x = round_half_even y.
Proof.
  intros E. unfold round_half_even. cbv zeta. rewrite (Qfloor_comp _ _ E).
  assert (C : (x - inject_Z (Qfloor y) ?= 1 # 2) = (y - inject_Z (Qfloor y) ?= 1 # 2)).
  { apply Qcompare_comp; [|reflexivity]. rewrite E. reflexivity. }
  rewrite C. reflexivity.
Qed.

Lemma Qabs_nonneg_eq (x : Q) : 0 <= x -> Qabs x = x.
Proof.
  destruct x as [n d]. unfold Qle, Qabs. cbn. intros H.
  rewrite Z.abs_eq by lia. reflexivity.
Qed.

Lemma two_pos (e : Z) : 0 < 2 ^ e.
Proof. apply Qpower_0_lt. reflexivity. Qed.

Lemma two_power_Z (a : Z) : (0 <= a)%Z -> inject_Z (2 ^ a) == 2 ^ a.
Proof. intros H. rewrite Zpower_Qpower by exact H. reflexivity. Qed.

Lemma two_power_succ (e : Z) : 2 ^ (e + 1) == 2 * 2 ^ e.
Proof. rewrite Qpower_plus by discriminate. change (2 ^ 1) with 2. ring. Qed.

(** [Qfloor_log2 x] is the binary exponent of a positive [x]. *)
Lemma Qfloor_log2_spec (x : Q) :
  0 < x -> 2 ^ Qfloor_log2 x <= x /\ x < 2 ^ (Qfloor_log2 x + 1).
Proof.
  intros Hx. destruct x as [n d]. unfold Qfloor_log2. cbn [Qnum Qden].
  assert (Hn : (0 < n)%Z).
  { unfold Qlt in Hx. cbn in Hx. lia. }
  set (ln := Z.log2 n). set (ld := Z.log2 (Z.pos d)).
  pose proof (Z.log2_spec n Hn) as [Hn1 Hn2]. fold ln in Hn1, Hn2.
  pose proof (Z.log2_spec (Z.pos d) ltac:(lia)) as [Hd1 Hd2]. fold ld in Hd1, Hd2.
  pose proof (Z.log2_nonneg n) as Hln. fold ln in Hln.
  pose proof (Z.log2_nonneg (Z.pos d)) as Hld. fold ld in Hld.
  assert (En : n # d == inject_Z n / inject_Z (Z.pos d)) by apply Qmake_Qdiv.
  assert (Hdpos : 0 < inject_Z (Z.pos d)) by (unfold Qlt; cbn; lia).
  (* the integer bounds, in Q *)
  rewrite Zle_Qle in Hn1, Hd1. rewrite Zlt_Qlt in Hn2, Hd2.
  rewrite two_power_Z in Hn1, Hd1 by lia.
  rewrite two_power_Z in Hn2, Hd2 by lia.
  replace (Z.succ ln) with (ln + 1)%Z in Hn2 by lia.
  replace (Z.succ ld) with (ld + 1)%Z in Hd2 by lia.
  rewrite two_power_succ in Hn2, Hd2.
  pose proof (two_pos ld) as Pld. pose proof (two_pos ln) as Pln.
  pose proof (two_pos (ln - ld)) as Pk.
  assert (Ek : 2 ^ ln == 2 ^ (ln - ld) * 2 ^ ld).
  { rewrite <- Qpower_plus by discriminate. replace (ln - ld + ld)%Z with ln by lia.
    reflexivity. }
  assert (Hxd : (n # d) * inject_Z (Z.pos d) == inject_Z n).
  { rewrite En. field. intros H. rewrite H in Hdpos. discriminate Hdpos. }
  set (x := n # d) in *. set (D := inject_Z (Z.pos d)) in *.
  set (N := inject_Z n) in *. set (K := 2 ^ (ln - ld)) in *.
  set (A := 2 ^ ld) in *. set (B := 2 ^ ln) in *.
  assert (Hup : x < 2 * K).
  { apply Qnot_le_lt. intros H.
    assert (2 * K * D <= x * D) by (apply Qmult_le_compat_r; lra).
    assert (K * A <= K * D) by (apply Qmult_le_l; lra).
    lra. }
  assert (Hlow : K < 2 * x).
  { apply Qnot_le_lt. intros H.
    assert (2 * x * D <= K * D) by (apply Qmult_le_compat_r; lra).
    assert (K * D < K * (2 * A)) by (apply Qmult_lt_l; lra).
    lra. }
  destruct (Qle_bool K x) eqn:Htest.
  - apply Qle_bool_iff in Htest. split; [exact Htest|].
    rewrite two_power_succ. exact Hup.
  - assert (Hlt : x < K).
    { apply Qnot_le_lt. intros H. apply Qle_bool_iff in H. congruence. }
    replace (ln - ld - 1 + 1)%Z with (ln - ld)%Z by lia.
    split; [|exact Hlt].
    assert (E : K == 2 * 2 ^ (ln - ld - 1)).
    { unfold K. rewrite <- two_power_succ.
      replace (ln - ld - 1 + 1)%Z with (ln - ld)%Z by lia. reflexivity. }
    pose proof (two_pos (ln - ld - 1)). lra.
Qed.



Lemma prec_pos (fmt : format) : (1 <= prec fmt)%Z.
Proof. destruct fmt; cbn; lia. Qed.

Lemma emin_nonpos (fmt : format) : (emin fmt <= 0)%Z.
Proof. destruct fmt; cbn; lia. Qed.

Lemma Qfloor_log2_unique (x : Q) (k : Z) :
  2 ^ k <= x -> x < 2 ^ (k + 1) -> Qfloor_log2 x = k.
Proof.
  intros H1 H2.
  assert (Hx : 0 < x) by (pose proof (two_pos k); lra).
  destruct (Qfloor_log2_spec x Hx) as [F1 F2].
  assert (A : 2 ^ Qfloor_log2 x < 2 ^ (k + 1)) by lra.
  assert (B : 2 ^ k < 2 ^ (Qfloor_log2 x + 1)) by lra.
  apply Qpower_lt_compat_l_inv in A; [|reflexivity].
  apply Qpower_lt_compat_l_inv in B; [|reflexivity].
  lia.
Qed.

Lemma Qfloor_log2_comp (x y : Q) :
  0 < x -> x == y -> Qfloor_log2 x = Qfloor_log2 y.
Proof.
  intros Hx E. assert (Hy : 0 < y) by lra.
  destruct (Qfloor_log2_spec y Hy) as [F1 F2].
  apply Qfloor_log2_unique; lra.
Qed.

Lemma Qfloor_log2_mono (x y : Q) :
  0 < x -> x <= y -> (Qfloor_log2 x <= Qfloor_log2 y)%Z.
Proof.
  intros Hx Hxy. assert (Hy : 0 < y) by lra.
  destruct (Qfloor_log2_spec x Hx) as [X1 X2].
  destruct (Qfloor_log2_spec y Hy) as [Y1 Y2].
  assert (H : 2 ^ Qfloor_log2 x < 2 ^ (Qfloor_log2 y + 1)) by lra.
  apply Qpower_lt_compat_l_inv in H; [lia | reflexivity].
Qed.

Lemma round_binary_value (fmt : format) (x : Q) :
  round_binary fmt x ==
  inject_Z (round_half_even (x / 2 ^ exponent fmt x)) * 2 ^ exponent fmt x.
Proof. unfold round_binary. cbv zeta. apply Qred_correct. Qed.

Lemma Qred_inject_Z (z : Z) : Qred (inject_Z z) = inject_Z z.
Proof.
  assert (H : Qred (inject_Z z) == inject_Z z) by apply Qred_correct.
  pose proof (gcd_Qred (inject_Z z)) as G.
  destruct (Qred (inject_Z z)) as [n d] eqn:E.
  unfold Qeq, inject_Z in *. cbn [Qnum Qden] in *.
  assert (Hd : Z.pos d = 1%Z).
  { assert (D : Z.divide (Z.pos d) n).
    { exists z. lia. }
    assert (D' : Z.divide (Z.pos d) (Z.gcd n (Z.pos d))).
    { apply Z.gcd_greatest; [exact D | apply Z.divide_refl]. }
    rewrite G in D'. apply Z.divide_1_r_nonneg in D'; lia. }
  injection Hd as ->. f_equal. lia.
Qed.

Lemma round_binary_exact (fmt : format) (x : Q) (z : Z) :
  inject_Z (round_half_even (x / 2 ^ exponent fmt x)) * 2 ^ exponent fmt x
    == inject_Z z ->
  round_binary fmt x = inject_Z z.
Proof.
  intros H. unfold round_binary. cbv zeta.
  rewrite (Qred_complete _ _ H). apply Qred_inject_Z.
Qed.

Lemma Qdiv_zero (x c : Q) : x == 0 -> x / c == inject_Z 0.
Proof.
  intros H. change (inject_Z 0) with 0. unfold Qdiv.
  apply Qeq_trans with (0 * / c); [|ring].
  apply Qmult_comp; [exact H | reflexivity].
Qed.

Lemma round_binary_zero (fmt : format) (x : Q) : x == 0 -> round_binary fmt x = 0.
Proof.
  intros H. apply (round_binary_exact fmt x 0).
  rewrite (round_half_even_comp _ _ (Qdiv_zero x _ H)), round_half_even_Z.
  change (inject_Z 0) with 0. ring.
Qed.

Lemma Qabs_pos_of_nonzero (x : Q) : ~ x == 0 -> 0 < Qabs x.
Proof.
  intros H. destruct (Qlt_le_dec 0 (Qabs x)) as [Hlt|Hle]; [exact Hlt|].
  exfalso. apply H. apply Qabs_Qle_condition in Hle as [H1 H2]. lra.
Qed.

Lemma exponent_comp (fmt : format) (x y : Q) :
  ~ x == 0 -> x == y -> exponent fmt x = exponent fmt y.
Proof.
  intros Hx E. unfold exponent.
  rewrite (Qfloor_log2_comp (Qabs x) (Qabs y)); [reflexivity | |].
  - apply Qabs_pos_of_nonzero, Hx.
  - rewrite E. reflexivity.
Qed.

(** Rounding does not depend on how the rational is written. *)
Lemma round_binary_comp (fmt : format) (x y : Q) :
  x == y -> round_binary fmt x = round_binary fmt y.
Proof.
  intros E. destruct (Qeq_dec x 0) as [Hz|Hnz].
  - rewrite (round_binary_zero fmt x Hz), (round_binary_zero fmt y); [reflexivity|].
    rewrite <- E. exact Hz.
  - unfold round_binary. cbv zeta. rewrite (exponent_comp fmt x y Hnz E).
    apply Qred_complete.
    assert (D : x / 2 ^ exponent fmt y == y / 2 ^ exponent fmt y)
      by (rewrite E; reflexivity).
    rewrite (round_half_even_comp _ _ D). reflexivity.
Qed.

Lemma Qdiv_pos_le (a b c : Q) : 0 < c -> a <= b -> a / c <= b / c.
Proof.
  intros Hc Hab. unfold Qdiv. apply Qmult_le_compat_r; [exact Hab|].
  apply Qlt_le_weak, Qinv_lt_0_compat, Hc.
Qed.

Lemma round_binary_nonneg (fmt : format) (x : Q) : 0 <= x -> 0 <= round_binary fmt x.
Proof.
  intros Hx. rewrite round_binary_value.
  set (e := exponent fmt x).
  pose proof (two_pos e) as He.
  assert (H : (0 <= round_half_even (x / 2 ^ e))%Z).
  { rewrite <- (round_half_even_Z 0). apply round_half_even_mono.
    change (inject_Z 0) with 0. apply Qle_shift_div_l; [exact He | lra]. }
  rewrite Zle_Qle in H. change (inject_Z 0) with 0 in H.
  apply Qmult_le_0_compat; lra.
Qed.

(** Rounding is monotone on the non-negative numbers. *)
Lemma round_binary_mono (fmt : format) (x y : Q) :
  0 <= x -> x <= y -> round_binary fmt x <= round_binary fmt y.
Proof.
  intros Hx Hxy. pose proof (prec_pos fmt) as Hp.
  destruct (Qle_lt_or_eq _ _ Hx) as [Hpos|Hzero].
  2:{ rewrite (round_binary_zero fmt x) by (symmetry; exact Hzero).
      apply round_binary_nonneg. lra. }
  assert (Hypos : 0 < y) by lra.
  rewrite !round_binary_value. unfold exponent.
  rewrite (Qabs_nonneg_eq x), (Qabs_nonneg_eq y) by lra.
  destruct (Qfloor_log2_spec x Hpos) as [X1 X2].
  destruct (Qfloor_log2_spec y Hypos) as [Y1 Y2].
  pose proof (Qfloor_log2_mono x y Hpos Hxy) as Hf.
  set (fx := Qfloor_log2 x) in *. set (fy := Qfloor_log2 y) in *.
  set (ex := Z.max (fx - (prec fmt - 1)) (emin fmt)).
  set (ey := Z.max (fy - (prec fmt - 1)) (emin fmt)).
  pose proof (two_pos ex) as Pex. pose proof (two_pos ey) as Pey.
  destruct (Z.eq_dec ex ey) as [Ee|Hne].
  - rewrite Ee. apply Qmult_le_compat_r; [|lra].
    rewrite <- Zle_Qle. apply round_half_even_mono.
    apply Qdiv_pos_le; assumption.
  - assert (Hlt : (ex < ey)%Z) by (unfold ex, ey in *; lia).
    assert (Hey : ey = (fy - (prec fmt - 1))%Z) by (unfold ex, ey in *; lia).
    (* the mantissa of x is at most 2^prec, that of y at least 2^(prec-1) *)
    assert (Mx : (round_half_even (x / 2 ^ ex) <= 2 ^ prec fmt)%Z).
    { rewrite <- (round_half_even_Z (2 ^ prec fmt)). apply round_half_even_mono.
      rewrite two_power_Z by lia. apply Qle_shift_div_r; [exact Pex|].
      rewrite <- Qpower_plus by discriminate.
      apply Qle_trans with (2 ^ (fx + 1)); [lra|].
      apply Qpower_le_compat_l; [unfold ex; lia | discriminate]. }
    assert (My : (2 ^ (prec fmt - 1) <= round_half_even (y / 2 ^ ey))%Z).
    { rewrite <- (round_half_even_Z (2 ^ (prec fmt - 1))) at 1.
      apply round_half_even_mono.
      rewrite two_power_Z by lia. apply Qle_shift_div_l; [exact Pey|].
      rewrite <- Qpower_plus by discriminate.
      replace (prec fmt - 1 + ey)%Z with fy by lia. exact Y1. }
    rewrite Zle_Qle in Mx, My. rewrite two_power_Z in Mx, My by lia.
    apply Qle_trans with (2 ^ prec fmt * 2 ^ ex).
    { apply Qmult_le_compat_r; lra. }
    apply Qle_trans with (2 ^ (prec fmt - 1) * 2 ^ ey).
    2:{ apply Qmult_le_compat_r; lra. }
    rewrite <- !Qpower_plus by discriminate.
    apply Qpower_le_compat_l; [lia | discriminate].
Qed.

(** A natural number below [2 ^ prec] is a number of the format. *)
Lemma round_binary_Z (fmt : format) (z : Z) :
  (0 <= z < 2 ^ prec fmt)%Z ->
  round_binary fmt (inject_Z z) = inject_Z z.
Proof.
  intros [Hz0 Hz]. pose proof (prec_pos fmt) as Hp.
  pose proof (emin_nonpos fmt) as Hm.
  destruct (Z.eq_dec z 0%Z) as [->|Hnz].
  { apply round_binary_zero. reflexivity. }
  apply round_binary_exact.
  assert (Hpos : 0 < inject_Z z).
  { change 0 with (inject_Z 0). rewrite <- Zlt_Qlt. lia. }
  unfold exponent. rewrite Qabs_nonneg_eq by lra.
  destruct (Qfloor_log2_spec _ Hpos) as [F1 F2].
  set (f := Qfloor_log2 (inject_Z z)) in *.
  assert (Hf : (f < prec fmt)%Z).
  { assert (H : 2 ^ f < 2 ^ prec fmt).
    { apply Qle_lt_trans with (inject_Z z); [exact F1|].
      rewrite <- two_power_Z by lia. rewrite <- Zlt_Qlt. exact Hz. }
    apply Qpower_lt_compat_l_inv in H; [exact H | reflexivity]. }
  set (e := Z.max (f - (prec fmt - 1)) (emin fmt)).
  assert (He : (e <= 0)%Z) by (unfold e; lia).
  pose proof (two_pos e) as Pe.
  assert (Einv : 2 ^ (- e) * 2 ^ e == 1).
  { rewrite <- Qpower_plus by discriminate.
    replace (- e + e)%Z with 0%Z by lia. reflexivity. }
  assert (Ediv : inject_Z z / 2 ^ e == inject_Z (z * 2 ^ (- e))).
  { rewrite inject_Z_mult, two_power_Z by lia.
    rewrite Qpower_opp. reflexivity. }
  rewrite (round_half_even_comp _ _ Ediv), round_half_even_Z.
  rewrite inject_Z_mult, two_power_Z by lia.
  rewrite <- Qmult_assoc, Einv. ring.
Qed.

(** Rounding keeps a non-negative number between the integers of the
    format that enclose it. *)
Lemma round_binary_between (fmt : format) (x : Q) (lo hi : Z) :
  (0 <= lo)%Z -> (hi < 2 ^ prec fmt)%Z ->
  inject_Z lo <= x -> x <= inject_Z hi ->
  inject_Z lo <= round_binary fmt x /\ round_binary fmt x <= inject_Z hi.
Proof.
  intros Hlo Hhi H1 H2.
  assert (L0 : 0 <= inject_Z lo).
  { change 0 with (inject_Z 0). rewrite <- Zle_Qle. exact Hlo. }
  assert (Hlh : (lo <= hi)%Z) by (rewrite Zle_Qle; lra).
  split.
  - rewrite <- (round_binary_Z fmt lo) by lia.
    apply round_binary_mono; assumption.
  - rewrite <- (round_binary_Z fmt hi) by lia.
    apply round_binary_mono; lra.
Qed.

(** [round(x, 2)] keeps a float between the integers that enclose it. *)
Lemma py_round2_between (x : Q) (lo hi : Z) :
  (0 <= lo)%Z -> (hi < 2 ^ 53)%Z ->
  inject_Z lo <= x -> x <= inject_Z hi ->
  inject_Z lo <= py_round2 x /\ py_round2 x <= inject_Z hi.
Proof.
  intros Hlo Hhi H1 H2. unfold py_round2.
  assert (A : (lo * 100 <= round_half_even (x * 100))%Z).
  { rewrite <- (round_half_even_Z (lo * 100)). apply round_half_even_mono.
    rewrite inject_Z_mult. change (inject_Z 100) with 100. lra. }
  assert (B : (round_half_even (x * 100) <= hi * 100)%Z).
  { rewrite <- (round_half_even_Z (hi * 100)). apply round_half_even_mono.
    rewrite inject_Z_mult. change (inject_Z 100) with 100. lra. }
  apply round_binary_between; [exact Hlo | exact Hhi | |];
    unfold Qle; cbn; lia.
Qed.

(** [round(x, 2)] is the float nearest to a decimal with two places
    that is nearest to [x]. *)
Lemma py_round2_hundredths (x : Q) :
  exists z : Z, py_round2 x = round_binary binary64 (z # 100) /\
                Qabs ((z # 100) - x) <= 1 # 200.
Proof.
  exists (round_half_even (x * 100)). split; [reflexivity|].
  pose proof (round_half_even_close (x * 100)) as H.
  apply Qabs_Qle_condition in H as [H1 H2]. apply Qabs_Qle_condition.
  assert (E : round_half_even (x * 100) # 100
              == inject_Z (round_half_even (x * 100)) * (1 # 100)).
  { rewrite Qmake_Qdiv. reflexivity. }
  rewrite E. split; lra.
Qed.

Lemma np_times100_comp (fmt : format) (p q : Q) :
  p == q -> np_times100 fmt p = np_times100 fmt q.
Proof.
  intros E. apply round_binary_comp. rewrite E. reflexivity.
Qed.

(** A product by 100 stays between the integers that enclose it. *)
Lemma np_times100_between (fmt : format) (p : Q) (lo hi : Z) :
  (0 <= lo)%Z -> (hi < 2 ^ 24)%Z ->
  inject_Z lo <= p * 100 -> p * 100 <= inject_Z hi ->
  inject_Z lo <= np_times100 fmt p /\ np_times100 fmt p <= inject_Z hi.
Proof.
  intros Hlo Hhi H1 H2. apply round_binary_between; try assumption.
  destruct fmt; cbn [prec]; lia.
Qed.

End Rounding.

(** ** [np.argmax] returns the first index of a maximal entry *)

Lemma argmax_from_spec (l pre : list Q) (bi : nat) (b : Q) :
  (bi < length pre)%nat →
  nth bi pre 0%Q = b →
  (∀ j, (j < length pre)%nat → (nth j pre 0 <= b)%Q) →
  (∀ j, (j < bi)%nat → (nth j pre 0 < b)%Q) →
  let v := (pre ++ l)%list in
  let i := argmax_from bi b (length pre) l in
  (i < length v)%nat ∧
  (∀ j, (j < length v)%nat → (nth j v 0 <= nth i v 0)%Q) ∧
  (∀ j, (j < i)%nat → (nth j v 0 < nth i v 0)%Q).
Proof.
  revert pre bi b. induction l as [|x l IH]; intros pre bi b Hbi Hb Hmax Hfirst.
  - cbn zeta. rewrite app_nil_r. cbn [argmax_from]. rewrite Hb. auto.
  - cbn zeta. cbn [argmax_from].
    assert (Hlen : length (pre ++ [x]) = S (length pre))
      by (rewrite length_app; cbn; lia).
    replace (pre ++ x :: l)%list with ((pre ++ [x]) ++ l)%list
      by (rewrite <- app_assoc; reflexivity).
    destruct (Qgtb x b) eqn:Hx.
    + apply Qgtb_gt in Hx. rewrite <- Hlen. apply IH.
      * lia.
      * rewrite app_nth2 by lia. rewrite Nat.sub_diag. reflexivity.
      * intros j Hj. rewrite Hlen in Hj.
        destruct (decide (j = length pre)) as [->|Hne].
        -- rewrite app_nth2 by lia. rewrite Nat.sub_diag. apply Qle_refl.
        -- rewrite app_nth1 by lia. apply Qlt_le_weak.
           apply Qle_lt_trans with b; [apply Hmax; lia | exact Hx].
      * intros j Hj. rewrite app_nth1 by lia.
        apply Qle_lt_trans with b; [apply Hmax; lia | exact Hx].
    + apply Qgtb_le in Hx. rewrite <- Hlen. apply IH.
      * lia.
      * rewrite app_nth1 by lia. exact Hb.
      * intros j Hj. rewrite Hlen in Hj.
        destruct (decide (j = length pre)) as [->|Hne].
        -- rewrite app_nth2 by lia. rewrite Nat.sub_diag. exact Hx.
        -- rewrite app_nth1 by lia. apply Hmax. lia.
      * intros j Hj. rewrite app_nth1 by lia. apply Hfirst. exact Hj.
Qed.

Lemma argmax_spec (v : list Q) :
  v ≠ [] →
  ∃ i, argmax v = Ok i ∧ (i < length v)%nat ∧
    (∀ j, (j < length v)%nat → (nth j v 0 <= nth i v 0)%Q) ∧
    (∀ j, (j < i)%nat → (nth j v 0 < nth i v 0)%Q).
Proof.
  destruct v as [|x l]; [congruence|]. intros _.
  exists (argmax_from 0 x 1 l). split; [reflexivity|].
  apply (argmax_from_spec l [x] 0%nat x).
  - cbn. lia.
  - reflexivity.
  - intros j Hj. cbn in Hj. assert (j = 0%nat) as -> by lia. apply Qle_refl.
  - intros j Hj. lia.
Qed.

(** ** Interpretation of a four-entry vector always succeeds *)

Lemma class_names_lookup (i : nat) :
  (i < 4)%nat →
  ∃ name lbl desc,
    CLASS_NAMES !! i = Some name ∧
    CLASS_LABELS !! name = Some lbl ∧
    CLASS_DESCRIPTIONS !! name = Some desc.
Proof.
  intros Hi.
  destruct i as [|[|[|[|i]]]]; [| | | |lia]; do 3 eexists; repeat split; reflexivity.
Qed.

Lemma fill_predictions_four (fmt : format) (a b c d : Q) :
  fill_predictions fmt 0 [a; b; c; d] ∅ =
  Ok (<["04-no-damage" := np_times100 fmt d]>
       (<["03-severe" := np_times100 fmt c]>
         (<["02-moderate" := np_times100 fmt b]>
           (<["01-minor" := np_times100 fmt a]> ∅)))).
Proof. reflexivity. Qed.

Lemma fill_predictions_lookup (fmt : format) (v : list Q) (i : nat) (name : string) :
  length v = 4%nat → (i < 4)%nat → CLASS_NAMES !! i = Some name →
  ∃ preds, fill_predictions fmt 0 v ∅ = Ok preds ∧
    preds !! name = Some (np_times100 fmt (nth i v 0%Q)).
Proof.
  intros Hlen Hi Hname.
  destruct v as [|a [|b [|c [|d [|e v]]]]]; try discriminate Hlen.
  eexists. split; [apply fill_predictions_four|].
  destruct i as [|[|[|[|i]]]]; [| | | |lia];
    vm_compute in Hname; injection Hname as <-; cbn [nth];
    repeat (rewrite lookup_insert_ne by discriminate);
    apply lookup_insert_eq.
Qed.

Lemma interpret_ok (fmt : format) (v : list Q) :
  length v = 4%nat →
  ∃ i name lbl desc preds,
    argmax v = Ok i ∧ (i < 4)%nat ∧
    (∀ j, (j < 4)%nat → (nth j v 0 <= nth i v 0)%Q) ∧
    (∀ j, (j < i)%nat → (nth j v 0 < nth i v 0)%Q) ∧
    CLASS_NAMES !! i = Some name ∧
    CLASS_LABELS !! name = Some lbl ∧
    CLASS_DESCRIPTIONS !! name = Some desc ∧
    preds !! name = Some (np_times100 fmt (nth i v 0%Q)) ∧
    interpret fmt v = Ok (built_result fmt v i name lbl desc preds).
Proof.
  intros Hlen.
  destruct (argmax_spec v) as (i & Harg & Hi & Hmax & Hfirst).
  { intros ->. discriminate Hlen. }
  rewrite Hlen in Hi, Hmax.
  destruct (class_names_lookup i Hi) as (name & lbl & desc & Hn & Hl & Hd).
  destruct (fill_predictions_lookup fmt v i name Hlen Hi Hn) as (preds & Hfill & Hp).
  exists i, name, lbl, desc, preds. repeat (split; [assumption|]).
  unfold interpret. rewrite Harg. cbn [mbind result_bind].
  unfold getitem_idx, getitem. rewrite Hn. cbn [mbind result_bind].
  rewrite Hfill. cbn [mbind result_bind]. rewrite Hl.
  cbn [mbind result_bind]. rewrite Hd. reflexivity.
Qed.

(** ** The confidence tier *)

Lemma confidence_level_of_spec (c : Q) :
  ((80 < c)%Q → confidence_level_of c = "alta") ∧
  ((60 < c)%Q → (c <= 80)%Q → confidence_level_of c = "media") ∧
  ((c <= 60)%Q → confidence_level_of c = "baja").
Proof.
  unfold confidence_level_of. repeat split.
  - intros H. apply Qgtb_gt in H. rewrite H. reflexivity.
  - intros H1 H2. apply Qgtb_gt in H1. apply Qgtb_le in H2.
    rewrite H2, H1. reflexivity.
  - intros H. assert (H' : (c <= 80)%Q).
    { apply Qle_trans with 60%Q; [exact H | discriminate]. }
    apply Qgtb_le in H, H'. rewrite H', H. reflexivity.
Qed.

(** Any maximal entry of the vector equals, as a number, the entry at
    the index chosen by [argmax]. *)
Lemma winning_entry_unique (v : list Q) (i : nat) (p : Q) :
  (i < length v)%nat →
  (∀ j, (j < length v)%nat → (nth j v 0 <= nth i v 0)%Q) →
  In p v → (∀ q, In q v → (q <= p)%Q) →
  (nth i v 0 == p)%Q.
Proof.
  intros Hi Hmax Hin Hp. apply Qle_antisym.
  - apply Hp. apply nth_In. exact Hi.
  - destruct (In_nth v p 0%Q Hin) as (j & Hj & <-). apply Hmax. exact Hj.
Qed.

(** The winning confidence of a four-entry vector: the product, in the
    format [fmt], of any maximal entry with 100. *)
Lemma winning_confidence (fmt : format) (v : list Q) (p : Q) :
  length v = 4%nat →
  In p v → (∀ q, In q v → (q <= p)%Q) →
  ∃ i name lbl desc preds,
    interpret fmt v = Ok (built_result fmt v i name lbl desc preds) ∧
    argmax v = Ok i ∧ (i < 4)%nat ∧ CLASS_NAMES !! i = Some name ∧
    np_times100 fmt (nth i v 0%Q) = np_times100 fmt p.
Proof.
  intros Hlen Hin Hp.
  destruct (interpret_ok fmt v Hlen)
    as (i & name & lbl & desc & preds & Harg & Hi & Hmax & _ & Hn & _ & _ & _ & Hr).
  rewrite <- Hlen in Hmax.
  exists i, name, lbl, desc, preds. repeat (split; [assumption|]).
  apply np_times100_comp.
  apply (winning_entry_unique v i p); [lia | exact Hmax | exact Hin | exact Hp].
Qed.

(** C2. For every four-entry vector, the confidence level reported by
    the interpretation is determined by the winning confidence [c]
    alone, the product that the program computes from the largest
    probability and 100 and of which it reports [round(c, 2)]:
    [c > 80] gives "alta" (high), [60 < c <= 80] gives "media" (medium)
    and [c <= 60] gives "baja" (low); at exactly 80 the level is
    "media" and at exactly 60 it is "baja". *)
Theorem confidence_tier_by_winning_confidence (fmt : format) (v : list Q) (p : Q) :
  length v = 4%nat →
  In p v → (∀ q, In q v → (q <= p)%Q) →
  ∃ r, interpret fmt v = Ok r ∧
    confidence r = py_round2 (np_times100 fmt p) ∧
    ((80 < np_times100 fmt p)%Q → confidence_level r = "alta") ∧
    ((60 < np_times100 fmt p)%Q → (np_times100 fmt p <= 80)%Q →
       confidence_level r = "media") ∧
    ((np_times100 fmt p <= 60)%Q → confidence_level r = "baja") ∧
    ((np_times100 fmt p == 80)%Q → confidence_level r = "media") ∧
    ((np_times100 fmt p == 60)%Q → confidence_level r = "baja").
Proof.
  intros Hlen Hin Hp.
  destruct (winning_confidence fmt v p Hlen Hin Hp)
    as (i & name & lbl & desc & preds & Hr & _ & _ & _ & Hc).
  exists (built_result fmt v i name lbl desc preds). split; [exact Hr|].
  cbn [built_result confidence confidence_level]. rewrite Hc.
  split; [reflexivity|].
  destruct (confidence_level_of_spec (np_times100 fmt p)) as (Hhi & Hmid & Hlo).
  refine (conj Hhi (conj Hmid (conj Hlo (conj _ _)))).
  - intros E. apply Hmid.
    + apply Qlt_le_trans with 80%Q; [reflexivity|].
      apply Qle_lteq. right. symmetry. exact E.
    + apply Qle_lteq. right. exact E.
  - intros E. apply Hlo. apply Qle_lteq. right. exact E.
Qed.

Lemma confidence_tier_by_winning_confidence_witness :
  ∃ r, interpret binary32 [float32 0.8; float32 0.2; 0; 0]%Q = Ok r ∧
       confidence_level r = "media".
Proof.
  destruct (confidence_tier_by_winning_confidence binary32
              [float32 0.8; float32 0.2; 0; 0]%Q (float32 0.8))
    as (r & Hr & _ & _ & _ & _ & H80 & _).
  - reflexivity.
  - left. reflexivity.
  - intros q [<-|[<-|[<-|[<-|[]]]]]; by_computation.
  - exists r. split; [exact Hr | apply H80; by_computation].
Defined.

(** The boundary vectors listed with the testable properties, as
    [float32] arrays and as [float64] arrays.  The [float32] nearest to
    0.8 is a little above 0.8, and yet its product with 100 is the
    [float32] 80; the [float32] product of 0.6 and 100 is above 60. *)
Example tier_081 :
  confidence_level <$> (interpret binary32 (map float32 [0.81; 0; 0; 0.19]%Q))
  = Ok "alta" ∧
  confidence_level <$> (interpret binary64 (map float64 [0.81; 0; 0; 0.19]%Q))
  = Ok "alta".
Proof. split; vm_compute; reflexivity. Qed.

Example tier_080 :
  confidence_level <$> (interpret binary32 (map float32 [0.80; 0; 0; 0.20]%Q))
  = Ok "media" ∧
  confidence_level <$> (interpret binary64 (map float64 [0.80; 0; 0; 0.20]%Q))
  = Ok "media".
Proof. split; vm_compute; reflexivity. Qed.

Example float32_080_times_100 :
  (float32 0.8 == 13421773 # 16777216)%Q ∧ (80 < float32 0.8 * 100)%Q ∧
  np_times100 binary32 (float32 0.8) = 80%Q.
Proof. split; [|split]; by_computation. Qed.

Example tier_061 :
  confidence_level <$> (interpret binary32 (map float32 [0.61; 0; 0; 0.39]%Q))
  = Ok "media" ∧
  confidence_level <$> (interpret binary64 (map float64 [0.61; 0; 0; 0.39]%Q))
  = Ok "media".
Proof. split; vm_compute; reflexivity. Qed.

Example tier_060 :
  confidence_level <$> (interpret binary64 (map float64 [0.60; 0; 0; 0.40]%Q))
  = Ok "baja" ∧
  confidence_level <$> (interpret binary32 (map float32 [0.60; 0; 0; 0.40]%Q))
  = Ok "media" ∧
  np_times100 binary32 (float32 0.6) = float64 60.000003814697266.
Proof. split; [|split]; by_computation. Qed.

(** The level is computed before [round]: a reported confidence of 80
    can come with the level "alta". *)
Example tier_uses_unrounded_confidence :
  (λ r, (confidence r, confidence_level r)) <$>
    interpret binary32 (map float32 [0.80004; 0; 0; 0.19996]%Q)
  = Ok (80%Q, "alta").
Proof. vm_compute. reflexivity. Qed.

(** ** The main class *)

(** C3. For every four-entry probability vector (in particular one that
    sums to 1), the interpretation succeeds and its main class is the
    class of an index [i] whose probability is maximal; every index
    that attains the same maximum is at least [i], so on an exact tie
    the lowest index wins; and a class whose probability is strictly
    larger than all others is the one selected. *)
Theorem main_class_is_first_maximum (fmt : format) (v : list Q) :
  length v = 4%nat →
  ∃ i name r,
    interpret fmt v = Ok r ∧ (i < 4)%nat ∧
    CLASS_NAMES !! i = Some name ∧
    CLASS_LABELS !! name = Some (damage_label r) ∧
    CLASS_DESCRIPTIONS !! name = Some (description r) ∧
    (∀ j, (j < 4)%nat → (nth j v 0 <= nth i v 0)%Q) ∧
    (∀ j, (j < 4)%nat → (nth j v 0 == nth i v 0)%Q → (i <= j)%nat) ∧
    (∀ k, (k < 4)%nat →
       (∀ j, (j < 4)%nat → j ≠ k → (nth j v 0 < nth k v 0)%Q) → i = k).
Proof.
  intros Hlen.
  destruct (interpret_ok fmt v Hlen)
    as (i & name & lbl & desc & preds & _ & Hi & Hmax & Hfirst & Hn & Hl & Hd & _ & Hr).
  exists i, name, (built_result fmt v i name lbl desc preds).
  refine (conj Hr (conj Hi (conj Hn (conj Hl (conj Hd (conj Hmax (conj _ _))))))).
  - intros j Hj Heq. destruct (le_lt_dec i j) as [Hle|Hlt]; [exact Hle|].
    exfalso. apply (Qlt_not_eq _ _ (Hfirst j Hlt)). exact Heq.
  - intros k Hk Hstrict. destruct (decide (i = k)) as [E|Hne]; [exact E|].
    exfalso. apply (Qlt_not_le _ _ (Hstrict i Hi Hne)). apply Hmax. exact Hk.
Qed.

Lemma main_class_is_first_maximum_witness :
  ∃ r, interpret binary32 [0.25; 0.25; 0.25; 0.25]%Q = Ok r ∧
       damage_label r = "Daño Leve".
Proof.
  destruct (main_class_is_first_maximum binary32 [0.25; 0.25; 0.25; 0.25]%Q)
    as (i & name & r & Hr & Hi & Hn & Hl & _ & _ & Htie & _).
  - reflexivity.
  - exists r. split; [exact Hr|].
    assert (Hi0 : (i <= 0)%nat).
    { apply Htie; [lia|].
      destruct i as [|[|[|[|i]]]]; [reflexivity | reflexivity | reflexivity | reflexivity | lia]. }
    assert (i = 0%nat) as -> by lia.
    vm_compute in Hn. injection Hn as <-.
    assert (E : CLASS_LABELS !! "01-minor" = Some "Daño Leve") by reflexivity.
    rewrite E in Hl. injection Hl as <-. reflexivity.
Defined.

Example tie_between_last_two :
  damage_label <$> interpret binary32 (map float32 [0.1; 0.1; 0.4; 0.4]%Q)
  = Ok "Daño Severo".
Proof. vm_compute. reflexivity. Qed.

(** ** The textual detail *)


(** Away from the two boundaries the qualifier of [details] is the one
    of the reported confidence level. *)
Lemma details_qualifier_off_boundary (name : string) (c : Q) :
  ¬ (c == 60)%Q → ¬ (c == 80)%Q →
  let detail := default "Daño no especificado" (details_map !! name) in
  (confidence_level_of c = "baja" ∧
     _generate_details name c = detail +:+ low_qualifier) ∨
  (confidence_level_of c = "media" ∧
     _generate_details name c = detail +:+ medium_qualifier) ∨
  (confidence_level_of c = "alta" ∧
     _generate_details name c = detail +:+ high_qualifier).
Proof.
  intros H60 H80 detail. unfold confidence_level_of, _generate_details.
  fold detail.
  destruct (Qgtb c 80) eqn:G80.
  { apply Qgtb_gt in G80. right; right.
    assert (L80 : Qltb c 80 = false) by (apply Qltb_ge, Qlt_le_weak, G80).
    assert (L60 : Qltb c 60 = false).
    { apply Qltb_ge, Qlt_le_weak. apply Qlt_trans with 80%Q; [reflexivity|exact G80]. }
    rewrite L60, L80. split; reflexivity. }
  apply Qgtb_le in G80.
  assert (L80 : Qltb c 80 = true).
  { apply Qltb_lt. apply Qle_lteq in G80 as [H|H]; [exact H | contradiction]. }
  destruct (Qgtb c 60) eqn:G60.
  { apply Qgtb_gt in G60. right; left.
    assert (L60 : Qltb c 60 = false) by (apply Qltb_ge, Qlt_le_weak, G60).
    rewrite L60, L80. split; reflexivity. }
  apply Qgtb_le in G60. left.
  assert (L60 : Qltb c 60 = true).
  { apply Qltb_lt. apply Qle_lteq in G60 as [H|H]; [exact H | contradiction]. }
  rewrite L60. split; reflexivity.
Qed.

(** C4 (the code departs from the claim at the two boundaries). At a
    winning confidence of exactly 80 the reported level is "media" while
    [details] carries the high-confidence qualifier, and at exactly 60
    the level is "baja" while [details] carries the medium qualifier:
    [_generate_details] tests [< 60] and [< 80] where the level is
    computed with [> 80] and [> 60].  The confidence is exactly 80 for
    the array [0.8, 0.2, 0, 0], in [float32] as well as in [float64],
    and exactly 60 for the [float64] array [0.6, 0.4, 0, 0]. *)
Theorem details_qualifier_disagrees_at_boundaries :
  (∀ fmt,
     ∃ r, interpret fmt [round_binary fmt 0.8; round_binary fmt 0.2; 0; 0]%Q = Ok r ∧
          confidence r = 80%Q ∧
          confidence_level r = "media" ∧
          details r = "Rayones superficiales o abolladuras menores (Alta confianza)") ∧
  (∃ r, interpret binary64 [float64 0.6; float64 0.4; 0; 0]%Q = Ok r ∧
        confidence r = 60%Q ∧
        confidence_level r = "baja" ∧
        details r = "Rayones superficiales o abolladuras menores (Confianza media)").
Proof.
  split; [intros [|]|]; eexists;
    (split; [vm_compute; reflexivity|]); repeat split; reflexivity.
Qed.

(** ** Rounding consistency *)

(** C6. For every four-entry probability vector, the interpretation
    succeeds, the breakdown [all_predictions] holds under the name of
    the main class the raw percentage (the product that the program
    computes from the winning probability and 100, not rounded to
    decimals), and [round] of that entry to two decimals is the
    reported [confidence]: the float nearest to a whole number of
    hundredths that is at most half a hundredth away from the raw
    entry. *)
Theorem confidence_roundtrip (fmt : format) (v : list Q) :
  length v = 4%nat →
  ∃ i name r raw,
    interpret fmt v = Ok r ∧
    argmax v = Ok i ∧
    CLASS_NAMES !! i = Some name ∧
    all_predictions r !! name = Some raw ∧
    raw = np_times100 fmt (nth i v 0%Q) ∧
    confidence r = py_round2 raw ∧
    (∃ z : Z, confidence r = round_binary binary64 (z # 100) ∧
              (Qabs ((z # 100) - raw) <= 1 # 200)%Q).
Proof.
  intros Hlen.
  destruct (interpret_ok fmt v Hlen)
    as (i & name & lbl & desc & preds & Harg & _ & _ & _ & Hn & _ & _ & Hp & Hr).
  exists i, name, (built_result fmt v i name lbl desc preds),
    (np_times100 fmt (nth i v 0%Q)).
  repeat (split; [assumption|]). split; [reflexivity|].
  cbn [built_result confidence]. split; [reflexivity|].
  apply py_round2_hundredths.
Qed.

Lemma confidence_roundtrip_witness :
  ∃ r raw,
    interpret binary32 (map float32 [0.81237; 0.1; 0.08763; 0]%Q) = Ok r ∧
    all_predictions r !! "01-minor" = Some raw ∧
    raw = float64 81.23699951171875 ∧
    confidence r = py_round2 raw ∧ confidence r = float64 81.24.
Proof.
  destruct (confidence_roundtrip binary32
              (map float32 [0.81237; 0.1; 0.08763; 0]%Q))
    as (i & name & r & raw & Hr & Hi & Hn & Hraw & Hv & Hc & _).
  - reflexivity.
  - exists r, raw.
    vm_compute in Hi. injection Hi as <-.
    vm_compute in Hn. injection Hn as <-.
    split; [exact Hr|]. split; [exact Hraw|].
    split; [rewrite Hv; by_computation|]. split; [exact Hc|].
    rewrite Hc, Hv. by_computation.
Defined.

(** The reported confidence is [round] of the [float32] product, which
    can differ from the exact product rounded to two decimals: here the
    exact product is 81.0150027..., the [float32] product 81.01499938...,
    and 81.01 is reported. *)
Example confidence_rounds_the_float_product :
  confidence <$> interpret binary32 [6796031 # 8388608; float32 0.1; 0; 0]%Q
  = Ok (float64 81.01) ∧
  round_half_even ((6796031 # 8388608) * 100 * 100)%Q = 8102%Z.
Proof. split; by_computation. Qed.

(** The breakdown is keyed by the class names of [CLASS_NAMES]; the
    [damage] field, which has the numeric prefix removed, is not a key. *)
Example breakdown_not_keyed_by_damage :
  (λ r, (damage r, all_predictions r !! damage r)) <$>
    interpret binary32 sample_vector = Ok ("minor", None).
Proof. vm_compute. reflexivity. Qed.


(** ** Aggregation: what the loop of [_generate_general_conclusion] computes *)

Lemma is_damage_label_lookup (lbl : string) (dc : gmap string nat) :
  is_damage_label lbl = true →
  (∀ l, l ∈ damage_labels → is_Some (dc !! l)) →
  is_Some (dc !! lbl).
Proof.
  intros Hl Hdom. apply Hdom. unfold is_damage_label in Hl.
  apply existsb_exists in Hl as (l & Hin & Heq).
  apply String.eqb_eq in Heq. subst l. apply list_elem_of_In. exact Hin.
Qed.

Lemma angle_entries_cons (angle : string) (res : entry) (rest : pydict entry) :
  angle_entries ((angle, res) :: rest) =
  if negb (String.eqb angle "conclusion")
  then (angle, res) :: angle_entries rest
  else angle_entries rest.
Proof. reflexivity. Qed.

Lemma tally_results_spec (items : pydict entry) (t : tally) :
  per_angle_results items = true →
  (∀ l, l ∈ damage_labels → is_Some (damage_counts t !! l)) →
  ∃ t', tally_results items t = Ok t' ∧
    (∀ l, damage_counts t' !! l =
          (λ n, (n + label_count l items)%nat) <$> damage_counts t !! l) ∧
    total_confidence t' = confidence_sum (total_confidence t) items ∧
    angle_count t' = (angle_count t + length (angle_entries items))%nat.
Proof.
  revert t. induction items as [|[angle res] rest IH]; intros t Hwf Hdom.
  - exists t. split; [reflexivity|]. split; [|split].
    + intros l. unfold label_count. cbn.
      destruct (damage_counts t !! l) as [n|]; cbn; [f_equal; lia | reflexivity].
    + reflexivity.
    + cbn. lia.
  - unfold per_angle_results in Hwf, IH. rewrite angle_entries_cons in Hwf.
    assert (Hcons := angle_entries_cons angle res rest).
    cbn [tally_results].
    destruct (negb (angle =? "conclusion")) eqn:Hang.
    + cbn [forallb snd] in Hwf. apply andb_prop in Hwf as [Hlbl Hwf].
      destruct res as [r|c]; [|discriminate Hlbl].
      destruct (is_damage_label_lookup _ _ Hlbl Hdom) as [n Hn].
      destruct (IH {| damage_counts := <[damage_label r := S n]> (damage_counts t);
                      total_confidence := py_add (total_confidence t) (confidence r);
                      angle_count := S (angle_count t) |} Hwf)
        as (t' & Ht' & Hcnt & Hsum & Hang').
      { intros l Hl. cbn [damage_counts].
        destruct (decide (damage_label r = l)) as [->|Hne].
        - rewrite lookup_insert_eq. eauto.
        - rewrite lookup_insert_ne by exact Hne. apply Hdom. exact Hl. }
      exists t'. split; [|split; [|split]].
      * assert (Hg : getitem (damage_counts t) (damage_label r) = Ok n)
          by (unfold getitem; rewrite Hn; reflexivity).
        rewrite Hg. exact Ht'.
      * intros l. rewrite Hcnt. unfold label_count. rewrite Hcons.
        cbn [damage_counts List.filter]. unfold has_label at 2. cbn [snd].
        destruct (String.eqb_spec (damage_label r) l) as [<-|Hne].
        -- rewrite lookup_insert_eq, Hn. cbn. f_equal. lia.
        -- rewrite lookup_insert_ne by exact Hne. reflexivity.
      * rewrite Hsum. unfold confidence_sum. rewrite Hcons. reflexivity.
      * rewrite Hang', Hcons. cbn. lia.
    + destruct (IH t Hwf Hdom) as (t' & Ht' & Hcnt & Hsum & Hang').
      exists t'. split; [exact Ht'|]. split; [|split].
      * intros l. rewrite Hcnt. unfold label_count. rewrite Hcons. reflexivity.
      * rewrite Hsum. unfold confidence_sum. rewrite Hcons. reflexivity.
      * rewrite Hang', Hcons. reflexivity.
Qed.

Lemma initial_tally_labels (l : string) :
  l ∈ damage_labels → damage_counts initial_tally !! l = Some 0%nat.
Proof.
  unfold damage_labels. intros H.
  repeat (apply elem_of_cons in H as [->|H]; [reflexivity|]).
  apply elem_of_nil in H. contradiction.
Qed.

Lemma initial_tally_other (l : string) :
  l ∉ damage_labels → damage_counts initial_tally !! l = None.
Proof.
  unfold damage_labels. intros H. cbn [initial_tally damage_counts].
  rewrite !lookup_insert_ne by (intros <-; apply H; set_solver).
  apply lookup_singleton_ne. intros <-. apply H. set_solver.
Qed.

Lemma generate_general_conclusion_ok (results : pydict entry) :
  per_angle_results results = true →
  ∃ c, _generate_general_conclusion results = Ok c ∧
    overall c = verdict_policy (label_count "Daño Severo" results)
                               (label_count "Daño Moderado" results)
                               (label_count "Daño Leve" results) ∧
    conclusion c =
      (if Qltb (mean_confidence results) 70
       then verdict_text (overall c) +:+ low_confidence_note
       else verdict_text (overall c)) ∧
    recommendation c = verdict_recommendation (overall c) ∧
    (∀ l, l ∈ damage_labels →
          damage_breakdown c !! l = Some (label_count l results)) ∧
    (∀ l, l ∉ damage_labels → damage_breakdown c !! l = None) ∧
    average_confidence c = py_round2 (mean_confidence results).
Proof.
  intros Hwf.
  destruct (tally_results_spec results initial_tally Hwf)
    as (t & Ht & Hcnt & Hsum & Hn).
  { intros l Hl. rewrite (initial_tally_labels l Hl). eauto. }
  assert (Hlab : ∀ l, l ∈ damage_labels →
                   damage_counts t !! l = Some (label_count l results)).
  { intros l Hl. rewrite Hcnt, (initial_tally_labels l Hl). reflexivity. }
  assert (Hget : ∀ l, l ∈ damage_labels →
                   getitem (damage_counts t) l = Ok (label_count l results)).
  { intros l Hl. unfold getitem. rewrite (Hlab l Hl). reflexivity. }
  assert (Hmean : (if (0 <? angle_count t)%nat
                   then py_truediv (total_confidence t) (angle_count t)
                   else 0%Q) = mean_confidence results).
  { unfold mean_confidence. rewrite Hn, Hsum. cbn [initial_tally angle_count
      total_confidence Nat.add].
    destruct (length (angle_entries results)); reflexivity. }
  assert (Hother : ∀ l, l ∉ damage_labels → damage_counts t !! l = None).
  { intros l Hl. rewrite Hcnt, (initial_tally_other l Hl). reflexivity. }
  unfold _generate_general_conclusion. rewrite Ht. cbn [mbind result_bind].
  rewrite Hmean.
  rewrite (Hget "Daño Severo") by (unfold damage_labels; set_solver).
  cbn [mbind result_bind]. unfold verdict_policy.
  destruct (0 <? label_count "Daño Severo" results)%nat;
    [| rewrite (Hget "Daño Moderado") by (unfold damage_labels; set_solver);
       cbn [mbind result_bind];
       destruct (1 <? label_count "Daño Moderado" results)%nat;
       [| rewrite (Hget "Daño Leve") by (unfold damage_labels; set_solver);
          cbn [mbind result_bind];
          destruct (0 <? label_count "Daño Leve" results)%nat ] ];
    cbn [mbind result_bind mret result_ret];
    (eexists; split; [reflexivity|];
     cbn [overall conclusion recommendation damage_breakdown average_confidence];
     split; [reflexivity|];
     split; [destruct (Qltb (mean_confidence results) 70); reflexivity|];
     split; [reflexivity|];
     split; [exact Hlab|];
     split; [exact Hother | reflexivity]).
Qed.

(** ** The verdict *)

(** C1. For every set of per-angle results (in particular the four
    angles of a vehicle) the conclusion is produced and its overall tag
    follows the priority order: "poor" when some result is severe;
    otherwise "acceptable" when more than one is moderate; otherwise
    "good" when some result is minor; otherwise "excellent". *)
Theorem verdict_priority_order (results : pydict entry) :
  per_angle_results results = true →
  ∃ c, _generate_general_conclusion results = Ok c ∧
    let severe := label_count "Daño Severo" results in
    let moderate := label_count "Daño Moderado" results in
    let minor := label_count "Daño Leve" results in
    ((0 < severe)%nat → overall c = "poor") ∧
    (severe = 0%nat → (1 < moderate)%nat → overall c = "acceptable") ∧
    (severe = 0%nat → (moderate <= 1)%nat → (0 < minor)%nat →
       overall c = "good") ∧
    (severe = 0%nat → (moderate <= 1)%nat → minor = 0%nat →
       overall c = "excellent").
Proof.
  intros Hwf.
  destruct (generate_general_conclusion_ok results Hwf) as (c & Hc & Hov & _).
  exists c. split; [exact Hc|]. cbn zeta. rewrite Hov. unfold verdict_policy.
  repeat split.
  - intros H. apply Nat.ltb_lt in H. rewrite H. reflexivity.
  - intros -> H. apply Nat.ltb_lt in H. rewrite H. reflexivity.
  - intros -> H1 H2. apply Nat.ltb_ge in H1. apply Nat.ltb_lt in H2.
    rewrite H1, H2. reflexivity.
  - intros -> H1 ->. apply Nat.ltb_ge in H1. rewrite H1. reflexivity.
Qed.

Lemma verdict_priority_order_witness :
  ∃ c, _generate_general_conclusion
         [("frontal", sample_result "Daño Severo" 90);
          ("lateral-derecho", sample_result "Daño Leve" 85);
          ("lateral-izquierdo", sample_result "Sin Daño" 95);
          ("trasero", sample_result "Sin Daño" 99)] = Ok c ∧
       overall c = "poor".
Proof.
  destruct (verdict_priority_order
              [("frontal", sample_result "Daño Severo" 90);
               ("lateral-derecho", sample_result "Daño Leve" 85);
               ("lateral-izquierdo", sample_result "Sin Daño" 95);
               ("trasero", sample_result "Sin Daño" 99)])
    as (c & Hc & Hpoor & _).
  - reflexivity.
  - exists c. split; [exact Hc|]. apply Hpoor. vm_compute. lia.
Defined.

Example two_moderates_are_acceptable :
  overall <$> _generate_general_conclusion
    [("frontal", sample_result "Daño Moderado" 90);
     ("lateral-derecho", sample_result "Daño Moderado" 85);
     ("lateral-izquierdo", sample_result "Sin Daño" 95);
     ("trasero", sample_result "Sin Daño" 99)] = Ok "acceptable".
Proof. vm_compute. reflexivity. Qed.

Example one_moderate_is_excellent :
  overall <$> _generate_general_conclusion
    [("frontal", sample_result "Daño Moderado" 90);
     ("lateral-derecho", sample_result "Sin Daño" 85);
     ("lateral-izquierdo", sample_result "Sin Daño" 95);
     ("trasero", sample_result "Sin Daño" 99)] = Ok "excellent".
Proof. vm_compute. reflexivity. Qed.

(** ** The low-confidence note *)

Lemma append_nonempty_ne (a b : string) : b ≠ "" → a +:+ b ≠ a.
Proof.
  intros Hb. induction a as [|ch a IH]; cbn.
  - exact Hb.
  - intros H. injection H as H. exact (IH H).
Qed.

(** C5. For every set of per-angle results (in particular four), the
    conclusion text is the text of the verdict followed by the
    low-confidence note exactly when the average confidence that the
    program computes (the float sum of the confidences divided by their
    number, not yet rounded to decimals) is below 70, whatever the
    verdict; the overall tag, the recommendation and the damage
    breakdown are determined by the labels alone, so they are the same
    with and without the note. *)
Theorem low_confidence_note_iff_mean_below_70 (results : pydict entry) :
  per_angle_results results = true →
  ∃ c, _generate_general_conclusion results = Ok c ∧
    ((mean_confidence results < 70)%Q ↔
       conclusion c = verdict_text (overall c) +:+ low_confidence_note) ∧
    (¬ (mean_confidence results < 70)%Q ↔
       conclusion c = verdict_text (overall c)) ∧
    overall c = verdict_policy (label_count "Daño Severo" results)
                               (label_count "Daño Moderado" results)
                               (label_count "Daño Leve" results) ∧
    recommendation c = verdict_recommendation (overall c) ∧
    (∀ l, l ∈ damage_labels →
          damage_breakdown c !! l = Some (label_count l results)).
Proof.
  intros Hwf.
  destruct (generate_general_conclusion_ok results Hwf)
    as (c & Hc & Hov & Htxt & Hrec & Hbrk & _).
  exists c. split; [exact Hc|].
  assert (Hne : verdict_text (overall c) +:+ low_confidence_note
                ≠ verdict_text (overall c))
    by (apply append_nonempty_ne; discriminate).
  destruct (Qltb (mean_confidence results) 70) eqn:Hlt.
  - apply Qltb_lt in Hlt.
    refine (conj (conj (λ _, Htxt) (λ _, Hlt)) (conj (conj _ _) _)).
    + intros H. contradiction.
    + intros H. rewrite Htxt in H. contradiction.
    + auto.
  - apply Qltb_ge in Hlt. apply Qle_not_lt in Hlt.
    refine (conj (conj _ _) (conj (conj (λ _, Htxt) (λ _, Hlt)) _)).
    + intros H. contradiction.
    + intros H. rewrite Htxt in H. symmetry in H. contradiction.
    + auto.
Qed.

Lemma low_confidence_note_iff_mean_below_70_witness :
  ∃ c, _generate_general_conclusion
         [("frontal", sample_result "Daño Severo" 65);
          ("lateral-derecho", sample_result "Daño Leve" 65);
          ("lateral-izquierdo", sample_result "Sin Daño" 65);
          ("trasero", sample_result "Sin Daño" 65)] = Ok c ∧
       conclusion c = verdict_text "poor" +:+ low_confidence_note.
Proof.
  destruct (low_confidence_note_iff_mean_below_70
              [("frontal", sample_result "Daño Severo" 65);
               ("lateral-derecho", sample_result "Daño Leve" 65);
               ("lateral-izquierdo", sample_result "Sin Daño" 65);
               ("trasero", sample_result "Sin Daño" 65)])
    as (c & Hc & [Hnote _] & _ & Hov & _).
  - reflexivity.
  - exists c. split; [exact Hc|].
    assert (E : overall c = "poor") by (rewrite Hov; reflexivity).
    rewrite <- E. apply Hnote. by_computation.
Defined.

Example mean_65_good_has_note :
  conclusion <$> _generate_general_conclusion
    [("frontal", sample_result "Daño Leve" 60);
     ("lateral-derecho", sample_result "Sin Daño" 70);
     ("lateral-izquierdo", sample_result "Sin Daño" 65);
     ("trasero", sample_result "Sin Daño" 65)] =
  Ok (verdict_text "good" +:+ low_confidence_note).
Proof. vm_compute. reflexivity. Qed.

(** The test uses the average before [round]: a reported average of 70
    can come with the note. *)
Example note_uses_unrounded_mean :
  (λ c, (average_confidence c, conclusion c)) <$>
    _generate_general_conclusion (four_results (float64 69.99) 70 70 70) =
  Ok (70%Q, verdict_text "excellent" +:+ low_confidence_note).
Proof. vm_compute. reflexivity. Qed.

Example mean_70_has_no_note :
  conclusion <$> _generate_general_conclusion
    [("frontal", sample_result "Daño Leve" 60);
     ("lateral-derecho", sample_result "Sin Daño" 80);
     ("lateral-izquierdo", sample_result "Sin Daño" 70);
     ("trasero", sample_result "Sin Daño" 70)] =
  Ok (verdict_text "good").
Proof. vm_compute. reflexivity. Qed.

(** The average is the one of float arithmetic.  The decimals 70.21,
    69.44, 64.83 and 75.52 add up to 280, but the floats nearest to
    them have the float average 69.99999999999999 and get the note;
    the floats 82.0, 61.48, 46.81 and 89.71 have an exact mean below
    70 and the float average 70, and get no note. *)
Example float_average_below_70 :
  mean_confidence (four_results (float64 70.21) (float64 69.44)
                                (float64 64.83) (float64 75.52))
  = float64 69.99999999999999 ∧
  (λ c, (average_confidence c, conclusion c)) <$>
    _generate_general_conclusion
      (four_results (float64 70.21) (float64 69.44)
                    (float64 64.83) (float64 75.52))
  = Ok (70%Q, verdict_text "excellent" +:+ low_confidence_note).
Proof. split; vm_compute; reflexivity. Qed.

Example float_average_exactly_70 :
  ((float64 82.0 + float64 61.48 + float64 46.81 + float64 89.71) / 4 < 70)%Q ∧
  mean_confidence (four_results (float64 82.0) (float64 61.48)
                                (float64 46.81) (float64 89.71)) = 70%Q ∧
  conclusion <$>
    _generate_general_conclusion
      (four_results (float64 82.0) (float64 61.48)
                    (float64 46.81) (float64 89.71))
  = Ok (verdict_text "excellent").
Proof. split; [|split]; by_computation. Qed.


(** ** The damage breakdown *)

Lemma label_counts_partition (es : pydict entry) :
  forallb valid_entry es = true →
  (length (List.filter (has_label "Sin Daño") es)
   + length (List.filter (has_label "Daño Leve") es)
   + length (List.filter (has_label "Daño Moderado") es)
   + length (List.filter (has_label "Daño Severo") es))%nat = length es.
Proof.
  induction es as [|[k e] es IH]; [reflexivity|].
  cbn [forallb]. intros H. apply andb_prop in H as [He Hes].
  specialize (IH Hes). cbn [List.filter length].
  destruct e as [r|c]; [|discriminate He].
  unfold valid_entry, is_damage_label in He. cbn [snd existsb damage_labels] in He.
  assert (Hh : ∀ l, has_label l (k, AngleResult r) = String.eqb (damage_label r) l)
    by reflexivity.
  rewrite !Hh. clear Hh.
  repeat (apply orb_prop in He as [He|He];
          [apply String.eqb_eq in He; rewrite He; cbn; lia|]).
  discriminate He.
Qed.

(** C8. For every aggregation over four per-angle results, the
    breakdown returned has exactly the four labels as keys and its four
    counts add up to 4. *)
Theorem damage_breakdown_sums_to_four (results : pydict entry) :
  per_angle_results results = true →
  length (angle_entries results) = 4%nat →
  ∃ c n0 n1 n2 n3,
    _generate_general_conclusion results = Ok c ∧
    damage_breakdown c =
      {[ "Sin Daño" := n0; "Daño Leve" := n1;
         "Daño Moderado" := n2; "Daño Severo" := n3 ]} ∧
    (n0 + n1 + n2 + n3)%nat = 4%nat.
Proof.
  intros Hwf Hlen.
  destruct (generate_general_conclusion_ok results Hwf)
    as (c & Hc & _ & _ & _ & Hin & Hout & _).
  exists c, (label_count "Sin Daño" results), (label_count "Daño Leve" results),
    (label_count "Daño Moderado" results), (label_count "Daño Severo" results).
  split; [exact Hc|]. split.
  - apply map_eq. intros l.
    destruct (decide (l ∈ damage_labels)) as [Hl|Hl].
    + rewrite (Hin l Hl). unfold damage_labels in Hl.
      repeat (apply elem_of_cons in Hl as [->|Hl]; [reflexivity|]).
      apply elem_of_nil in Hl. contradiction.
    + rewrite (Hout l Hl). symmetry. unfold damage_labels in Hl.
      rewrite !lookup_insert_ne by (intros <-; apply Hl; set_solver).
      apply lookup_singleton_ne. intros <-. apply Hl. set_solver.
  - rewrite <- Hlen. apply label_counts_partition. exact Hwf.
Qed.

Lemma damage_breakdown_sums_to_four_witness :
  ∃ c, _generate_general_conclusion
         [("frontal", sample_result "Daño Severo" 90);
          ("lateral-derecho", sample_result "Daño Leve" 85);
          ("lateral-izquierdo", sample_result "Sin Daño" 95);
          ("trasero", sample_result "Sin Daño" 99)] = Ok c ∧
       ∃ n0 n1 n2 n3,
         damage_breakdown c =
           {[ "Sin Daño" := n0; "Daño Leve" := n1;
              "Daño Moderado" := n2; "Daño Severo" := n3 ]} ∧
         (n0 + n1 + n2 + n3)%nat = 4%nat.
Proof.
  destruct (damage_breakdown_sums_to_four
              [("frontal", sample_result "Daño Severo" 90);
               ("lateral-derecho", sample_result "Daño Leve" 85);
               ("lateral-izquierdo", sample_result "Sin Daño" 95);
               ("trasero", sample_result "Sin Daño" 99)])
    as (c & n0 & n1 & n2 & n3 & Hc & Hmap & Hsum).
  - reflexivity.
  - reflexivity.
  - exists c. split; [exact Hc|]. exists n0, n1, n2, n3. split; assumption.
Defined.

(** ** No angle entries *)

(** C10. When the mapping passed to [_generate_general_conclusion] has
    no angle entry (it is empty or holds only ['conclusion']), the
    function returns normally: the average confidence is 0, every count
    is 0 and the overall tag is "excellent". *)
Theorem no_angles_average_zero (results : pydict entry) :
  angle_entries results = [] →
  ∃ c, _generate_general_conclusion results = Ok c ∧
    average_confidence c = 0%Q ∧
    overall c = "excellent" ∧
    (∀ l, l ∈ damage_labels → damage_breakdown c !! l = Some 0%nat).
Proof.
  intros Hnone.
  destruct (generate_general_conclusion_ok results)
    as (c & Hc & Hov & _ & _ & Hin & _ & Havg).
  { unfold per_angle_results. rewrite Hnone. reflexivity. }
  exists c. split; [exact Hc|].
  unfold label_count in *. unfold mean_confidence in Havg.
  rewrite Hnone in *. cbn [List.filter length] in *.
  split; [exact Havg|]. split; [exact Hov | exact Hin].
Qed.

Lemma no_angles_average_zero_witness :
  ∃ c, _generate_general_conclusion [] = Ok c ∧
       average_confidence c = 0%Q ∧ overall c = "excellent".
Proof.
  destruct (no_angles_average_zero []) as (c & Hc & Havg & Hov & _).
  - reflexivity.
  - exists c. split; [exact Hc|]. split; assumption.
Defined.

Example only_conclusion_entry :
  (λ c, (overall c, average_confidence c)) <$>
    _generate_general_conclusion
      [("conclusion", sample_result "Daño Severo" 90)] = Ok ("excellent", 0%Q).
Proof. vm_compute. reflexivity. Qed.

(** ** The unloaded model *)

(** C7. When the model is not loaded, both [analyze_single_image] and
    [analyze_vehicle] raise [RuntimeError "Modelo no cargado"] and leave
    the trace as it was: no image is preprocessed and the network is not
    called, and no result is produced. *)
Theorem unloaded_model_fails_fast {tensor : Type} (fmt : format)
    (load_image_array : string → result tensor)
    (self : DamageAnalyzer tensor)
    (image_path : string) (image_paths : pydict string) (s : list event) :
  model_loaded self = false →
  analyze_single_image fmt load_image_array self image_path s
    = (Raise (RuntimeError "Modelo no cargado"), s) ∧
  analyze_vehicle fmt load_image_array self image_paths s
    = (Raise (RuntimeError "Modelo no cargado"), s).
Proof.
  intros Hnot. unfold analyze_single_image, analyze_vehicle.
  rewrite Hnot. split; reflexivity.
Qed.

Lemma unloaded_model_fails_fast_witness :
  analyze_single_image binary32 (λ p, Ok p) (mk_analyzer None false) "frontal.jpg" []
    = (Raise (RuntimeError "Modelo no cargado"), []) ∧
  analyze_vehicle binary32 (λ p, Ok p) (mk_analyzer None false)
      [("frontal", "f.jpg"); ("lateral-derecho", "d.jpg");
       ("lateral-izquierdo", "i.jpg"); ("trasero", "t.jpg")] []
    = (Raise (RuntimeError "Modelo no cargado"), []).
Proof.
  apply unloaded_model_fails_fast. reflexivity.
Defined.
(** ** The keys of a vehicle assessment *)

Lemma dict_set_new {V} (k : string) (v : V) (d : pydict V) :
  k ∉ keys d → dict_set k v d = (d ++ [(k, v)])%list.
Proof.
  unfold keys. induction d as [|[k' v'] d IH]; intros Hk; [reflexivity|].
  cbn [dict_set]. rewrite fmap_cons in Hk. cbn [fst] in Hk.
  apply not_elem_of_cons in Hk as [Hne Hk].
  apply String.eqb_neq in Hne. rewrite Hne, (IH Hk). reflexivity.
Qed.

Lemma keys_app {V} (d1 d2 : pydict V) :
  keys (d1 ++ d2)%list = (keys d1 ++ keys d2)%list.
Proof. unfold keys. apply fmap_app. Qed.

Lemma M_bind_ok {A B} (m : M A) (f : A → M B) (s s' : list event) (b : B) :
  (m ≫= f) s = (Ok b, s') →
  ∃ a s1, m s = (Ok a, s1) ∧ f a s1 = (Ok b, s').
Proof.
  unfold mbind, M_bind. destruct (m s) as [[a|e] s1]; intros H.
  - exists a, s1. split; [reflexivity | exact H].
  - discriminate H.
Qed.

Lemma angle_names_dom (k : string) :
  is_Some (angle_names !! k) → k ∈ required_angles.
Proof.
  intros [x Hx]. destruct (decide (k ∈ required_angles)) as [Hin|Hout];
    [exact Hin|]. exfalso. unfold required_angles in Hout.
  unfold angle_names in Hx.
  rewrite !lookup_insert_ne in Hx by (intros <-; apply Hout; set_solver).
  rewrite lookup_singleton_ne in Hx by (intros <-; apply Hout; set_solver).
  discriminate Hx.
Qed.

Lemma conclusion_not_an_angle : "conclusion" ∉ required_angles.
Proof.
  unfold required_angles. intros H.
  repeat (apply elem_of_cons in H as [H|H]; [discriminate H|]).
  apply elem_of_nil in H. exact H.
Qed.

Lemma required_angles_nodup : NoDup required_angles.
Proof.
  unfold required_angles.
  repeat (apply NoDup_cons; split;
          [intros H; repeat (apply elem_of_cons in H as [H|H]; [discriminate H|]);
           apply elem_of_nil in H; exact H|]).
  apply NoDup_nil. exact I.
Qed.

Section Keys.

Context {tensor : Type}.
Variable fmt : format.
Variable load_image_array : string → result tensor.
Variable self : DamageAnalyzer tensor.

Lemma analyze_angles_spec (items : pydict string) :
  ∀ (results out : pydict entry) (s s' : list event),
    analyze_angles fmt load_image_array self items results s = (Ok out, s') →
    NoDup (keys results ++ keys items)%list →
    Forall is_angle_result results →
    keys out = (keys results ++ keys items)%list ∧
    Forall is_angle_result out ∧
    (∀ k, k ∈ keys items → k ∈ required_angles).
Proof.
  induction items as [|[angle image_path] rest IH];
    intros results out s s' Hrun Hnd Hres.
  - cbn in Hrun. injection Hrun as <- <-. cbn. rewrite app_nil_r.
    split; [reflexivity|]. split; [exact Hres|].
    intros k Hk. apply elem_of_nil in Hk. contradiction.
  - cbn [analyze_angles] in Hrun.
    apply M_bind_ok in Hrun as (x & s1 & Hname & Hrun).
    apply M_bind_ok in Hrun as (r & s2 & _ & Hrun).
    unfold lift in Hname. injection Hname as Hname _.
    assert (Hangle : angle ∈ required_angles).
    { apply angle_names_dom. unfold getitem in Hname.
      destruct (angle_names !! angle); [eauto | discriminate Hname]. }
    change (keys ((angle, image_path) :: rest)) with (angle :: keys rest) in *.
    assert (Hfresh : angle ∉ keys results).
    { apply NoDup_app in Hnd as (_ & Hdisj & _). intros Hin.
      apply (Hdisj angle Hin). left. }
    rewrite (dict_set_new _ _ _ Hfresh) in Hrun.
    apply IH in Hrun as (Hkeys & Hall & Hin).
    + rewrite keys_app in Hkeys. cbn in Hkeys. rewrite <- app_assoc in Hkeys.
      split; [exact Hkeys|]. split; [exact Hall|].
      intros k Hk. apply elem_of_cons in Hk as [->|Hk]; [exact Hangle|].
      apply Hin. exact Hk.
    + rewrite keys_app. cbn. rewrite <- app_assoc. exact Hnd.
    + apply Forall_app. split; [exact Hres|].
      apply Forall_singleton. exists r. reflexivity.
Qed.

(** What a successful [analyze_vehicle] returns: the results of the
    angles under the keys it was given, all of them angle names,
    followed by the conclusion derived from them. *)
Lemma analyze_vehicle_spec (image_paths : pydict string)
    (results : pydict entry) (s s' : list event) :
  NoDup (keys image_paths) →
  analyze_vehicle fmt load_image_array self image_paths s = (Ok results, s') →
  ∃ angles c,
    results = (angles ++ [("conclusion", ConclusionEntry c)])%list ∧
    keys angles = keys image_paths ∧
    Forall is_angle_result angles ∧
    _generate_general_conclusion angles = Ok c ∧
    (∀ k, k ∈ keys image_paths → k ∈ required_angles).
Proof.
  intros Hnd Hrun. unfold analyze_vehicle in Hrun.
  destruct (negb (model_loaded self)); [discriminate Hrun|].
  apply M_bind_ok in Hrun as (angles & s1 & Hangles & Hrun).
  apply M_bind_ok in Hrun as (c & s2 & Hc & Hrun).
  unfold lift in Hc. injection Hc as Hc _.
  cbv [mret M_ret] in Hrun. injection Hrun as <- _.
  apply analyze_angles_spec in Hangles as (Hkeys & Hall & Hin);
    [|exact Hnd|constructor].
  change (keys [] ++ keys image_paths)%list with (keys image_paths) in Hkeys.
  exists angles, c. split.
  - apply dict_set_new. rewrite Hkeys. intros Hk.
    apply conclusion_not_an_angle, Hin, Hk.
  - repeat split; assumption.
Qed.

End Keys.

(** ** The endpoint: validation, saving, analysis and clean-up *)

Lemma collect_images_spec (angles : list string) (files : gmap string upload) :
  ∀ (image_files out : pydict upload),
    collect_images angles files image_files = Ok (inr out) →
    NoDup (keys image_files ++ angles)%list →
    keys out = (keys image_files ++ angles)%list ∧
    (∀ k, k ∈ angles → is_Some (files !! k)).
Proof.
  induction angles as [|angle rest IH]; intros image_files out Hrun Hnd.
  - cbn in Hrun. injection Hrun as <-. rewrite app_nil_r.
    split; [reflexivity|]. intros k Hk. apply elem_of_nil in Hk. contradiction.
  - cbn [collect_images] in Hrun.
    destruct (files !! angle) as [file|] eqn:Hfile; [|discriminate Hrun].
    destruct (filename file =? ""); [discriminate Hrun|].
    destruct (content_type file) as [mime|]; [|discriminate Hrun].
    destruct (negb (starts_with "image/" mime)); [discriminate Hrun|].
    assert (Hfresh : angle ∉ keys image_files).
    { apply NoDup_app in Hnd as (_ & Hdisj & _). intros Hin.
      apply (Hdisj angle Hin). left. }
    rewrite (dict_set_new _ _ _ Hfresh) in Hrun.
    apply IH in Hrun as (Hkeys & Hin).
    + rewrite keys_app in Hkeys. cbn in Hkeys. rewrite <- app_assoc in Hkeys.
      split; [exact Hkeys|].
      intros k Hk. apply elem_of_cons in Hk as [->|Hk]; [eauto|].
      apply Hin. exact Hk.
    + rewrite keys_app. cbn. rewrite <- app_assoc. exact Hnd.
Qed.

Lemma collect_images_rejects (angles : list string) (files : gmap string upload) :
  ∀ (image_files : pydict upload) (resp : response),
    collect_images angles files image_files = Ok (inl resp) →
    ∃ error, resp = BadRequest error.
Proof.
  induction angles as [|angle rest IH]; intros image_files resp Hrun.
  - discriminate Hrun.
  - cbn [collect_images] in Hrun.
    destruct (files !! angle) as [file|];
      [|injection Hrun as <-; eauto].
    destruct (filename file =? ""); [injection Hrun as <-; eauto|].
    destruct (content_type file) as [mime|]; [|discriminate Hrun].
    destruct (negb (starts_with "image/" mime));
      [injection Hrun as <-; eauto|].
    apply IH in Hrun. exact Hrun.
Qed.

(** The validation loop and the defects of the uploads. *)
Lemma collect_images_first_defect (files : gmap string upload)
    (pre post : list string) (angle : string) (resp : response) :
  ∀ image_files : pydict upload,
    (∀ k, k ∈ pre → upload_defect files k = None) →
    upload_defect files angle = Some resp →
    collect_images (pre ++ angle :: post) files image_files
    = match resp with
      | ServerError e => Raise e
      | _ => Ok (inl resp)
      end.
Proof.
  unfold upload_defect.
  induction pre as [|k pre IH]; intros image_files Hpre Hdefect.
  - cbn [app collect_images].
    destruct (files !! angle) as [file|]; [|injection Hdefect as <-; reflexivity].
    destruct (filename file =? ""); [injection Hdefect as <-; reflexivity|].
    destruct (content_type file) as [mime|];
      [|injection Hdefect as <-; reflexivity].
    destruct (starts_with "image/" mime); [discriminate|].
    cbn [negb]. injection Hdefect as <-. reflexivity.
  - cbn [app collect_images].
    pose proof (Hpre k ltac:(left)) as Hk.
    destruct (files !! k) as [file|]; [|discriminate Hk].
    destruct (filename file =? ""); [discriminate Hk|].
    destruct (content_type file) as [mime|]; [|discriminate Hk].
    destruct (starts_with "image/" mime); [|discriminate Hk].
    cbn [negb]. apply IH; [|exact Hdefect].
    intros k' Hk'. apply Hpre. right. exact Hk'.
Qed.

Lemma collect_images_no_defect (files : gmap string upload) (angles : list string) :
  ∀ image_files : pydict upload,
    (∀ k, k ∈ angles → upload_defect files k = None) →
    ∃ out, collect_images angles files image_files = Ok (inr out).
Proof.
  unfold upload_defect.
  induction angles as [|k angles IH]; intros image_files Hall.
  - exists image_files. reflexivity.
  - cbn [collect_images].
    pose proof (Hall k ltac:(left)) as Hk.
    destruct (files !! k) as [file|]; [|discriminate Hk].
    destruct (filename file =? ""); [discriminate Hk|].
    destruct (content_type file) as [mime|]; [|discriminate Hk].
    destruct (starts_with "image/" mime); [|discriminate Hk].
    cbn [negb]. apply IH. intros k' Hk'. apply Hall. right. exact Hk'.
Qed.

Lemma collect_images_ext (files files' : gmap string upload) (angles : list string) :
  ∀ image_files : pydict upload,
    (∀ k, k ∈ angles → files !! k = files' !! k) →
    collect_images angles files image_files
    = collect_images angles files' image_files.
Proof.
  induction angles as [|k angles IH]; intros image_files Hsame; [reflexivity|].
  cbn [collect_images]. rewrite <- (Hsame k ltac:(left)).
  destruct (files !! k) as [file|]; [|reflexivity].
  destruct (filename file =? ""); [reflexivity|].
  destruct (content_type file) as [mime|]; [|reflexivity].
  destruct (negb (starts_with "image/" mime)); [reflexivity|].
  apply IH. intros k' Hk'. apply Hsame. right. exact Hk'.
Qed.

(** The saving loop: what it has saved, attempted and raised. *)
Lemma save_uploads_run (timestamp : string → string)
    (save_error : string → option exn) (items : pydict upload) :
  ∀ (saved_paths : pydict string) (s : list event),
    NoDup (keys saved_paths ++ keys items)%list →
    save_uploads timestamp save_error items (Some saved_paths) s =
    (match first_save_error save_error (map (saved_path timestamp) (keys items)) with
     | Some e => Raise e
     | None => Ok tt
     end,
     Some (saved_paths ++ saved_so_far timestamp save_error (keys items))%list,
     (s ++ map SaveCall
             (attempted_saves save_error
                (map (saved_path timestamp) (keys items))))%list).
Proof.
  induction items as [|[angle file] rest IH]; intros saved_paths s Hnd.
  - cbn. rewrite !app_nil_r. reflexivity.
  - change (keys ((angle, file) :: rest)) with (angle :: keys rest) in *.
    assert (Hfresh : angle ∉ keys saved_paths).
    { apply NoDup_app in Hnd as (_ & Hdisj & _). intros Hin.
      apply (Hdisj angle Hin). left. }
    cbn [save_uploads map first_save_error attempted_saves saved_so_far].
    fold (saved_path timestamp angle). unfold save_succeeds.
    cbv [mbind View_bind view_lift tell view_raise read_saved_paths
         bind_saved_paths mret View_ret].
    destruct (save_error (saved_path timestamp angle)) as [e|].
    + rewrite app_nil_r. reflexivity.
    + rewrite (dict_set_new _ _ _ Hfresh).
      rewrite IH.
      * cbn [map]. rewrite <- !app_assoc. reflexivity.
      * rewrite keys_app. cbn. rewrite <- app_assoc. exact Hnd.
Qed.

Lemma remove_files_run (paths : list string) :
  ∀ s, remove_files paths s = (Ok tt, (s ++ map RemoveCall paths)%list).
Proof.
  induction paths as [|filepath rest IH]; intros s.
  - cbn. rewrite app_nil_r. reflexivity.
  - cbn [remove_files]. unfold mbind at 1, M_bind at 1, tell.
    rewrite IH, <- app_assoc. reflexivity.
Qed.



(** When no save fails, everything is attempted and saved. *)
Lemma all_saves_succeed (timestamp : string → string)
    (save_error : string → option exn) (angles : list string) :
  first_save_error save_error (map (saved_path timestamp) angles) = None →
  attempted_saves save_error (map (saved_path timestamp) angles)
    = map (saved_path timestamp) angles ∧
  saved_so_far timestamp save_error angles
    = map (λ angle, (angle, saved_path timestamp angle)) angles.
Proof.
  induction angles as [|angle rest IH]; intros Hnone; [split; reflexivity|].
  cbn [map first_save_error attempted_saves saved_so_far] in *.
  unfold save_succeeds.
  destruct (save_error (saved_path timestamp angle)); [discriminate Hnone|].
  destruct (IH Hnone) as [-> ->]. split; reflexivity.
Qed.

Lemma first_save_error_none (timestamp : string → string)
    (save_error : string → option exn) (angles : list string) :
  (∀ k, k ∈ angles → save_error (saved_path timestamp k) = None) →
  first_save_error save_error (map (saved_path timestamp) angles) = None.
Proof.
  induction angles as [|angle rest IH]; intros Hall; [reflexivity|].
  cbn [map first_save_error]. rewrite (Hall angle) by left.
  apply IH. intros k Hk. apply Hall. right. exact Hk.
Qed.

Lemma saved_so_far_keys (timestamp : string → string) (angles : list string) :
  keys (map (λ angle, (angle, saved_path timestamp angle)) angles) = angles.
Proof.
  unfold keys. induction angles as [|angle rest IH]; [reflexivity|].
  cbn. rewrite IH. reflexivity.
Qed.

Lemma saved_so_far_values (timestamp : string → string) (angles : list string) :
  (map (λ angle, (angle, saved_path timestamp angle)) angles).*2
  = map (saved_path timestamp) angles.
Proof.
  induction angles as [|angle rest IH]; [reflexivity|].
  cbn. rewrite IH. reflexivity.
Qed.

Section Trace.

Context {tensor : Type}.
Variable fmt : format.
Variable load_image_array : string → result tensor.
Variable self : DamageAnalyzer tensor.




End Trace.

Section Endpoint.

Context {tensor : Type}.
Variable fmt : format.
Variable load_image_array : string → result tensor.
Variable timestamp : string → string.
Variable save_error : string → option exn.

(** The endpoint, path by path: a failing validation answers 500 at
    once; an early return answers 400; otherwise the uploads are saved
    until one fails, the analyzer runs if none failed, the files that
    were saved are removed, and the answer is the outcome. *)
Lemma api_analyze_run (self : DamageAnalyzer tensor) (files : gmap string upload)
    (s : list event) :
  api_analyze fmt load_image_array timestamp save_error (Some self) files s =
  match collect_images required_angles files [] with
  | Raise e => (Ok (ServerError e), s)
  | Ok (inl resp) => (Ok resp, s)
  | Ok (inr _) =>
      let paths := map (saved_path timestamp) required_angles in
      let saved := saved_so_far timestamp save_error required_angles in
      let s1 := (s ++ map SaveCall (attempted_saves save_error paths))%list in
      match first_save_error save_error paths with
      | Some e => (Ok (ServerError e), (s1 ++ map RemoveCall saved.*2)%list)
      | None =>
          (Ok (match (analyze_vehicle fmt load_image_array self saved s1).1 with
               | Ok results => Success (jsonify results)
               | Raise e => ServerError e
               end),
           ((analyze_vehicle fmt load_image_array self saved s1).2
              ++ map RemoveCall saved.*2)%list)
      end
  end.
Proof.
  unfold api_analyze, try_except, view_body.
  cbv [mbind View_bind view_lift lift].
  destruct (collect_images required_angles files []) as [[resp|image_files]|e] eqn:Hcol.
  - reflexivity.
  - apply collect_images_spec in Hcol as (Hkeys & _);
      [|exact required_angles_nodup].
    change (keys [] ++ required_angles)%list with required_angles in Hkeys.
    cbv [bind_saved_paths].
    rewrite save_uploads_run
      by (change (NoDup (keys image_files)); rewrite Hkeys;
          exact required_angles_nodup).
    rewrite Hkeys. cbn [app]. cbv zeta.
    destruct (first_save_error save_error
                (map (saved_path timestamp) required_angles)) as [e|].
    + cbv [view_except]. rewrite remove_files_run. reflexivity.
    + cbv [read_saved_paths].
      destruct (analyze_vehicle fmt load_image_array self
                  (saved_so_far timestamp save_error required_angles)
                  (s ++ map SaveCall
                          (attempted_saves save_error
                             (map (saved_path timestamp) required_angles)))%list)
        as [[results|e] s2]; cbn [fst snd].
      * rewrite remove_files_run. reflexivity.
      * cbv [view_except]. rewrite remove_files_run. reflexivity.
  - reflexivity.
Qed.

End Endpoint.
(** A request that is answered with success: the analyzer exists, the
    four uploads were there, and the analysis of the four saved files
    succeeded. *)
Lemma api_analyze_success {tensor : Type} (fmt : format)
    (load_image_array : string → result tensor) (timestamp : string → string)
    (save_error : string → option exn)
    (analyzer : option (DamageAnalyzer tensor))
    (files : gmap string upload) (s s' : list event)
    (results : gmap string entry) :
  api_analyze fmt load_image_array timestamp save_error analyzer files s
    = (Ok (Success results), s') →
  ∃ self saved_paths out s1 s2,
    analyzer = Some self ∧
    keys saved_paths = required_angles ∧
    (∀ k, k ∈ required_angles → is_Some (files !! k)) ∧
    analyze_vehicle fmt load_image_array self saved_paths s1 = (Ok out, s2) ∧
    results = jsonify out.
Proof.
  intros Hrun. destruct analyzer as [self|]; [|discriminate Hrun].
  rewrite api_analyze_run in Hrun.
  destruct (collect_images required_angles files [])
    as [[resp|image_files]|e] eqn:Hcol.
  - apply collect_images_rejects in Hcol as [error ->]. discriminate Hrun.
  - apply collect_images_spec in Hcol as (_ & Hfiles);
      [|exact required_angles_nodup].
    cbv zeta in Hrun.
    destruct (first_save_error save_error
                (map (saved_path timestamp) required_angles)) as [e|] eqn:Hsave;
      [discriminate Hrun|].
    destruct (all_saves_succeed _ _ _ Hsave) as [Hatt Hsaved].
    rewrite Hsaved in Hrun.
    destruct (analyze_vehicle fmt load_image_array self _ _) as [[out|e] s2] eqn:Hveh;
      cbn [fst snd] in Hrun; [|discriminate Hrun].
    injection Hrun as <- _.
    eexists self, _, out, _, s2. split; [reflexivity|].
    split; [apply saved_so_far_keys|]. split; [exact Hfiles|].
    split; [exact Hveh | reflexivity].
  - discriminate Hrun.
Qed.

(** ** Acceptance: with a working model, valid uploads are analysed *)

Lemma class_label_is_damage_label (i : nat) (name lbl : string) :
  (i < 4)%nat → CLASS_NAMES !! i = Some name → CLASS_LABELS !! name = Some lbl →
  is_damage_label lbl = true.
Proof.
  intros Hi Hn Hl.
  destruct i as [|[|[|[|i]]]]; [| | | |lia];
    vm_compute in Hn; injection Hn as <-;
    vm_compute in Hl; injection Hl as <-; reflexivity.
Qed.

Lemma interpret_valid (fmt : format) (v : list Q) :
  length v = 4%nat →
  ∃ r, interpret fmt v = Ok r ∧ is_damage_label (damage_label r) = true.
Proof.
  intros Hlen.
  destruct (interpret_ok fmt v Hlen)
    as (i & name & lbl & desc & preds & _ & Hi & _ & _ & Hn & Hl & _ & _ & Hr).
  exists (built_result fmt v i name lbl desc preds). split; [exact Hr|].
  exact (class_label_is_damage_label i name lbl Hi Hn Hl).
Qed.

Lemma required_angle_has_name (k : string) :
  k ∈ required_angles → ∃ x, getitem angle_names k = Ok x.
Proof.
  unfold required_angles. intros H.
  repeat (apply elem_of_cons in H as [->|H]; [eexists; reflexivity|]).
  apply elem_of_nil in H. contradiction.
Qed.

Lemma Forall_dict_set {V} (P : string * V → Prop) (k : string) (v : V)
    (d : pydict V) :
  (∀ k', P (k', v)) → Forall P d → Forall P (dict_set k v d).
Proof.
  intros Hv. induction 1 as [|[k' v'] d Hkv Hd IH]; cbn [dict_set].
  - apply Forall_singleton. apply Hv.
  - destruct (k =? k').
    + apply Forall_cons. split; [apply Hv | exact Hd].
    + apply Forall_cons. split; [exact Hkv | exact IH].
Qed.

Lemma per_angle_results_of_valid (results : pydict entry) :
  Forall (λ kv, valid_entry kv = true) results → per_angle_results results = true.
Proof.
  unfold per_angle_results, angle_entries. induction 1 as [|kv d Hkv Hd IH].
  - reflexivity.
  - cbn [List.filter]. destruct (is_angle kv); [|exact IH].
    cbn [forallb]. rewrite Hkv, IH. reflexivity.
Qed.

Section Acceptance.

Context {tensor : Type}.
Variable fmt : format.
Variable load_image_array : string → result tensor.
Variable timestamp : string → string.
Variable save_error : string → option exn.
Variable self : DamageAnalyzer tensor.
Variable net : tensor → result (list Q).

Hypothesis loaded : model_loaded self = true.
Hypothesis has_model : model self = Some net.
Hypothesis images_load : ∀ image_path, ∃ t, load_image_array image_path = Ok t.
Hypothesis four_classes : ∀ t, ∃ v, net t = Ok v ∧ length v = 4%nat.

Lemma analyze_single_image_accepts (image_path : string) (s : list event) :
  ∃ r, analyze_single_image fmt load_image_array self image_path s
         = (Ok r, (s ++ [PreprocessCall image_path; PredictCall])%list) ∧
       is_damage_label (damage_label r) = true.
Proof.
  destruct (images_load image_path) as [t Ht].
  destruct (four_classes t) as (v & Hv & Hlen).
  destruct (interpret_valid fmt v Hlen) as (r & Hr & Hlbl).
  exists r. split; [|exact Hlbl].
  unfold analyze_single_image, preprocess_image, predict.
  rewrite loaded, has_model. cbn [negb].
  unfold mbind, M_bind, tell, lift. rewrite Ht, Hv, Hr, <- app_assoc.
  reflexivity.
Qed.

Lemma analyze_angles_accepts (items : pydict string) :
  ∀ (results : pydict entry) (s : list event),
    (∀ k, k ∈ keys items → k ∈ required_angles) →
    Forall (λ kv, valid_entry kv = true) results →
    ∃ out s',
      analyze_angles fmt load_image_array self items results s = (Ok out, s') ∧
      Forall (λ kv, valid_entry kv = true) out.
Proof.
  induction items as [|[angle image_path] rest IH]; intros results s Hkeys Hres.
  - exists results, s. split; [reflexivity | exact Hres].
  - change (keys ((angle, image_path) :: rest)) with (angle :: keys rest) in Hkeys.
    destruct (required_angle_has_name angle) as [x Hx].
    { apply Hkeys. left. }
    destruct (analyze_single_image_accepts image_path s) as (r & Hr & Hlbl).
    destruct (IH (dict_set angle (AngleResult r) results)
                 (s ++ [PreprocessCall image_path; PredictCall])%list)
      as (out & s' & Hout & Hvalid).
    { intros k Hk. apply Hkeys. right. exact Hk. }
    { apply Forall_dict_set; [intros k'; exact Hlbl | exact Hres]. }
    exists out, s'. split; [|exact Hvalid].
    cbn [analyze_angles]. unfold mbind at 1, M_bind at 1, lift at 1.
    rewrite Hx. unfold mbind at 1, M_bind at 1. rewrite Hr. exact Hout.
Qed.

Lemma analyze_vehicle_accepts (image_paths : pydict string) (s : list event) :
  (∀ k, k ∈ keys image_paths → k ∈ required_angles) →
  ∃ results s',
    analyze_vehicle fmt load_image_array self image_paths s = (Ok results, s').
Proof.
  intros Hkeys.
  destruct (analyze_angles_accepts image_paths [] s Hkeys) as (out & s' & Hout & Hvalid);
    [constructor|].
  destruct (generate_general_conclusion_ok out) as (c & Hc & _).
  { apply per_angle_results_of_valid. exact Hvalid. }
  exists (dict_set "conclusion" (ConclusionEntry c) out), s'.
  unfold analyze_vehicle. rewrite loaded. cbn [negb].
  unfold mbind at 1, M_bind at 1. rewrite Hout.
  unfold mbind, M_bind, lift. rewrite Hc. reflexivity.
Qed.

(** An upload under each of the four identifiers, with a file name and
    an image content type, is accepted and analysed when the files can
    be saved. *)
Lemma api_analyze_accepts (files : gmap string upload) (s : list event) :
  (∀ k, k ∈ required_angles → upload_defect files k = None) →
  (∀ k, k ∈ required_angles → save_error (saved_path timestamp k) = None) →
  ∃ results s',
    api_analyze fmt load_image_array timestamp save_error (Some self) files s
      = (Ok (Success results), s').
Proof.
  intros Hfiles Hsaves. rewrite api_analyze_run.
  destruct (collect_images_no_defect files required_angles [] Hfiles)
    as [image_files ->]. cbv zeta.
  pose proof (first_save_error_none timestamp save_error required_angles Hsaves)
    as Hnone.
  rewrite Hnone. destruct (all_saves_succeed _ _ _ Hnone) as [-> ->].
  destruct (analyze_vehicle_accepts
              (map (λ angle, (angle, saved_path timestamp angle)) required_angles)
              (s ++ map SaveCall (map (saved_path timestamp) required_angles))%list)
    as (results & s2 & ->).
  { intros k Hk. rewrite saved_so_far_keys in Hk. exact Hk. }
  eexists _, _. reflexivity.
Qed.

End Acceptance.

(** ** The keys of a vehicle assessment *)

(** C9 (as the claim states it, with the identifiers [front], [rear],
    [left] and [right]): a mapping keyed by these identifiers is not
    accepted.  [analyze_vehicle] raises [KeyError] on the first of them
    and the endpoint answers that the image of [frontal] is missing. *)
Lemma english_angle_identifiers_rejected :
  (analyze_vehicle binary32 (λ p, Ok p) constant_analyzer
     [("front", "f.jpg"); ("rear", "r.jpg"); ("left", "l.jpg"); ("right", "d.jpg")]
     []).1 = Raise (KeyError "front") ∧
  (api_analyze binary32 (λ p, Ok p) (λ _, "20250101_000000_000000") saves_succeed
     (Some constant_analyzer)
     {[ "front" := jpeg_upload; "rear" := jpeg_upload;
        "left" := jpeg_upload; "right" := jpeg_upload ]}
     []).1 = Ok (BadRequest "Falta imagen: frontal").
Proof. split; vm_compute; reflexivity. Qed.

Lemma four_angle_results (angles : pydict entry) :
  keys angles = required_angles →
  Forall is_angle_result angles →
  ∃ front right left rear,
    angles = [("frontal", AngleResult front);
              ("lateral-derecho", AngleResult right);
              ("lateral-izquierdo", AngleResult left);
              ("trasero", AngleResult rear)].
Proof.
  intros Hkeys Hall.
  destruct angles as [|[k1 e1] [|[k2 e2] [|[k3 e3] [|[k4 e4] [|kv rest]]]]];
    try discriminate Hkeys.
  injection Hkeys as -> -> -> ->.
  repeat (apply Forall_cons in Hall as [[? Hr] Hall]; cbn [snd] in Hr; subst).
  eexists _, _, _, _. reflexivity.
Qed.

(** C9 (amended). The angle identifiers are [frontal],
    [lateral-derecho], [lateral-izquierdo] and [trasero].  Every
    full-vehicle analysis that the endpoint answers with success was
    given an upload under each of these four identifiers, and its
    results are a mapping with exactly five keys: these four
    identifiers, each holding a per-angle result, and [conclusion],
    holding the conclusion derived from the four results. *)
Theorem vehicle_assessment_keys {tensor : Type} (fmt : format)
    (load_image_array : string → result tensor)
    (timestamp : string → string) (save_error : string → option exn)
    (analyzer : option (DamageAnalyzer tensor))
    (files : gmap string upload) (s s' : list event)
    (results : gmap string entry) :
  api_analyze fmt load_image_array timestamp save_error analyzer files s
    = (Ok (Success results), s') →
  ∃ (front right left rear : single_result) (c : Conclusion),
    results = {[ "frontal" := AngleResult front;
                 "lateral-derecho" := AngleResult right;
                 "lateral-izquierdo" := AngleResult left;
                 "trasero" := AngleResult rear;
                 "conclusion" := ConclusionEntry c ]} ∧
    dom results = {[ "frontal"; "lateral-derecho"; "lateral-izquierdo";
                     "trasero"; "conclusion" ]} ∧
    _generate_general_conclusion
      [("frontal", AngleResult front); ("lateral-derecho", AngleResult right);
       ("lateral-izquierdo", AngleResult left); ("trasero", AngleResult rear)]
      = Ok c ∧
    (∀ k, k ∈ ["frontal"; "lateral-derecho"; "lateral-izquierdo"; "trasero"] →
          is_Some (files !! k)).
Proof.
  intros Hrun.
  apply api_analyze_success in Hrun
    as (self & saved_paths & out & s1 & s2 & _ & Hsaved & Hfiles & Hveh & ->).
  apply analyze_vehicle_spec in Hveh as (angles & c & -> & Hkeys & Hall & Hc & _);
    [|rewrite Hsaved; exact required_angles_nodup].
  rewrite Hsaved in Hkeys.
  destruct (four_angle_results angles Hkeys Hall)
    as (front & right & left & rear & ->).
  exists front, right, left, rear, c.
  assert (Hmap : jsonify
                   ([("frontal", AngleResult front);
                     ("lateral-derecho", AngleResult right);
                     ("lateral-izquierdo", AngleResult left);
                     ("trasero", AngleResult rear)]
                    ++ [("conclusion", ConclusionEntry c)])%list
                 = {[ "frontal" := AngleResult front;
                      "lateral-derecho" := AngleResult right;
                      "lateral-izquierdo" := AngleResult left;
                      "trasero" := AngleResult rear;
                      "conclusion" := ConclusionEntry c ]}).
  { unfold jsonify. cbn [app list_to_map foldr uncurry]. rewrite insert_empty.
    reflexivity. }
  rewrite Hmap. split; [reflexivity|]. split; [|split; [exact Hc | exact Hfiles]].
  rewrite !dom_insert_L, dom_singleton_L. set_solver.
Qed.

Lemma vehicle_assessment_keys_witness :
  ∃ results s',
    api_analyze binary32 (λ p, Ok p) (λ _, "20250101_000000_000000") saves_succeed
      (Some constant_analyzer) four_uploads [] = (Ok (Success results), s') ∧
    dom results = {[ "frontal"; "lateral-derecho"; "lateral-izquierdo";
                     "trasero"; "conclusion" ]}.
Proof.
  destruct (api_analyze binary32 (λ p, Ok p) (λ _, "20250101_000000_000000")
              saves_succeed (Some constant_analyzer) four_uploads [])
    as [[[| | |results]|e] s'] eqn:Hrun;
    try (vm_compute in Hrun; discriminate Hrun).
  exists results, s'. split; [reflexivity|].
  destruct (vehicle_assessment_keys _ _ _ _ _ _ _ _ _ Hrun)
    as (front & right & left & rear & c & _ & Hdom & _).
  exact Hdom.
Defined.

(** The keys of the answer carry no order: read as a dictionary, the
    results give the per-angle result of each identifier and the
    conclusion. *)
Example assessment_lookup :
  ∃ results s',
    api_analyze binary32 (λ p, Ok p) (λ _, "20250101_000000_000000") saves_succeed
      (Some constant_analyzer) four_uploads [] = (Ok (Success results), s') ∧
    results !! "front" = None ∧
    is_Some (results !! "frontal") ∧ is_Some (results !! "conclusion").
Proof.
  eexists _, _. split; [vm_compute; reflexivity|].
  split; [reflexivity|]. split; eexists; reflexivity.
Qed.

(** * Further properties of the analyzer and of the endpoints *)

(** ** Vectors of other lengths *)

Lemma class_names_none (i : nat) : (4 <= i)%nat → CLASS_NAMES !! i = None.
Proof.
  intros Hi. unfold CLASS_NAMES.
  rewrite !lookup_insert_ne by lia. apply lookup_singleton_ne. lia.
Qed.

Lemma fill_predictions_short (fmt : format) (l : list Q) :
  ∀ (i : nat) (acc : gmap string Q),
    (i + length l <= 4)%nat → ∃ preds, fill_predictions fmt i l acc = Ok preds.
Proof.
  induction l as [|prob l IH]; intros i acc Hlen.
  - exists acc. reflexivity.
  - cbn [length] in Hlen. cbn [fill_predictions].
    destruct (class_names_lookup i) as (name & _ & _ & Hn & _); [lia|].
    unfold getitem_idx. rewrite Hn. cbn [mbind result_bind].
    apply IH. lia.
Qed.

Lemma fill_predictions_long (fmt : format) (l : list Q) :
  ∀ (i : nat) (acc : gmap string Q),
    (i <= 4)%nat → (4 < i + length l)%nat →
    fill_predictions fmt i l acc = Raise (IndexKeyError 4).
Proof.
  induction l as [|prob l IH]; intros i acc Hi Hlen.
  - cbn [length] in Hlen. lia.
  - cbn [length] in Hlen. cbn [fill_predictions]. unfold getitem_idx.
    destruct (decide (i = 4%nat)) as [->|Hne].
    + rewrite class_names_none by lia. reflexivity.
    + destruct (class_names_lookup i) as (name & _ & _ & Hn & _); [lia|].
      rewrite Hn. cbn [mbind result_bind]. apply IH; lia.
Qed.

(** X1. [interpret] succeeds exactly on vectors of one to four entries.
    On the empty vector [np.argmax] raises [ValueError]; on a vector
    of more than four entries the lookup in [CLASS_NAMES] raises
    [KeyError] for an index that is at least 4. *)
Theorem interpret_succeeds_iff_length (fmt : format) (v : list Q) :
  ((∃ r, interpret fmt v = Ok r) ↔ (1 <= length v <= 4)%nat) ∧
  (length v = 0%nat → ∃ msg, interpret fmt v = Raise (ValueError msg)) ∧
  ((4 < length v)%nat →
     ∃ i, (4 <= i)%nat ∧ interpret fmt v = Raise (IndexKeyError i)).
Proof.
  assert (Hempty : length v = 0%nat → ∃ msg, interpret fmt v = Raise (ValueError msg)).
  { intros H. destruct v; [|discriminate H]. eexists. reflexivity. }
  assert (Hlong : (4 < length v)%nat →
                  ∃ i, (4 <= i)%nat ∧ interpret fmt v = Raise (IndexKeyError i)).
  { intros H. destruct (argmax_spec v) as (i & Harg & Hi & _).
    { intros ->. cbn in H. lia. }
    unfold interpret. rewrite Harg. cbn [mbind result_bind]. unfold getitem_idx.
    destruct (le_lt_dec 4 i) as [Hge|Hlt].
    - exists i. split; [exact Hge|]. rewrite class_names_none by exact Hge.
      reflexivity.
    - exists 4%nat. split; [lia|].
      destruct (class_names_lookup i Hlt) as (name & _ & _ & Hn & _).
      rewrite Hn. cbn [mbind result_bind].
      rewrite fill_predictions_long by (cbn; lia). reflexivity. }
  split; [|split; assumption]. split.
  - intros [r Hr]. destruct (le_lt_dec (length v) 4) as [Hle|Hgt].
    + destruct (length v) eqn:E; [|lia].
      destruct (Hempty eq_refl) as [msg Hmsg]. congruence.
    + destruct (Hlong Hgt) as (i & _ & Hi). congruence.
  - intros [Hlo Hhi]. destruct (argmax_spec v) as (i & Harg & Hi & _).
    { intros ->. cbn in Hlo. lia. }
    destruct (class_names_lookup i) as (name & lbl & desc & Hn & Hl & Hd); [lia|].
    destruct (fill_predictions_short fmt v 0 ∅) as [preds Hp]; [cbn; lia|].
    exists (built_result fmt v i name lbl desc preds).
    unfold interpret. rewrite Harg. cbn [mbind result_bind].
    unfold getitem_idx, getitem. rewrite Hn. cbn [mbind result_bind].
    rewrite Hp. cbn [mbind result_bind]. rewrite Hl.
    cbn [mbind result_bind]. rewrite Hd. reflexivity.
Qed.

Example interpret_five_entries :
  interpret binary32 (map float32 [0.1; 0.1; 0.1; 0.1; 0.6]%Q)
  = Raise (IndexKeyError 4).
Proof. vm_compute. reflexivity. Qed.

Example interpret_two_entries :
  (λ r, (damage_label r, size (all_predictions r))) <$>
    interpret binary32 (map float32 [0.3; 0.7]%Q)
  = Ok ("Daño Moderado", 2%nat).
Proof. vm_compute. reflexivity. Qed.
(** ** The fields of a single-image result *)

(** X2. The breakdown of a four-entry vector has exactly the four
    class names as keys, each holding the product that the program
    computes from its own probability and 100: the number of the
    format [fmt] nearest to the exact product. *)
Theorem breakdown_is_complete (fmt : format) (a b c d : Q) :
  ∃ r, interpret fmt [a; b; c; d] = Ok r ∧
    all_predictions r =
      {[ "01-minor" := np_times100 fmt a; "02-moderate" := np_times100 fmt b;
         "03-severe" := np_times100 fmt c; "04-no-damage" := np_times100 fmt d ]}.
Proof.
  destruct (interpret_ok fmt [a; b; c; d] eq_refl)
    as (i & name & lbl & desc & preds & _ & _ & _ & _ & _ & _ & _ & _ & Hr).
  exists (built_result fmt [a; b; c; d] i name lbl desc preds). split; [exact Hr|].
  assert (Hp : preds =
               <["04-no-damage" := np_times100 fmt d]>
                 (<["03-severe" := np_times100 fmt c]>
                   (<["02-moderate" := np_times100 fmt b]>
                     (<["01-minor" := np_times100 fmt a]> ∅)))).
  { unfold interpret in Hr.
    destruct (argmax [a; b; c; d]) as [i'|]; [|discriminate Hr].
    cbn [mbind result_bind] in Hr.
    destruct (getitem_idx CLASS_NAMES i') as [name'|]; [|discriminate Hr].
    cbn [mbind result_bind] in Hr. rewrite fill_predictions_four in Hr.
    cbn [mbind result_bind] in Hr.
    destruct (getitem CLASS_LABELS name') as [lbl'|]; [|discriminate Hr].
    cbn [mbind result_bind] in Hr.
    destruct (getitem CLASS_DESCRIPTIONS name') as [desc'|]; [|discriminate Hr].
    cbn [mbind result_bind mret result_ret] in Hr.
    apply (f_equal (fmap all_predictions)) in Hr.
    cbn [fmap result_fmap all_predictions built_result] in Hr.
    injection Hr as Hr. symmetry. exact Hr. }
  cbn [built_result all_predictions]. rewrite Hp.
  apply map_eq. intros k.
  destruct (decide (k = "01-minor")) as [->|H1]; [reflexivity|].
  destruct (decide (k = "02-moderate")) as [->|H2]; [reflexivity|].
  destruct (decide (k = "03-severe")) as [->|H3]; [reflexivity|].
  destruct (decide (k = "04-no-damage")) as [->|H4]; [reflexivity|].
  rewrite !lookup_insert_ne by congruence.
  rewrite lookup_empty, lookup_singleton_ne by congruence. reflexivity.
Qed.

(** The entries of a [float32] array are stored as the [float32]
    products, which are not the exact products. *)
Example breakdown_of_float32_array :
  (λ r, (all_predictions r !! "01-minor", all_predictions r !! "02-moderate")) <$>
    interpret binary32 (map float32 [0.81237; 0.6; 0; 0]%Q)
  = Ok (Some (float64 81.23699951171875), Some (float64 60.000003814697266)) ∧
  ¬ (float64 81.23699951171875 == float32 0.81237 * 100)%Q.
Proof. split; by_computation. Qed.

(** X3. The fields [damage], [damage_label] and [description] of a
    result always describe the same class: together they are one of
    four fixed triples, and [damage] is the class name without its
    numeric prefix. *)
Theorem result_fields_describe_one_class (fmt : format) (v : list Q) :
  length v = 4%nat →
  ∃ r, interpret fmt v = Ok r ∧
    In (damage r, damage_label r, description r)
       [("minor", "Daño Leve", "Rayones pequeños, abolladuras leves");
        ("moderate", "Daño Moderado", "Abolladuras medias, roturas parciales");
        ("severe", "Daño Severo", "Estructura comprometida, grandes abolladuras");
        ("no-damage", "Sin Daño", "Vehículo en buen estado sin daños visibles")].
Proof.
  intros Hlen.
  destruct (interpret_ok fmt v Hlen)
    as (i & name & lbl & desc & preds & _ & Hi & _ & _ & Hn & Hl & Hd & _ & Hr).
  exists (built_result fmt v i name lbl desc preds). split; [exact Hr|].
  cbn [built_result damage damage_label description].
  destruct i as [|[|[|[|i]]]]; [| | | |lia];
    vm_compute in Hn; injection Hn as <-;
    vm_compute in Hl; injection Hl as <-;
    vm_compute in Hd; injection Hd as <-; cbn; tauto.
Qed.

Lemma result_fields_describe_one_class_witness :
  ∃ r, interpret binary32 (map float32 [0.1; 0.2; 0.3; 0.4]%Q) = Ok r ∧
    In (damage r, damage_label r, description r)
       [("minor", "Daño Leve", "Rayones pequeños, abolladuras leves");
        ("moderate", "Daño Moderado", "Abolladuras medias, roturas parciales");
        ("severe", "Daño Severo", "Estructura comprometida, grandes abolladuras");
        ("no-damage", "Sin Daño", "Vehículo en buen estado sin daños visibles")].
Proof.
  apply (result_fields_describe_one_class binary32). reflexivity.
Defined.
(** ** Bounds of the reported confidence *)

(** X4. For a probability vector (four non-negative entries that sum to
    1) the reported confidence lies between 25 and 100. *)
Theorem confidence_between_25_and_100 (fmt : format) (a b c d : Q) :
  (0 <= a)%Q → (0 <= b)%Q → (0 <= c)%Q → (0 <= d)%Q →
  (a + b + c + d == 1)%Q →
  ∃ r, interpret fmt [a; b; c; d] = Ok r ∧
    (25 <= confidence r)%Q ∧ (confidence r <= 100)%Q.
Proof.
  intros Ha Hb Hc Hd Hsum.
  destruct (interpret_ok fmt [a; b; c; d] eq_refl)
    as (i & name & lbl & desc & preds & _ & Hi & Hmax & _ & _ & _ & _ & _ & Hr).
  exists (built_result fmt [a; b; c; d] i name lbl desc preds).
  split; [exact Hr|]. cbn [built_result confidence].
  assert (Hle : (nth i [a; b; c; d] 0 <= 1)%Q).
  { destruct i as [|[|[|[|i]]]]; [| | | |lia]; cbn [nth]; lra. }
  pose proof (Hmax 0%nat ltac:(lia)) as M0.
  pose proof (Hmax 1%nat ltac:(lia)) as M1.
  pose proof (Hmax 2%nat ltac:(lia)) as M2.
  pose proof (Hmax 3%nat ltac:(lia)) as M3.
  set (m := nth i [a; b; c; d] 0%Q) in *.
  cbn [nth] in M0, M1, M2, M3.
  destruct (np_times100_between fmt m 25 100) as [C1 C2]; try lia.
  { change (inject_Z 25) with 25%Q. lra. }
  { change (inject_Z 100) with 100%Q. lra. }
  apply (py_round2_between _ 25 100); try lia; assumption.
Qed.

Lemma confidence_between_25_and_100_witness :
  ∃ r, interpret binary32 [0.25; 0.25; 0.25; 0.25]%Q = Ok r ∧
    (25 <= confidence r)%Q ∧ (confidence r <= 100)%Q.
Proof.
  apply confidence_between_25_and_100;
    unfold Qle, Qeq; simpl; lia.
Defined.

(** ** The qualifier of [details] and the confidence level *)

(** X5. For a four-entry vector whose winning confidence, the product
    that the program computes from the largest probability and 100, is
    neither 60 nor 80, [details] is the text of the main class in
    [details_map] followed by the qualifier of the reported confidence
    level. *)
Theorem details_follow_level_off_boundary (fmt : format) (v : list Q) (p : Q) :
  length v = 4%nat →
  In p v → (∀ q, In q v → (q <= p)%Q) →
  ¬ (np_times100 fmt p == 60)%Q → ¬ (np_times100 fmt p == 80)%Q →
  ∃ r i name detail,
    interpret fmt v = Ok r ∧
    argmax v = Ok i ∧ CLASS_NAMES !! i = Some name ∧
    details_map !! name = Some detail ∧
    ((confidence_level r = "baja" ∧ details r = detail +:+ low_qualifier) ∨
     (confidence_level r = "media" ∧ details r = detail +:+ medium_qualifier) ∨
     (confidence_level r = "alta" ∧ details r = detail +:+ high_qualifier)).
Proof.
  intros Hlen Hin Hp H60 H80.
  destruct (winning_confidence fmt v p Hlen Hin Hp)
    as (i & name & lbl & desc & preds & Hr & Harg & Hi & Hn & Hc).
  assert (Hdet : ∃ detail, details_map !! name = Some detail).
  { destruct i as [|[|[|[|i]]]]; [| | | |lia];
      vm_compute in Hn; injection Hn as <-; eexists; reflexivity. }
  destruct Hdet as [detail Hdet].
  exists (built_result fmt v i name lbl desc preds), i, name, detail.
  split; [exact Hr|]. split; [exact Harg|]. split; [exact Hn|].
  split; [exact Hdet|].
  cbn [built_result confidence_level details]. rewrite Hc.
  pose proof (details_qualifier_off_boundary name (np_times100 fmt p)) as Hq.
  cbv zeta in Hq. rewrite Hdet in Hq. cbn [default] in Hq.
  apply Hq; assumption.
Qed.

Lemma details_follow_level_off_boundary_witness :
  ∃ r, interpret binary32 sample_vector = Ok r ∧
    confidence_level r = "media" ∧
    details r = "Rayones superficiales o abolladuras menores (Confianza media)".
Proof.
  destruct (details_follow_level_off_boundary binary32 sample_vector (float32 0.7))
    as (r & i & name & detail & Hr & _).
  - reflexivity.
  - left. reflexivity.
  - intros q [<-|[<-|[<-|[<-|[]]]]]; by_computation.
  - by_computation.
  - by_computation.
  - exists r. split; [exact Hr|].
    vm_compute in Hr. injection Hr as <-. split; reflexivity.
Defined.

(** ** One image *)

Lemma analyze_single_image_run {tensor : Type} (fmt : format)
    (load_image_array : string → result tensor)
    (self : DamageAnalyzer tensor) (net : tensor → result (list Q))
    (image_path : string) (s : list event) :
  model_loaded self = true → model self = Some net →
  analyze_single_image fmt load_image_array self image_path s =
    (classify fmt load_image_array net image_path,
     (s ++ image_calls load_image_array image_path)%list).
Proof.
  intros Hloaded Hmodel.
  unfold analyze_single_image, preprocess_image, predict, classify, image_calls.
  rewrite Hloaded, Hmodel. cbn [negb].
  cbv [mbind M_bind tell lift].
  destruct (load_image_array image_path) as [t|e]; cbn [result_bind].
  - destruct (net t) as [v|e]; cbn [result_bind];
      rewrite <- app_assoc; reflexivity.
  - reflexivity.
Qed.

(** X6. A loaded analyzer preprocesses the image exactly once and
    calls the network only if preprocessing succeeded; its outcome is
    the interpretation of the network's answer, and an exception of the
    image library or of the network leaves the call unchanged. *)
Theorem analyze_single_image_calls {tensor : Type} (fmt : format)
    (load_image_array : string → result tensor)
    (self : DamageAnalyzer tensor) (net : tensor → result (list Q))
    (image_path : string) (s : list event) :
  model_loaded self = true → model self = Some net →
  analyze_single_image fmt load_image_array self image_path s =
    (classify fmt load_image_array net image_path,
     (s ++ image_calls load_image_array image_path)%list).
Proof. apply analyze_single_image_run. Qed.

Lemma analyze_single_image_calls_witness :
  analyze_single_image binary32
    (λ _ : string, Raise (ExternalError "cannot identify image file"))
    (mk_analyzer (Some (λ _ : string, Ok sample_vector)) true)
    "roto.jpg" []
  = (Raise (ExternalError "cannot identify image file"), [PreprocessCall "roto.jpg"]).
Proof.
  apply (analyze_single_image_calls binary32
           (λ _ : string, Raise (ExternalError "cannot identify image file"))
           (mk_analyzer (Some (λ _ : string, Ok sample_vector)) true)
           (λ _ : string, Ok sample_vector) "roto.jpg" []);
    reflexivity.
Defined.

(** A loaded analyzer without a model object fails on the attribute
    lookup, after preprocessing and without calling anything else. *)
Example predict_without_model :
  analyze_single_image binary32 (λ p, Ok p) (mk_analyzer None true) "f.jpg" []
  = (Raise (AttributeError "'NoneType' object has no attribute 'predict'"),
     [PreprocessCall "f.jpg"]).
Proof. reflexivity. Qed.

(** ** The four angles: order, abortion and partial inputs *)

Lemma analysis_calls_app (l1 l2 : list string) :
  analysis_calls (l1 ++ l2) = (analysis_calls l1 ++ analysis_calls l2)%list.
Proof.
  induction l1 as [|x l1 IH]; [reflexivity|].
  cbn [app analysis_calls]. rewrite IH. reflexivity.
Qed.

Section Run.

Context {tensor : Type}.
Variable fmt : format.
Variable load_image_array : string → result tensor.
Variable self : DamageAnalyzer tensor.
Variable net : tensor → result (list Q).

Hypothesis loaded : model_loaded self = true.
Hypothesis has_model : model self = Some net.

Lemma analyze_angles_cons (angle image_path : string) (rest : pydict string)
    (results : pydict entry) (s : list event) :
  analyze_angles fmt load_image_array self ((angle, image_path) :: rest) results s =
  match angle_names !! angle with
  | None => (Raise (KeyError angle), s)
  | Some _ =>
      match classify fmt load_image_array net image_path with
      | Ok r =>
          analyze_angles fmt load_image_array self rest
            (dict_set angle (AngleResult r) results)
            (s ++ image_calls load_image_array image_path)%list
      | Raise e => (Raise e, (s ++ image_calls load_image_array image_path)%list)
      end
  end.
Proof.
  cbn [analyze_angles]. unfold mbind at 1, M_bind at 1, lift at 1, getitem.
  destruct (angle_names !! angle); [|reflexivity].
  unfold mbind at 1, M_bind at 1.
  rewrite (analyze_single_image_run _ _ _ net _ _ loaded has_model).
  destruct (classify fmt load_image_array net image_path); reflexivity.
Qed.

Lemma image_calls_ok (image_path : string) (r : single_result) :
  classify fmt load_image_array net image_path = Ok r →
  image_calls load_image_array image_path = [PreprocessCall image_path; PredictCall].
Proof.
  unfold classify, image_calls.
  destruct (load_image_array image_path); [reflexivity | discriminate].
Qed.

(** A successful run of the loop, read backwards. *)
Lemma analyze_angles_ok_inv (items : pydict string) :
  ∀ (results out : pydict entry) (s s' : list event),
    analyze_angles fmt load_image_array self items results s = (Ok out, s') →
    NoDup (keys results ++ keys items)%list →
    ∃ angles,
      out = (results ++ angles)%list ∧
      Forall2 (angle_of fmt load_image_array net) items angles ∧
      s' = (s ++ analysis_calls items.*2)%list.
Proof.
  induction items as [|[angle image_path] rest IH];
    intros results out s s' Hrun Hnd.
  - cbn in Hrun. injection Hrun as <- <-. exists [].
    rewrite !app_nil_r. split; [reflexivity|]. split; [constructor | reflexivity].
  - rewrite analyze_angles_cons in Hrun.
    destruct (angle_names !! angle); [|discriminate Hrun].
    destruct (classify fmt load_image_array net image_path) as [r|e] eqn:Hcl;
      [|discriminate Hrun].
    change (keys ((angle, image_path) :: rest)) with (angle :: keys rest) in Hnd.
    assert (Hfresh : angle ∉ keys results).
    { apply NoDup_app in Hnd as (_ & Hdisj & _). intros Hin.
      apply (Hdisj angle Hin). left. }
    rewrite (dict_set_new _ _ _ Hfresh), (image_calls_ok _ _ Hcl) in Hrun.
    apply IH in Hrun as (angles & -> & Hall & ->).
    + exists ((angle, AngleResult r) :: angles). rewrite <- !app_assoc.
      split; [reflexivity|]. split; [|reflexivity].
      constructor; [|exact Hall]. split; [reflexivity|]. exists r. split; [exact Hcl | reflexivity].
    + rewrite keys_app. cbn. rewrite <- app_assoc. exact Hnd.
Qed.

(** A prefix of good items is processed completely. *)
Lemma analyze_angles_prefix (pre rest : pydict string) :
  ∀ (results : pydict entry) (s : list event),
    Forall (λ kp, kp.1 ∈ required_angles ∧
                  ∃ r, classify fmt load_image_array net kp.2 = Ok r) pre →
    ∃ out,
      analyze_angles fmt load_image_array self (pre ++ rest)%list results s =
      analyze_angles fmt load_image_array self rest out
        (s ++ analysis_calls pre.*2)%list.
Proof.
  induction pre as [|[angle image_path] pre IH]; intros results s Hgood.
  - exists results. cbn. rewrite app_nil_r. reflexivity.
  - apply Forall_cons in Hgood as [[Hangle [r Hr]] Hgood]. cbn [fst snd] in *.
    destruct (required_angle_has_name angle Hangle) as [x Hx].
    unfold getitem in Hx.
    destruct (angle_names !! angle) as [x'|] eqn:Hname; [|discriminate Hx].
    destruct (IH (dict_set angle (AngleResult r) results)
                 (s ++ [PreprocessCall image_path; PredictCall])%list Hgood)
      as [out Hout].
    exists out. cbn [app]. rewrite analyze_angles_cons, Hname, Hr.
    rewrite (image_calls_ok _ _ Hr), Hout.
    rewrite fmap_cons. cbn [snd analysis_calls]. rewrite <- app_assoc.
    reflexivity.
Qed.

End Run.

Lemma interpret_label_valid (fmt : format) (v : list Q) (r : single_result) :
  interpret fmt v = Ok r → is_damage_label (damage_label r) = true.
Proof.
  unfold interpret. intros H.
  destruct (argmax v) as [i|]; [|discriminate H]. cbn [mbind result_bind] in H.
  unfold getitem_idx, getitem in H.
  destruct (CLASS_NAMES !! i) as [name|] eqn:Hn; [|discriminate H].
  cbn [mbind result_bind] in H.
  destruct (fill_predictions fmt 0 v ∅); [|discriminate H].
  cbn [mbind result_bind] in H.
  destruct (CLASS_LABELS !! name) as [lbl|] eqn:Hl; [|discriminate H].
  cbn [mbind result_bind] in H.
  destruct (CLASS_DESCRIPTIONS !! name); [|discriminate H].
  cbn [mbind result_bind mret result_ret] in H. injection H as <-.
  cbn [damage_label]. apply (class_label_is_damage_label i name lbl); [|assumption..].
  destruct (le_lt_dec 4 i) as [Hge|Hlt]; [|exact Hlt].
  rewrite class_names_none in Hn by exact Hge. discriminate Hn.
Qed.

Lemma classify_label_valid {tensor : Type} (fmt : format)
    (load_image_array : string → result tensor)
    (net : tensor → result (list Q)) (image_path : string) (r : single_result) :
  classify fmt load_image_array net image_path = Ok r →
  is_damage_label (damage_label r) = true.
Proof.
  unfold classify. intros H.
  destruct (load_image_array image_path) as [t|]; [|discriminate H].
  cbn [mbind result_bind] in H.
  destruct (net t) as [v|]; [|discriminate H].
  cbn [mbind result_bind] in H. exact (interpret_label_valid fmt v r H).
Qed.

Lemma angle_names_none (k : string) :
  k ∉ required_angles → angle_names !! k = None.
Proof.
  intros Hout. destruct (angle_names !! k) as [x|] eqn:Hx; [|reflexivity].
  exfalso. apply Hout. apply angle_names_dom. eauto.
Qed.
Lemma analyze_vehicle_ok_inv {tensor : Type} (fmt : format)
    (load_image_array : string → result tensor)
    (self : DamageAnalyzer tensor) (net : tensor → result (list Q))
    (image_paths : pydict string) (results : pydict entry)
    (s s' : list event) :
  model_loaded self = true → model self = Some net →
  NoDup (keys image_paths) →
  analyze_vehicle fmt load_image_array self image_paths s = (Ok results, s') →
  ∃ angles c,
    results = (angles ++ [("conclusion", ConclusionEntry c)])%list ∧
    Forall2 (angle_of fmt load_image_array net) image_paths angles ∧
    _generate_general_conclusion angles = Ok c ∧
    s' = (s ++ analysis_calls image_paths.*2)%list.
Proof.
  intros Hloaded Hmodel Hnd Hrun.
  pose proof (analyze_vehicle_spec _ _ _ _ _ _ _ Hnd Hrun)
    as (angles & c & Hres & Hkeys & _ & Hc & Hin).
  unfold analyze_vehicle in Hrun. rewrite Hloaded in Hrun. cbn [negb] in Hrun.
  apply M_bind_ok in Hrun as (out & s1 & Hout & Hrun).
  apply M_bind_ok in Hrun as (c' & s2 & Hc' & Hrun).
  unfold lift in Hc'. injection Hc' as Hc' <-.
  cbv [mret M_ret] in Hrun. injection Hrun as Hres' <-.
  apply (analyze_angles_ok_inv _ _ _ net Hloaded Hmodel) in Hout
    as (angles' & -> & Hall & ->); [|exact Hnd].
  cbn [app] in *.
  assert (Hfresh : "conclusion" ∉ keys angles').
  { intros Hk. apply conclusion_not_an_angle, Hin.
    replace (keys image_paths) with (keys angles'); [exact Hk|].
    clear -Hall. induction Hall as [|[k p] [k' e] l l' [Hk _] _ IH]; [reflexivity|].
    cbn in Hk. subst k'. unfold keys in *. cbn. rewrite IH. reflexivity. }
  rewrite (dict_set_new _ _ _ Hfresh) in Hres'.
  exists angles', c'. repeat split; try assumption. symmetry. exact Hres'.
Qed.

(** X7. In a successful full-vehicle analysis every angle holds what
    the analyzer makes of its own image, in the order of the input,
    followed by the conclusion computed from these results; each image
    was preprocessed and classified exactly once, in that order. *)
Theorem analyze_vehicle_results_per_image {tensor : Type} (fmt : format)
    (load_image_array : string → result tensor)
    (self : DamageAnalyzer tensor) (net : tensor → result (list Q))
    (image_paths : pydict string) (results : pydict entry)
    (s s' : list event) :
  model_loaded self = true → model self = Some net →
  NoDup (keys image_paths) →
  analyze_vehicle fmt load_image_array self image_paths s = (Ok results, s') →
  ∃ angles c,
    results = (angles ++ [("conclusion", ConclusionEntry c)])%list ∧
    Forall2 (angle_of fmt load_image_array net) image_paths angles ∧
    _generate_general_conclusion angles = Ok c ∧
    s' = (s ++ analysis_calls image_paths.*2)%list.
Proof. apply analyze_vehicle_ok_inv. Qed.

Lemma analyze_vehicle_results_per_image_witness :
  ∃ results s',
    analyze_vehicle binary32 (λ p, Ok p) constant_analyzer
      [("trasero", "t.jpg"); ("frontal", "f.jpg")] [] = (Ok results, s') ∧
    keys results = ["trasero"; "frontal"; "conclusion"] ∧
    s' = [PreprocessCall "t.jpg"; PredictCall; PreprocessCall "f.jpg"; PredictCall].
Proof.
  destruct (analyze_vehicle binary32 (λ p, Ok p) constant_analyzer
              [("trasero", "t.jpg"); ("frontal", "f.jpg")] [])
    as [[results|e] s'] eqn:Hrun; [|vm_compute in Hrun; discriminate Hrun].
  exists results, s'. split; [reflexivity|].
  destruct (analyze_vehicle_results_per_image binary32
              (λ p, Ok p) constant_analyzer (λ _, Ok sample_vector)
              [("trasero", "t.jpg"); ("frontal", "f.jpg")] results [] s')
    as (angles & c & -> & Hall & _ & ->).
  - reflexivity.
  - reflexivity.
  - distinct_strings.
  - exact Hrun.
  - split; [|reflexivity]. rewrite keys_app.
    inversion Hall as [|? [k1 e1] ? l1 [Hk1 _] Hall1]; subst.
    inversion Hall1 as [|? [k2 e2] ? l2 [Hk2 _] Hall2]; subst.
    inversion Hall2; subst. cbn in Hk1, Hk2. subst. reflexivity.
Defined.

(** X8. A key that is not one of the four angle names aborts the
    analysis with [KeyError] for that key: the images before it have
    been analysed, its own image and the images after it are not
    touched, and no result is returned. *)
Theorem unknown_angle_aborts_analysis {tensor : Type} (fmt : format)
    (load_image_array : string → result tensor)
    (self : DamageAnalyzer tensor) (net : tensor → result (list Q))
    (pre post : pydict string) (angle image_path : string) (s : list event) :
  model_loaded self = true → model self = Some net →
  Forall (λ kp, kp.1 ∈ required_angles ∧
                ∃ r, classify fmt load_image_array net kp.2 = Ok r) pre →
  angle ∉ required_angles →
  analyze_vehicle fmt load_image_array self
    (pre ++ (angle, image_path) :: post)%list s
  = (Raise (KeyError angle), (s ++ analysis_calls pre.*2)%list).
Proof.
  intros Hloaded Hmodel Hgood Hunknown.
  unfold analyze_vehicle. rewrite Hloaded. cbn [negb].
  destruct (analyze_angles_prefix fmt load_image_array self net Hloaded Hmodel
              pre ((angle, image_path) :: post) [] s Hgood) as [out Hout].
  unfold mbind at 1, M_bind at 1. rewrite Hout.
  rewrite (analyze_angles_cons _ _ _ net Hloaded Hmodel).
  rewrite (angle_names_none _ Hunknown). reflexivity.
Qed.

Lemma unknown_angle_aborts_analysis_witness :
  analyze_vehicle binary32 (λ p, Ok p) constant_analyzer
    [("frontal", "f.jpg"); ("techo", "x.jpg"); ("trasero", "t.jpg")] []
  = (Raise (KeyError "techo"), [PreprocessCall "f.jpg"; PredictCall]).
Proof.
  apply (unknown_angle_aborts_analysis binary32
           (λ p, Ok p) constant_analyzer (λ _, Ok sample_vector)
           [("frontal", "f.jpg")] [("trasero", "t.jpg")] "techo" "x.jpg" []).
  - reflexivity.
  - reflexivity.
  - apply Forall_singleton. split; [string_in_list|]. eexists. vm_compute. reflexivity.
  - intros H. repeat (apply elem_of_cons in H as [H|H]; [discriminate H|]).
    apply elem_of_nil in H. exact H.
Defined.

(** X9. An image that cannot be analysed aborts the whole analysis with
    its own exception: the images before it have been analysed, the
    images after it are not touched, and no partial result is returned. *)
Theorem failing_image_aborts_analysis {tensor : Type} (fmt : format)
    (load_image_array : string → result tensor)
    (self : DamageAnalyzer tensor) (net : tensor → result (list Q))
    (pre post : pydict string) (angle image_path : string) (e : exn)
    (s : list event) :
  model_loaded self = true → model self = Some net →
  Forall (λ kp, kp.1 ∈ required_angles ∧
                ∃ r, classify fmt load_image_array net kp.2 = Ok r) pre →
  angle ∈ required_angles →
  classify fmt load_image_array net image_path = Raise e →
  analyze_vehicle fmt load_image_array self
    (pre ++ (angle, image_path) :: post)%list s
  = (Raise e,
     (s ++ analysis_calls pre.*2 ++ image_calls load_image_array image_path)%list).
Proof.
  intros Hloaded Hmodel Hgood Hangle Hfail.
  unfold analyze_vehicle. rewrite Hloaded. cbn [negb].
  destruct (analyze_angles_prefix fmt load_image_array self net Hloaded Hmodel
              pre ((angle, image_path) :: post) [] s Hgood) as [out Hout].
  unfold mbind at 1, M_bind at 1. rewrite Hout.
  rewrite (analyze_angles_cons _ _ _ net Hloaded Hmodel).
  destruct (required_angle_has_name angle Hangle) as [x Hx].
  unfold getitem in Hx.
  destruct (angle_names !! angle); [|discriminate Hx].
  rewrite Hfail, <- app_assoc. reflexivity.
Qed.

Lemma failing_image_aborts_analysis_witness :
  analyze_vehicle binary32
    (λ p, if String.eqb p "roto.jpg" then Raise (ExternalError "cannot identify image file")
          else Ok p)
    constant_analyzer
    [("frontal", "f.jpg"); ("lateral-derecho", "roto.jpg"); ("trasero", "t.jpg")] []
  = (Raise (ExternalError "cannot identify image file"),
     [PreprocessCall "f.jpg"; PredictCall; PreprocessCall "roto.jpg"]).
Proof.
  apply (failing_image_aborts_analysis binary32
           (λ p, if String.eqb p "roto.jpg"
                 then Raise (ExternalError "cannot identify image file") else Ok p)
           constant_analyzer (λ _, Ok sample_vector)
           [("frontal", "f.jpg")] [("trasero", "t.jpg")]
           "lateral-derecho" "roto.jpg" (ExternalError "cannot identify image file") []).
  - reflexivity.
  - reflexivity.
  - apply Forall_singleton. split; [string_in_list|]. eexists. vm_compute. reflexivity.
  - string_in_list.
  - reflexivity.
Defined.

(** X10. With a loaded analyzer a full-vehicle analysis succeeds exactly
    when every key is one of the four angle names and every image is
    analysed successfully; any set of angle names is enough, the method
    itself does not ask for all four.  The results then have the keys of
    the input, in its order, followed by [conclusion]. *)
Theorem analyze_vehicle_all_or_nothing {tensor : Type} (fmt : format)
    (load_image_array : string → result tensor)
    (self : DamageAnalyzer tensor) (net : tensor → result (list Q))
    (image_paths : pydict string) (s : list event) :
  model_loaded self = true → model self = Some net →
  NoDup (keys image_paths) →
  ((∃ results s',
      analyze_vehicle fmt load_image_array self image_paths s = (Ok results, s'))
   ↔ Forall (λ kp, kp.1 ∈ required_angles ∧
                   ∃ r, classify fmt load_image_array net kp.2 = Ok r) image_paths) ∧
  (∀ results s',
      analyze_vehicle fmt load_image_array self image_paths s = (Ok results, s') →
      keys results = (keys image_paths ++ ["conclusion"])%list).
Proof.
  intros Hloaded Hmodel Hnd. split; [split|].
  - intros (results & s' & Hrun).
    pose proof (analyze_vehicle_spec _ _ _ _ _ _ _ Hnd Hrun)
      as (_ & _ & _ & _ & _ & _ & Hin).
    destruct (analyze_vehicle_ok_inv _ _ _ net _ _ _ _
                Hloaded Hmodel Hnd Hrun) as (angles & c & _ & Hall & _).
    clear -Hall Hin. revert Hin.
    induction Hall as [|[k p] [k' e] l l' [_ [r [Hr _]]] _ IH]; intros Hin;
      [constructor|].
    constructor.
    + split; [apply Hin; left | exists r; exact Hr].
    + apply IH. intros x Hx. apply Hin. right. exact Hx.
  - intros Hgood.
    destruct (analyze_angles_prefix fmt load_image_array self net Hloaded Hmodel
                image_paths [] [] s Hgood) as [out Hout].
    rewrite app_nil_r in Hout. cbn [analyze_angles] in Hout.
    cbv [mret M_ret] in Hout.
    pose proof Hout as Hinv.
    apply (analyze_angles_ok_inv _ _ _ net Hloaded Hmodel) in Hinv
      as (angles & -> & Hall & _); [|exact Hnd].
    cbn [app] in Hout.
    destruct (generate_general_conclusion_ok angles) as (c & Hc & _).
    { apply per_angle_results_of_valid. clear -Hall.
      induction Hall as [|[k p] [k' e] l l' [_ [r [Hr He]]] _ IH]; constructor.
      - cbn in He. subst e. unfold valid_entry. cbn [snd].
        exact (classify_label_valid _ _ _ _ _ Hr).
      - exact IH. }
    exists (dict_set "conclusion" (ConclusionEntry c) angles),
           (s ++ analysis_calls image_paths.*2)%list.
    unfold analyze_vehicle. rewrite Hloaded. cbn [negb].
    unfold mbind at 1, M_bind at 1. rewrite Hout.
    unfold mbind, M_bind, lift. rewrite Hc. reflexivity.
  - intros results s' Hrun.
    pose proof (analyze_vehicle_spec _ _ _ _ _ _ _ Hnd Hrun)
      as (angles & c & -> & Hkeys & _).
    rewrite keys_app, Hkeys. reflexivity.
Qed.

Lemma analyze_vehicle_all_or_nothing_witness :
  ∃ results s',
    analyze_vehicle binary32 (λ p, Ok p) constant_analyzer [("lateral-izquierdo", "i.jpg")] []
    = (Ok results, s').
Proof.
  destruct (analyze_vehicle_all_or_nothing binary32
              (λ p, Ok p) constant_analyzer (λ _, Ok sample_vector)
              [("lateral-izquierdo", "i.jpg")] []) as [[_ Hsucceeds] _].
  - reflexivity.
  - reflexivity.
  - distinct_strings.
  - apply Hsucceeds. apply Forall_singleton.
    split; [string_in_list|]. eexists. vm_compute. reflexivity.
Defined.
(** ** The general conclusion: labels, stored conclusions, counts *)

Lemma tally_results_app (pre rest : pydict entry) :
  ∀ t, tally_results (pre ++ rest)%list t =
       tally_results pre t ≫= tally_results rest.
Proof.
  induction pre as [|[angle res] pre IH]; intros t; [reflexivity|].
  cbn [app tally_results].
  destruct (negb (angle =? "conclusion")); [|apply IH].
  destruct res as [r|c]; [|reflexivity].
  destruct (getitem (damage_counts t) (damage_label r)) as [n|e];
    cbn [mbind result_bind]; [apply IH | reflexivity].
Qed.

Lemma not_damage_label (l : string) :
  is_damage_label l = false → l ∉ damage_labels.
Proof.
  intros H Hin. apply list_elem_of_In in Hin.
  assert (Ht : is_damage_label l = true).
  { apply existsb_exists. exists l. split; [exact Hin | apply String.eqb_refl]. }
  congruence.
Qed.

(** X11. A result whose label is not one of the four damage labels
    makes [_generate_general_conclusion] raise [KeyError] for that
    label, whatever the other results are. *)
Theorem unknown_label_raises_key_error (pre post : pydict entry)
    (angle : string) (r : single_result) :
  per_angle_results pre = true →
  angle ≠ "conclusion" →
  is_damage_label (damage_label r) = false →
  _generate_general_conclusion (pre ++ (angle, AngleResult r) :: post)%list
  = Raise (KeyError (damage_label r)).
Proof.
  intros Hpre Hangle Hlbl.
  destruct (tally_results_spec pre initial_tally Hpre) as (t & Ht & Hcnt & _).
  { intros l Hl. rewrite (initial_tally_labels l Hl). eauto. }
  unfold _generate_general_conclusion.
  rewrite tally_results_app, Ht. cbn [mbind result_bind tally_results].
  apply String.eqb_neq in Hangle. rewrite Hangle. cbn [negb].
  unfold getitem.
  rewrite Hcnt, (initial_tally_other _ (not_damage_label _ Hlbl)).
  reflexivity.
Qed.

Lemma unknown_label_raises_key_error_witness :
  _generate_general_conclusion
    [("frontal", sample_result "Sin Daño" 90);
     ("trasero", sample_result "Daño Total" 95);
     ("lateral-derecho", sample_result "Daño Leve" 70)]
  = Raise (KeyError "Daño Total").
Proof.
  apply (unknown_label_raises_key_error
           [("frontal", sample_result "Sin Daño" 90)]
           [("lateral-derecho", sample_result "Daño Leve" 70)] "trasero").
  - reflexivity.
  - discriminate.
  - reflexivity.
Defined.

Lemma tally_results_angle_entries (items : pydict entry) :
  ∀ t, tally_results items t = tally_results (angle_entries items) t.
Proof.
  induction items as [|[angle res] rest IH]; intros t; [reflexivity|].
  rewrite angle_entries_cons. cbn [tally_results].
  destruct (negb (angle =? "conclusion")) eqn:Hangle; [|apply IH].
  cbn [tally_results]. rewrite Hangle.
  destruct res as [r|c]; [|reflexivity].
  destruct (getitem (damage_counts t) (damage_label r)) as [n|e];
    cbn [mbind result_bind]; [apply IH | reflexivity].
Qed.

Lemma generate_general_conclusion_angle_entries (results : pydict entry) :
  _generate_general_conclusion results =
  _generate_general_conclusion (angle_entries results).
Proof.
  unfold _generate_general_conclusion.
  rewrite (tally_results_angle_entries results). reflexivity.
Qed.

(** X12. The entry stored under [conclusion] never enters the
    computation: for the results that [analyze_vehicle] returns,
    computing the general conclusion again gives the conclusion that
    is stored in them. *)
Theorem stored_conclusion_is_reproducible {tensor : Type} (fmt : format)
    (load_image_array : string → result tensor)
    (self : DamageAnalyzer tensor)
    (image_paths : pydict string) (results : pydict entry)
    (s s' : list event) :
  NoDup (keys image_paths) →
  analyze_vehicle fmt load_image_array self image_paths s = (Ok results, s') →
  ∃ c, last results = Some ("conclusion", ConclusionEntry c) ∧
       _generate_general_conclusion results = Ok c.
Proof.
  intros Hnd Hrun.
  pose proof (analyze_vehicle_spec _ _ _ _ _ _ _ Hnd Hrun)
    as (angles & c & -> & Hkeys & _ & Hc & Hin).
  exists c. split; [apply last_snoc|].
  rewrite generate_general_conclusion_angle_entries.
  rewrite (generate_general_conclusion_angle_entries angles) in Hc.
  replace (angle_entries (angles ++ [("conclusion", ConclusionEntry c)])%list)
    with (angle_entries angles); [exact Hc|].
  unfold angle_entries. rewrite List.filter_app. cbn. rewrite app_nil_r.
  reflexivity.
Qed.

Lemma stored_conclusion_is_reproducible_witness :
  ∃ results c,
    (analyze_vehicle binary32 (λ p, Ok p) constant_analyzer
       [("frontal", "f.jpg"); ("trasero", "t.jpg")] []).1 = Ok results ∧
    _generate_general_conclusion results = Ok c ∧ overall c = "good".
Proof.
  destruct (analyze_vehicle binary32 (λ p, Ok p) constant_analyzer
              [("frontal", "f.jpg"); ("trasero", "t.jpg")] [])
    as [[results|e] s'] eqn:Hrun; [|vm_compute in Hrun; discriminate Hrun].
  destruct (stored_conclusion_is_reproducible binary32
              (λ p, Ok p) constant_analyzer
              [("frontal", "f.jpg"); ("trasero", "t.jpg")] results [] s')
    as (c & Hlast & Hc).
  - distinct_strings.
  - exact Hrun.
  - exists results, c. split; [reflexivity|]. split; [exact Hc|].
    vm_compute in Hrun. injection Hrun as <- _.
    cbn [last] in Hlast. injection Hlast as <-. reflexivity.
Defined.

(** X13. For any number of per-angle results the four counts of the
    breakdown add up to the number of angles, and the reported average
    is [round], to two decimals, of the average confidence that the
    program computes in float arithmetic. *)
Theorem breakdown_counts_every_angle (results : pydict entry) :
  per_angle_results results = true →
  ∃ c n0 n1 n2 n3,
    _generate_general_conclusion results = Ok c ∧
    damage_breakdown c !! "Sin Daño" = Some n0 ∧
    damage_breakdown c !! "Daño Leve" = Some n1 ∧
    damage_breakdown c !! "Daño Moderado" = Some n2 ∧
    damage_breakdown c !! "Daño Severo" = Some n3 ∧
    (n0 + n1 + n2 + n3)%nat = length (angle_entries results) ∧
    average_confidence c = py_round2 (mean_confidence results).
Proof.
  intros Hwf.
  destruct (generate_general_conclusion_ok results Hwf)
    as (c & Hc & _ & _ & _ & Hin & _ & Havg).
  exists c, (label_count "Sin Daño" results), (label_count "Daño Leve" results),
    (label_count "Daño Moderado" results), (label_count "Daño Severo" results).
  split; [exact Hc|].
  repeat (split; [apply Hin; unfold damage_labels; set_solver|]).
  split; [|exact Havg]. apply label_counts_partition. exact Hwf.
Qed.

Lemma breakdown_counts_every_angle_witness :
  ∃ c, _generate_general_conclusion
         [("frontal", sample_result "Daño Moderado" 80.5);
          ("trasero", sample_result "Daño Leve" 70.25)] = Ok c ∧
       damage_breakdown c !! "Daño Moderado" = Some 1%nat ∧
       average_confidence c = float64 75.38.
Proof.
  destruct (breakdown_counts_every_angle
              [("frontal", sample_result "Daño Moderado" 80.5);
               ("trasero", sample_result "Daño Leve" 70.25)])
    as (c & n0 & n1 & n2 & n3 & Hc & _ & _ & H2 & _ & _ & Havg).
  - reflexivity.
  - exists c. split; [exact Hc|].
    vm_compute in Hc. injection Hc as <-. split; reflexivity.
Defined.

(** The reported average is the rounded float average, which can
    differ from the exact mean rounded to two decimals: the floats
    37.97, 60.28, 77.3 and 57.23 have an exact mean below 58.195,
    which rounds to 58.19, and a float average that rounds to 58.2,
    the value reported. *)
Example average_rounds_the_float_mean :
  average_confidence <$>
    _generate_general_conclusion
      (four_results (float64 37.97) (float64 60.28) (float64 77.3) (float64 57.23))
  = Ok (float64 58.2) ∧
  round_half_even
    ((float64 37.97 + float64 60.28 + float64 77.3 + float64 57.23) / 4 * 100)%Q
  = 5819%Z.
Proof. split; by_computation. Qed.

(** ** The verdict does not depend on the order of the angles *)

Lemma angle_entries_Permutation (results results' : pydict entry) :
  results ≡ₚ results' → angle_entries results ≡ₚ angle_entries results'.
Proof.
  unfold angle_entries. induction 1 as [|x l l' _ IH|x y l|l l' l'' _ IH1 _ IH2].
  - reflexivity.
  - cbn [List.filter]. destruct (is_angle x); [constructor|]; exact IH.
  - cbn [List.filter]. destruct (is_angle x), (is_angle y);
      first [apply perm_swap | reflexivity].
  - etransitivity; eassumption.
Qed.

Lemma label_count_Permutation (l : string) (results results' : pydict entry) :
  results ≡ₚ results' → label_count l results = label_count l results'.
Proof.
  intros H. apply angle_entries_Permutation in H. unfold label_count.
  induction H as [|x es es' _ IH|x y es|es es' es'' _ IH1 _ IH2].
  - reflexivity.
  - cbn [List.filter]. destruct (has_label l x); cbn [length]; rewrite IH;
      reflexivity.
  - cbn [List.filter]. destruct (has_label l x), (has_label l y); reflexivity.
  - rewrite IH1. exact IH2.
Qed.

Lemma per_angle_results_Permutation (results results' : pydict entry) :
  results ≡ₚ results' →
  per_angle_results results = true → per_angle_results results' = true.
Proof.
  intros H. apply angle_entries_Permutation in H. unfold per_angle_results.
  rewrite !forallb_forall. intros Hall x Hx. apply Hall.
  apply list_elem_of_In. rewrite H. apply list_elem_of_In. exact Hx.
Qed.

(** X14. Going through the same per-angle results in another order
    gives the same overall tag, the same recommendation and the same
    damage breakdown. *)
Theorem verdict_independent_of_order (results results' : pydict entry) :
  per_angle_results results = true →
  results ≡ₚ results' →
  ∃ c c',
    _generate_general_conclusion results = Ok c ∧
    _generate_general_conclusion results' = Ok c' ∧
    overall c = overall c' ∧
    recommendation c = recommendation c' ∧
    damage_breakdown c = damage_breakdown c'.
Proof.
  intros Hwf Hperm.
  pose proof (per_angle_results_Permutation _ _ Hperm Hwf) as Hwf'.
  destruct (generate_general_conclusion_ok results Hwf)
    as (c & Hc & Hov & _ & Hrec & Hin & Hout & _).
  destruct (generate_general_conclusion_ok results' Hwf')
    as (c' & Hc' & Hov' & _ & Hrec' & Hin' & Hout' & _).
  exists c, c'. split; [exact Hc|]. split; [exact Hc'|].
  assert (E : overall c = overall c').
  { rewrite Hov, Hov'.
    rewrite !(label_count_Permutation _ _ _ Hperm). reflexivity. }
  split; [exact E|]. split; [rewrite Hrec, Hrec', E; reflexivity|].
  apply map_eq. intros l.
  destruct (decide (l ∈ damage_labels)) as [Hl|Hl].
  - rewrite (Hin l Hl), (Hin' l Hl), (label_count_Permutation _ _ _ Hperm).
    reflexivity.
  - rewrite (Hout l Hl), (Hout' l Hl). reflexivity.
Qed.

Lemma verdict_independent_of_order_witness :
  ∃ c c',
    _generate_general_conclusion
      [("frontal", sample_result "Daño Moderado" 80);
       ("trasero", sample_result "Daño Leve" 70)] = Ok c ∧
    _generate_general_conclusion
      [("trasero", sample_result "Daño Leve" 70);
       ("frontal", sample_result "Daño Moderado" 80)] = Ok c' ∧
    overall c = overall c'.
Proof.
  destruct (verdict_independent_of_order
              [("frontal", sample_result "Daño Moderado" 80);
               ("trasero", sample_result "Daño Leve" 70)]
              [("trasero", sample_result "Daño Leve" 70);
               ("frontal", sample_result "Daño Moderado" 80)])
    as (c & c' & Hc & Hc' & Hov & _).
  - reflexivity.
  - apply perm_swap.
  - exists c, c'. split; [exact Hc|]. split; [exact Hc' | exact Hov].
Defined.

(** ** What each overall tag means *)

(** X15. The overall tag tells the counts: it is "poor" exactly when
    some result is severe, "excellent" exactly when no result is severe
    or minor and at most one is moderate, "acceptable" exactly when none
    is severe and at least two are moderate, and "good" exactly when
    none is severe, at most one is moderate and some result is minor. *)
Theorem overall_tag_characterises_counts (results : pydict entry) :
  per_angle_results results = true →
  ∃ c, _generate_general_conclusion results = Ok c ∧
    let severe := label_count "Daño Severo" results in
    let moderate := label_count "Daño Moderado" results in
    let minor := label_count "Daño Leve" results in
    (overall c = "poor" ↔ (0 < severe)%nat) ∧
    (overall c = "acceptable" ↔ severe = 0%nat ∧ (2 <= moderate)%nat) ∧
    (overall c = "good" ↔
       severe = 0%nat ∧ (moderate <= 1)%nat ∧ (0 < minor)%nat) ∧
    (overall c = "excellent" ↔
       severe = 0%nat ∧ (moderate <= 1)%nat ∧ minor = 0%nat).
Proof.
  intros Hwf.
  destruct (generate_general_conclusion_ok results Hwf) as (c & Hc & Hov & _).
  exists c. split; [exact Hc|]. cbn zeta. rewrite Hov. unfold verdict_policy.
  destruct (Nat.ltb_spec 0 (label_count "Daño Severo" results));
    [|destruct (Nat.ltb_spec 1 (label_count "Daño Moderado" results));
      [|destruct (Nat.ltb_spec 0 (label_count "Daño Leve" results))]];
    repeat split; intros; try discriminate; try lia; try reflexivity.
Qed.

Lemma overall_tag_characterises_counts_witness :
  ∃ c, _generate_general_conclusion
         [("frontal", sample_result "Daño Moderado" 90);
          ("lateral-derecho", sample_result "Sin Daño" 85);
          ("lateral-izquierdo", sample_result "Sin Daño" 95);
          ("trasero", sample_result "Sin Daño" 99)] = Ok c ∧
       overall c = "excellent".
Proof.
  destruct (overall_tag_characterises_counts
              [("frontal", sample_result "Daño Moderado" 90);
               ("lateral-derecho", sample_result "Sin Daño" 85);
               ("lateral-izquierdo", sample_result "Sin Daño" 95);
               ("trasero", sample_result "Sin Daño" 99)])
    as (c & Hc & _ & _ & _ & Hexc).
  - reflexivity.
  - exists c. split; [exact Hc|]. apply Hexc. vm_compute. lia.
Defined.

(** ** Bounds of the average confidence *)

Lemma fold_confidence_bounds (es : pydict entry) :
  ∀ (acc : Q) (k : nat),
    Forall (λ kv, (0 <= entry_confidence kv)%Q ∧ (entry_confidence kv <= 100)%Q) es →
    (100 * Z.of_nat (k + length es) < 2 ^ 53)%Z →
    (0 <= acc)%Q → (acc <= inject_Z (100 * Z.of_nat k))%Q →
    (0 <= fold_left (λ a kv, py_add a (entry_confidence kv)) es acc)%Q ∧
    (fold_left (λ a kv, py_add a (entry_confidence kv)) es acc
       <= inject_Z (100 * Z.of_nat (k + length es)))%Q.
Proof.
  induction es as [|kv es IH]; intros acc k Hall Hfew H0 Hk.
  - cbn [fold_left length]. rewrite Nat.add_0_r. split; assumption.
  - apply Forall_cons in Hall as [[Hlo Hhi] Hall].
    cbn [fold_left length] in *.
    replace (k + S (length es))%nat with (S k + length es)%nat in * by lia.
    destruct (round_binary_between binary64 (acc + entry_confidence kv)
                0 (100 * Z.of_nat (S k))) as [A B].
    + lia.
    + cbn [prec]. lia.
    + change (inject_Z 0) with 0%Q. lra.
    + replace (100 * Z.of_nat (S k))%Z with (100 * Z.of_nat k + 100)%Z by lia.
      rewrite inject_Z_plus. change (inject_Z 100) with 100%Q. lra.
    + apply IH; [exact Hall | exact Hfew | exact A | exact B].
Qed.

Lemma mean_confidence_bounds (results : pydict entry) :
  Forall (λ kv, (0 <= entry_confidence kv)%Q ∧ (entry_confidence kv <= 100)%Q)
         (angle_entries results) →
  (100 * Z.of_nat (length (angle_entries results)) < 2 ^ 53)%Z →
  (0 <= mean_confidence results)%Q ∧ (mean_confidence results <= 100)%Q.
Proof.
  intros Hall Hfew. unfold mean_confidence, confidence_sum.
  destruct (fold_confidence_bounds (angle_entries results) 0 0 Hall Hfew)
    as [H1 H2]; [apply Qle_refl | apply Qle_refl|].
  cbn [Nat.add] in H2.
  destruct (length (angle_entries results)) as [|n] eqn:Hn; [split; lra|].
  set (total := fold_left _ _ _) in *. unfold py_truediv.
  rewrite round_binary_Z by (cbn [prec]; lia).
  assert (Hpos : (0 < inject_Z (Z.of_nat (S n)))%Q).
  { change 0%Q with (inject_Z 0). rewrite <- Zlt_Qlt. lia. }
  rewrite inject_Z_mult in H2. change (inject_Z 100) with 100%Q in H2.
  apply (round_binary_between binary64 _ 0 100); [lia | cbn [prec]; lia | |].
  - change (inject_Z 0) with 0%Q. apply Qle_shift_div_l; [exact Hpos | lra].
  - change (inject_Z 100) with 100%Q. apply Qle_shift_div_r; [exact Hpos | lra].
Qed.

(** X16. When every per-angle confidence lies between 0 and 100, so
    does the reported average confidence, for any number of angles
    whose hundredfold is below [2 ^ 53]: up to there the float sum of
    the confidences cannot exceed the hundredfold of their number.
    (Float addition rounds, and a sum of very many confidences of 100
    would run ahead of the exact sum.) *)
Theorem average_confidence_is_percentage (results : pydict entry) :
  per_angle_results results = true →
  Forall (λ kv, (0 <= entry_confidence kv)%Q ∧ (entry_confidence kv <= 100)%Q)
         (angle_entries results) →
  (100 * Z.of_nat (length (angle_entries results)) < 2 ^ 53)%Z →
  ∃ c, _generate_general_conclusion results = Ok c ∧
    (0 <= average_confidence c)%Q ∧ (average_confidence c <= 100)%Q.
Proof.
  intros Hwf Hall Hfew.
  destruct (generate_general_conclusion_ok results Hwf)
    as (c & Hc & _ & _ & _ & _ & _ & Havg).
  exists c. split; [exact Hc|]. rewrite Havg.
  destruct (mean_confidence_bounds results Hall Hfew) as [H1 H2].
  apply (py_round2_between _ 0 100); [lia | lia | exact H1 | exact H2].
Qed.

Lemma average_confidence_is_percentage_witness :
  ∃ c, _generate_general_conclusion
         [("frontal", sample_result "Daño Moderado" 100);
          ("trasero", sample_result "Daño Leve" (float64 99.99))] = Ok c ∧
    (0 <= average_confidence c)%Q ∧ (average_confidence c <= 100)%Q.
Proof.
  apply average_confidence_is_percentage.
  - reflexivity.
  - repeat constructor; by_computation.
  - vm_compute. reflexivity.
Defined.

(** ** The endpoint: effects of a request *)

(** X17. A request that is answered with 503 or 400 has had no effect:
    nothing was saved or removed and neither the image library nor the
    network was called. *)
Theorem rejected_request_has_no_effect {tensor : Type} (fmt : format)
    (load_image_array : string → result tensor) (timestamp : string → string)
    (save_error : string → option exn)
    (analyzer : option (DamageAnalyzer tensor)) (files : gmap string upload)
    (s s' : list event) (resp : response) :
  api_analyze fmt load_image_array timestamp save_error analyzer files s
    = (Ok resp, s') →
  resp = ServiceUnavailable ∨ (∃ error, resp = BadRequest error) →
  s' = s.
Proof.
  intros Hrun Hrejected.
  destruct analyzer as [self|]; [|cbv in Hrun; congruence].
  rewrite api_analyze_run in Hrun.
  destruct (collect_images required_angles files []) as [[r|image_files]|e].
  - congruence.
  - cbv zeta in Hrun.
    destruct (first_save_error _ _); [|destruct (analyze_vehicle _ _ _ _ _).1];
      injection Hrun as <- _;
      destruct Hrejected as [H|[error H]]; discriminate H.
  - injection Hrun as <- _.
    destruct Hrejected as [H|[error H]]; discriminate H.
Qed.

Lemma rejected_request_has_no_effect_witness :
  api_analyze binary32 (λ p, Ok p) (λ _, "20250101_000000_000000") saves_succeed
    (Some constant_analyzer)
    {[ "frontal" := jpeg_upload; "trasero" := jpeg_upload ]} []
  = (Ok (BadRequest "Falta imagen: lateral-derecho"), []).
Proof.
  destruct (api_analyze binary32 (λ p, Ok p) (λ _, "20250101_000000_000000")
              saves_succeed (Some constant_analyzer)
              {[ "frontal" := jpeg_upload; "trasero" := jpeg_upload ]} [])
    as [[resp|e] s'] eqn:Hrun; [|vm_compute in Hrun; discriminate Hrun].
  assert (Hresp : resp = BadRequest "Falta imagen: lateral-derecho").
  { vm_compute in Hrun. congruence. }
  rewrite (rejected_request_has_no_effect _ _ _ _ _ _ _ _ _ Hrun); [|right; eauto].
  rewrite Hresp. reflexivity.
Defined.



(** The trace of a request whose third save fails: three calls of
    [file.save], and the removal of the two files that were saved. *)
Example third_save_fails :
  api_analyze binary32 (λ p, Ok p) (λ _, "T")
    (λ filepath, if String.eqb filepath (saved_path (λ _, "T") "lateral-izquierdo")
                 then Some (ExternalError "No space left on device") else None)
    (Some constant_analyzer) four_uploads []
  = (Ok (ServerError (ExternalError "No space left on device")),
     [SaveCall (saved_path (λ _, "T") "frontal");
      SaveCall (saved_path (λ _, "T") "lateral-derecho");
      SaveCall (saved_path (λ _, "T") "lateral-izquierdo");
      RemoveCall (saved_path (λ _, "T") "frontal");
      RemoveCall (saved_path (λ _, "T") "lateral-derecho")]).
Proof. vm_compute. reflexivity. Qed.

(** X19. The endpoint always answers: whatever the analyzer, the
    uploads (with or without content type), the outcome of saving them
    and the behaviour of the image library and of the network, every
    exception raised inside [try] is caught and no exception leaves
    [api_analyze]. *)
Theorem endpoint_always_answers {tensor : Type} (fmt : format)
    (load_image_array : string → result tensor) (timestamp : string → string)
    (save_error : string → option exn)
    (analyzer : option (DamageAnalyzer tensor)) (files : gmap string upload)
    (s : list event) :
  ∃ resp s',
    api_analyze fmt load_image_array timestamp save_error analyzer files s
      = (Ok resp, s').
Proof.
  destruct analyzer as [self|]; [|eexists; eexists; reflexivity].
  rewrite api_analyze_run.
  destruct (collect_images required_angles files []) as [[r|image_files]|e];
    [| cbv zeta; destruct (first_save_error _ _) |];
    eexists; eexists; reflexivity.
Qed.

(** The body of [try] alone does raise: the validation on an upload
    without content type, and the saving loop when a save fails. *)
Example view_body_raises :
  (view_body binary32 (λ p, Ok p) (λ _, "T") saves_succeed constant_analyzer
     (<["frontal" := {| filename := "foto.jpg"; content_type := None |}]>
        four_uploads) None []).1.1
  = Raise (AttributeError "'NoneType' object has no attribute 'startswith'") ∧
  (view_body binary32 (λ p, Ok p) (λ _, "T")
     (λ _, Some (ExternalError "No space left on device")) constant_analyzer
     four_uploads None []).1.1
  = Raise (ExternalError "No space left on device").
Proof. split; vm_compute; reflexivity. Qed.

(** X20. The uploads are checked in the order frontal, lateral-derecho,
    lateral-izquierdo, trasero, and the first one that is missing, has
    no file name, has no content type or is not an image decides the
    answer, without any effect: 400 with the message of the defect, but
    500 with the [AttributeError] of the failed validation when the
    upload has no content type. *)
Theorem first_defect_is_reported {tensor : Type} (fmt : format)
    (load_image_array : string → result tensor) (timestamp : string → string)
    (save_error : string → option exn)
    (self : DamageAnalyzer tensor) (files : gmap string upload)
    (pre post : list string) (angle : string) (resp : response)
    (s : list event) :
  required_angles = (pre ++ angle :: post)%list →
  (∀ k, k ∈ pre → upload_defect files k = None) →
  upload_defect files angle = Some resp →
  api_analyze fmt load_image_array timestamp save_error (Some self) files s
    = (Ok resp, s) ∧
  ((∃ error, resp = BadRequest error) ∨
   resp = ServerError
            (AttributeError "'NoneType' object has no attribute 'startswith'")).
Proof.
  intros Hsplit Hpre Hdefect. rewrite api_analyze_run, Hsplit.
  rewrite (collect_images_first_defect files pre post angle resp [] Hpre Hdefect).
  unfold upload_defect in Hdefect.
  destruct (files !! angle) as [file|];
    [|injection Hdefect as <-; split; [reflexivity | left; eauto]].
  destruct (filename file =? "");
    [injection Hdefect as <-; split; [reflexivity | left; eauto]|].
  destruct (content_type file) as [mime|];
    [|injection Hdefect as <-; split; [reflexivity | right; reflexivity]].
  destruct (starts_with "image/" mime); [discriminate Hdefect|].
  injection Hdefect as <-. split; [reflexivity | left; eauto].
Qed.

Lemma first_defect_is_reported_witness :
  api_analyze binary32 (λ p, Ok p) (λ _, "T") saves_succeed (Some constant_analyzer)
    {[ "frontal" := jpeg_upload;
       "lateral-derecho" := {| filename := "foto.jpg"; content_type := None |};
       "trasero" := {| filename := ""; content_type := Some "image/png" |} ]} []
  = (Ok (ServerError
           (AttributeError "'NoneType' object has no attribute 'startswith'")), []).
Proof.
  apply (first_defect_is_reported binary32 (λ p, Ok p) (λ _, "T") saves_succeed
           constant_analyzer _
           ["frontal"] ["lateral-izquierdo"; "trasero"] "lateral-derecho").
  - reflexivity.
  - intros k Hk. apply list_elem_of_singleton in Hk as ->. reflexivity.
  - reflexivity.
Defined.

Example text_upload_is_rejected :
  api_analyze binary32 (λ p, Ok p) (λ _, "T") saves_succeed (Some constant_analyzer)
    {[ "frontal" := jpeg_upload;
       "lateral-derecho" := {| filename := "notas.txt";
                               content_type := Some "text/plain" |};
       "trasero" := {| filename := ""; content_type := Some "image/png" |} ]} []
  = (Ok (BadRequest "Archivo no es imagen: lateral-derecho"), []).
Proof. vm_compute. reflexivity. Qed.

(** X21. Only the uploads under the four angle names count: two
    requests that agree on them get the same answer and have the same
    effects, whatever else they carry. *)
Theorem other_uploads_are_ignored {tensor : Type} (fmt : format)
    (load_image_array : string → result tensor) (timestamp : string → string)
    (save_error : string → option exn)
    (analyzer : option (DamageAnalyzer tensor))
    (files files' : gmap string upload) (s : list event) :
  (∀ k, k ∈ required_angles → files !! k = files' !! k) →
  api_analyze fmt load_image_array timestamp save_error analyzer files s
  = api_analyze fmt load_image_array timestamp save_error analyzer files' s.
Proof.
  intros Hsame. destruct analyzer as [self|]; [|reflexivity].
  rewrite !api_analyze_run.
  rewrite (collect_images_ext files files' required_angles [] Hsame).
  reflexivity.
Qed.

Lemma other_uploads_are_ignored_witness :
  api_analyze binary32 (λ p, Ok p) (λ _, "T") saves_succeed (Some constant_analyzer)
    four_uploads []
  = api_analyze binary32 (λ p, Ok p) (λ _, "T") saves_succeed (Some constant_analyzer)
    (<["techo" := {| filename := "x.exe";
                     content_type := Some "application/octet-stream" |}]>
       four_uploads) [].
Proof.
  apply other_uploads_are_ignored. intros k Hk.
  symmetry. apply lookup_insert_ne.
  intros <-. unfold required_angles in Hk.
  repeat (apply elem_of_cons in Hk as [Hk|Hk]; [discriminate Hk|]).
  apply elem_of_nil in Hk. exact Hk.
Defined.

(** X22. An analyzer object whose model is not loaded is not answered
    with 503: valid uploads are saved (here: every [file.save]
    succeeds), the analysis fails at once without calling the image
    library or the network, the files are removed and the answer is
    500 with [RuntimeError "Modelo no cargado"]. *)
Theorem unloaded_analyzer_answers_500 {tensor : Type} (fmt : format)
    (load_image_array : string → result tensor) (timestamp : string → string)
    (save_error : string → option exn)
    (self : DamageAnalyzer tensor) (files : gmap string upload)
    (s : list event) :
  model_loaded self = false →
  (∀ k, k ∈ required_angles → upload_defect files k = None) →
  (∀ k, k ∈ required_angles → save_error (saved_path timestamp k) = None) →
  api_analyze fmt load_image_array timestamp save_error (Some self) files s
  = (Ok (ServerError (RuntimeError "Modelo no cargado")),
     (s ++ map SaveCall (map (saved_path timestamp) required_angles)
        ++ map RemoveCall (map (saved_path timestamp) required_angles))%list).
Proof.
  intros Hnot Hvalid Hsaves. rewrite api_analyze_run.
  destruct (collect_images_no_defect files required_angles [] Hvalid)
    as [image_files ->]. cbv zeta.
  pose proof (first_save_error_none timestamp save_error required_angles Hsaves)
    as Hnone.
  rewrite Hnone. destruct (all_saves_succeed _ _ _ Hnone) as [-> ->].
  unfold analyze_vehicle. rewrite Hnot. cbn [negb raise fst snd].
  rewrite saved_so_far_values, <- app_assoc. reflexivity.
Qed.

Lemma unloaded_analyzer_answers_500_witness :
  api_analyze binary32 (λ p, Ok p) (λ _, "T") saves_succeed
    (Some (mk_analyzer (Some (λ _ : string, Ok sample_vector)) false))
    four_uploads []
  = (Ok (ServerError (RuntimeError "Modelo no cargado")),
     (map SaveCall (map (saved_path (λ _, "T")) required_angles)
        ++ map RemoveCall (map (saved_path (λ _, "T")) required_angles))%list).
Proof.
  apply (unloaded_analyzer_answers_500 binary32 (λ p, Ok p) (λ _, "T") saves_succeed
           (mk_analyzer (Some (λ _ : string, Ok sample_vector)) false)
           _ []).
  - reflexivity.
  - intros k Hk. unfold required_angles in Hk.
    repeat (apply elem_of_cons in Hk as [->|Hk]; [reflexivity|]).
    apply elem_of_nil in Hk. contradiction.
  - reflexivity.
Defined.

(** X26. When the uploads are valid and a [file.save] fails, the answer
    is 500 with the exception of that save: the files saved before it
    are removed, the analyzer is not called, and nothing is removed at
    the path of the failed save. *)
Theorem failed_save_answers_500 {tensor : Type} (fmt : format)
    (load_image_array : string → result tensor) (timestamp : string → string)
    (save_error : string → option exn)
    (self : DamageAnalyzer tensor) (files : gmap string upload)
    (pre post : list string) (angle : string) (e : exn) (s : list event) :
  (∀ k, k ∈ required_angles → upload_defect files k = None) →
  required_angles = (pre ++ angle :: post)%list →
  (∀ k, k ∈ pre → save_error (saved_path timestamp k) = None) →
  save_error (saved_path timestamp angle) = Some e →
  api_analyze fmt load_image_array timestamp save_error (Some self) files s
  = (Ok (ServerError e),
     (s ++ map SaveCall (map (saved_path timestamp) (pre ++ [angle]))
        ++ map RemoveCall (map (saved_path timestamp) pre))%list).
Proof.
  intros Hvalid Hsplit Hpre Hfail. rewrite api_analyze_run.
  destruct (collect_images_no_defect files required_angles [] Hvalid)
    as [image_files ->]. cbv zeta. rewrite Hsplit. clear Hsplit Hvalid.
  assert (Hrun :
    first_save_error save_error (map (saved_path timestamp) (pre ++ angle :: post))
      = Some e ∧
    attempted_saves save_error (map (saved_path timestamp) (pre ++ angle :: post))
      = map (saved_path timestamp) (pre ++ [angle]) ∧
    (saved_so_far timestamp save_error (pre ++ angle :: post)).*2
      = map (saved_path timestamp) pre).
  { induction pre as [|k pre IH];
      cbn [app map first_save_error attempted_saves saved_so_far];
      unfold save_succeeds.
    - rewrite Hfail. repeat split; reflexivity.
    - rewrite (Hpre k) by left.
      destruct IH as (-> & -> & IH3); [intros k' Hk'; apply Hpre; right; exact Hk'|].
      rewrite fmap_cons, IH3. repeat split; reflexivity. }
  destruct Hrun as (-> & -> & ->). rewrite <- app_assoc. reflexivity.
Qed.

Lemma failed_save_answers_500_witness :
  api_analyze binary32 (λ p, Ok p) (λ _, "T")
    (λ filepath, if String.eqb filepath (saved_path (λ _, "T") "lateral-derecho")
                 then Some (ExternalError "No space left on device") else None)
    (Some constant_analyzer) four_uploads []
  = (Ok (ServerError (ExternalError "No space left on device")),
     [SaveCall (saved_path (λ _, "T") "frontal");
      SaveCall (saved_path (λ _, "T") "lateral-derecho");
      RemoveCall (saved_path (λ _, "T") "frontal")]).
Proof.
  apply (failed_save_answers_500 binary32 (λ p, Ok p) (λ _, "T") _
           constant_analyzer four_uploads
           ["frontal"] ["lateral-izquierdo"; "trasero"] "lateral-derecho").
  - intros k Hk. unfold required_angles in Hk.
    repeat (apply elem_of_cons in Hk as [->|Hk]; [reflexivity|]).
    apply elem_of_nil in Hk. contradiction.
  - reflexivity.
  - intros k Hk. apply list_elem_of_singleton in Hk as ->. reflexivity.
  - reflexivity.
Defined.

(** ** Health, statistics and loading *)

(** X23. The health and the statistics endpoints agree ([ia_status] is
    "healthy" exactly when [model_loaded] is reported true), and while
    health reports "unavailable" no analysis request succeeds. *)
Theorem health_agrees_with_stats_and_analysis {tensor : Type} (fmt : format)
    (load_image_array : string → result tensor) (timestamp : string → string)
    (save_error : string → option exn)
    (analyzer : option (DamageAnalyzer tensor)) :
  (ia_status (health_check analyzer) = "healthy"
   ↔ stats_model_loaded (get_stats analyzer) = true) ∧
  (ia_status (health_check analyzer) = "unavailable" →
   ∀ files s results,
     (api_analyze fmt load_image_array timestamp save_error analyzer files s).1
     ≠ Ok (Success results)).
Proof.
  unfold health_check, get_stats. cbn [ia_status stats_model_loaded].
  destruct analyzer as [self|].
  - destruct (model_loaded self) eqn:Hloaded.
    + split; [split; reflexivity | discriminate].
    + split; [split; discriminate|]. intros _ files s results Hrun.
      destruct (api_analyze fmt load_image_array timestamp save_error
                  (Some self) files s) as [r s'] eqn:Hapi.
      cbn [fst] in Hrun. subst r.
      apply api_analyze_success in Hapi
        as (self' & saved & out & s1 & s2 & Hself & _ & _ & Hveh & _).
      injection Hself as <-.
      unfold analyze_vehicle in Hveh. rewrite Hloaded in Hveh.
      discriminate Hveh.
  - split; [split; discriminate|]. intros _ files s results Hrun.
    discriminate Hrun.
Qed.

Section LoadingFacts.

Context {tensor : Type}.
Variable path_exists : string → bool.
Variable load_model : string → result (tensor → result (list Q)).

(** X24. [_load_model] leaves the flag [model_loaded] true exactly when
    it returns without an exception, and then a model is present; when
    it raises, the flag is false and [model] is what it was. *)
Theorem load_model_flag_tells_success
    (self : DamageAnalyzer tensor) (model_path : option string) :
  let after := (_load_model path_exists load_model self model_path).1 in
  let raised := (_load_model path_exists load_model self model_path).2 in
  (raised = None ↔ model_loaded after = true) ∧
  (model_loaded after = true → is_Some (model after)) ∧
  (raised ≠ None → model after = model self).
Proof.
  unfold _load_model.
  destruct (negb (path_exists (default DEFAULT_MODEL_PATH model_path)));
    [destruct (path_exists (replace ".keras" ".h5"
                              (default DEFAULT_MODEL_PATH model_path)))|];
    try destruct (load_model _); cbn;
    (split; [split; intros H; try reflexivity; discriminate H|]);
    (split; [intros H; try discriminate H; eauto | intros H; try reflexivity;
             contradiction]).
Qed.

(** X25. At start-up the analyzer exists exactly when a model file is
    found and Keras loads it: the [.keras] file if it exists, otherwise
    the [.h5] file of the same name.  An analyzer that exists is loaded
    and has a model, and health reports "healthy" exactly then. *)
Theorem startup_prefers_keras_file :
  startup_analyzer path_exists load_model =
    match found_model_file path_exists with
    | Some model_path =>
        match load_model model_path with
        | Ok net => Some (mk_analyzer (Some net) true)
        | Raise _ => None
        end
    | None => None
    end ∧
  (ia_status (health_check (startup_analyzer path_exists load_model)) = "healthy"
   ↔ is_Some (startup_analyzer path_exists load_model)).
Proof.
  unfold startup_analyzer, __init__, _load_model, found_model_file.
  cbn [default].
  change (replace ".keras" ".h5" DEFAULT_MODEL_PATH)
    with "backend/models/best_mobilenet_4classes_improved.h5".
  change DEFAULT_MODEL_PATH
    with "backend/models/best_mobilenet_4classes_improved.keras".
  destruct (path_exists "backend/models/best_mobilenet_4classes_improved.keras");
    cbn [negb];
    [|destruct (path_exists "backend/models/best_mobilenet_4classes_improved.h5")];
    try destruct (load_model _) as [net'|e]; cbn;
    (split; [reflexivity|]);
    (split; intros H; try reflexivity; try discriminate H; eauto;
     try (destruct H as [x H]; discriminate H)).
Qed.

End LoadingFacts.
